(** * PEGCA: energy-efficient VM consolidation simulator (pegca_sim.py)

    A shallow embedding of the simulator and the properties of its
    consolidation cycle.

    Number model.  Python floats are idealised as exact rationals ([Q]):
    every arithmetic operation of the source is the same operation on [Q],
    comparisons are the exact comparisons, and [round(x, n)] is rounding of
    the exact value to the nearest multiple of [10^-n], ties to the even
    multiple.  A double sum or product can land one rounding step past a
    bound its exact value respects, so no property below bounds the result of
    the source's arithmetic by its operands; the bounds stated are those the
    source enforces by a comparison (the clamps, the fit test, the floor of
    the controller) or that hold when each operation is rounded to the
    nearest double, rounding being monotone and the margins involved far
    wider than one rounding step.  The two things the source takes from outside are section
    variables: the pseudo-random generator behind the [random] module (its
    state type, [random.seed] and [random.random]) and the table of the values
    [math.sin(2*pi*k/24)].

    Failure model.  The Python exceptions the code can raise
    ([ZeroDivisionError], [IndexError], [KeyError]) are the [Raise] results of
    a small error monad. *)

From Stdlib Require Import ZArith QArith Qround Lia Lqa List Bool.
From Stdlib Require Import Sorting.Sorted Sorting.Permutation.
Import ListNotations.

Set Implicit Arguments.

(** ** Python exceptions as an error monad *)

Inductive PyErr : Type :=
| ZeroDivisionError
| IndexError
| KeyError.

Inductive result (A : Type) : Type :=
| Ok (a : A)
| Raise (e : PyErr).

Arguments Ok {A} a.
Arguments Raise {A} e.

Definition bind {A B : Type} (c : result A) (k : A -> result B) : result B :=
  match c with
  | Ok a => k a
  | Raise e => Raise e
  end.

Declare Scope py_scope.
Delimit Scope py_scope with py.
Notation "x <- c ;; k" := (bind c (fun x => k))
  (at level 61, c at next level, right associativity) : py_scope.
Notation "' p <- c ;; k" := (bind c (fun x => let p := x in k))
  (at level 61, p pattern, c at next level, right associativity) : py_scope.
Open Scope py_scope.

(** Monadic loops: [for x in xs: acc = f(acc, x)] and a comprehension whose
    body can raise. *)
Fixpoint foldM {A B : Type} (f : B -> A -> result B) (xs : list A) (acc : B)
  : result B :=
  match xs with
  | [] => Ok acc
  | x :: rest => acc' <- f acc x ;; foldM f rest acc'
  end.

Fixpoint mapM {A B : Type} (f : A -> result B) (xs : list A) : result (list B) :=
  match xs with
  | [] => Ok []
  | x :: rest => y <- f x ;; ys <- mapM f rest ;; Ok (y :: ys)
  end.

(** ** Numbers *)

Definition Qlt_bool (a b : Q) : bool := negb (Qle_bool b a).

(** Python's two-argument [max(a, b)] and [min(a, b)]: the first argument
    wins ties. *)
Definition py_max (a b : Q) : Q := if Qlt_bool a b then b else a.
Definition py_min (a b : Q) : Q := if Qlt_bool b a then b else a.

(** Nearest integer, ties to even. *)
Definition round_half_even (x : Q) : Z :=
  let f := Qfloor x in
  let r := (x - inject_Z f)%Q in
  if Qlt_bool r (1 # 2) then f
  else if Qlt_bool (1 # 2) r then (f + 1)%Z
  else if Z.even f then f else (f + 1)%Z.

(** [round(x, ndigits)]. *)
Definition py_round (x : Q) (ndigits : nat) : Q :=
  let p := Z.to_pos (10 ^ Z.of_nat ndigits) in
  round_half_even (x * inject_Z (Zpos p)) # p.

(** [sum(xs)]: starts from 0 and adds from the left. *)
Definition py_sum (xs : list Q) : Q := fold_left Qplus xs 0%Q.

(** [range(n)]: empty for [n <= 0]. *)
Definition range (n : Z) : list Z := map Z.of_nat (seq 0 (Z.to_nat n)).

(** [a % b] on ints. *)
Definition py_mod (a b : Z) : result Z :=
  if (b =? 0)%Z then Raise ZeroDivisionError else Ok (a mod b)%Z.

(** ** Lists and dicts *)

(** [xs[-1]] and [xs[-2]]. *)
Definition index_m1 (xs : list Q) : result Q :=
  match rev xs with
  | x :: _ => Ok x
  | _ => Raise IndexError
  end.

Definition index_m2 (xs : list Q) : result Q :=
  match rev xs with
  | _ :: x :: _ => Ok x
  | _ => Raise IndexError
  end.

(** Resolution of a Python list index (negative indices count from the
    end). *)
Definition py_index (len : nat) (i : Z) : result nat :=
  if ((0 <=? i) && (i <? Z.of_nat len))%Z then Ok (Z.to_nat i)
  else if ((i <? 0) && (- Z.of_nat len <=? i))%Z then Ok (Z.to_nat (Z.of_nat len + i))
  else Raise IndexError.

Fixpoint list_update {A : Type} (n : nat) (f : A -> A) (xs : list A) : list A :=
  match xs, n with
  | [], _ => []
  | x :: rest, O => f x :: rest
  | x :: rest, S n' => x :: list_update n' f rest
  end.

(** A dict with int keys, in insertion order. *)
Definition dict (V : Type) : Type := list (Z * V).

Fixpoint dict_get {V : Type} (k : Z) (d : dict V) : option V :=
  match d with
  | [] => None
  | (k', v) :: rest => if (k' =? k)%Z then Some v else dict_get k rest
  end.

Definition dict_mem {V : Type} (k : Z) (d : dict V) : bool :=
  match dict_get k d with Some _ => true | None => false end.

(** [d[k] = v]: overwrites in place, or appends a new key. *)
Fixpoint dict_set {V : Type} (k : Z) (v : V) (d : dict V) : dict V :=
  match d with
  | [] => [(k, v)]
  | (k', v') :: rest =>
      if (k' =? k)%Z then (k', v) :: rest else (k', v') :: dict_set k v rest
  end.

(** [d[k]]. *)
Definition dict_lookup {V : Type} (k : Z) (d : dict V) : result V :=
  match dict_get k d with
  | Some v => Ok v
  | None => Raise KeyError
  end.

(** [d[k] += x]. *)
Definition dict_add (k : Z) (x : Q) (d : dict Q) : result (dict Q) :=
  v <- dict_lookup k d ;; Ok (dict_set k (v + x)%Q d).

(** A dict comprehension [{k: v for ...}] over the listed pairs: a repeated
    key keeps its first position and takes the last value. *)
Definition dict_from {V : Type} (kvs : list (Z * V)) : dict V :=
  fold_left (fun d kv => dict_set (fst kv) (snd kv) d) kvs [].

Definition dict_keys {V : Type} (d : dict V) : list Z := map fst d.

(** Stable insertion sort on a key; [sorted(xs, key=..., reverse=True)] keeps
    the encounter order of equal keys, as [sorted(xs)] does. *)
Section Sorting.
Variable A : Type.
Variable key : A -> Q.

Fixpoint insert_desc (x : A) (xs : list A) : list A :=
  match xs with
  | [] => [x]
  | y :: rest =>
      if Qlt_bool (key x) (key y) then y :: insert_desc x rest else x :: y :: rest
  end.

Definition sorted_desc (xs : list A) : list A := fold_right insert_desc [] xs.

Fixpoint insert_asc (x : A) (xs : list A) : list A :=
  match xs with
  | [] => [x]
  | y :: rest =>
      if Qlt_bool (key y) (key x) then y :: insert_asc x rest else x :: y :: rest
  end.

Definition sorted_asc (xs : list A) : list A := fold_right insert_asc [] xs.
End Sorting.

(** ** The [statistics] module *)

(** [statistics.mean(xs)] on a non-empty list. *)
Definition stats_mean (xs : list Q) : Q :=
  (py_sum xs / inject_Z (Z.of_nat (length xs)))%Q.

(** [statistics.quantiles(xs, n=20)[-1]], the default exclusive method: the
    last of the 19 cut points. *)
Definition quantiles20_last (xs : list Q) : Q :=
  let data := sorted_asc (fun x => x) xs in
  let ld := Z.of_nat (length data) in
  let m := (ld + 1)%Z in
  let j0 := (19 * m / 20)%Z in
  let j := if (j0 <? 1)%Z then 1%Z else if (ld - 1 <? j0)%Z then (ld - 1)%Z else j0 in
  let delta := (19 * m - j * 20)%Z in
  ((nth (Z.to_nat (j - 1)) data 0 * inject_Z (20 - delta)
    + nth (Z.to_nat j) data 0 * inject_Z delta) / 20)%Q.

(** [max(xs)] on a non-empty list: the first of the largest elements. *)
Definition py_max_list (x : Q) (xs : list Q) : Q := fold_left py_max xs x.

(** ** Configuration and entities *)

Record Config : Type := mkConfig {
  alpha : Q;
  low_usage_threshold : Q;
  target_util : Q;
  hi_watermark : Q;
  dt_hours : Q;
  cycles : Z;
  n_hosts : Z;
  n_vms : Z;
  seed : Z
}.

(** [Config()] with its default arguments. *)
Definition default_config : Config :=
  mkConfig 0.6 30.0 0.80 0.90 1.0 24 20 120 7.

Definition set_target_util (cfg : Config) (tu : Q) : Config :=
  mkConfig (alpha cfg) (low_usage_threshold cfg) tu (hi_watermark cfg)
           (dt_hours cfg) (cycles cfg) (n_hosts cfg) (n_vms cfg) (seed cfg).

(** The two strings a host's [status] ever holds. *)
Inductive Status : Type := ON | OFF.

Definition status_eqb (a b : Status) : bool :=
  match a, b with
  | ON, ON | OFF, OFF => true
  | _, _ => false
  end.

Record Host : Type := mkHost {
  h_id : Z;
  cpu_cap : Q;
  mem_cap : Q;
  status : Status;
  power_idle_watts : Q;
  power_peak_watts : Q
}.

(** [Host(hid=i)]. *)
Definition new_host (hid : Z) : Host := mkHost hid 100.0 100.0 ON 120.0 300.0.

Definition set_status (h : Host) (s : Status) : Host :=
  mkHost (h_id h) (cpu_cap h) (mem_cap h) s (power_idle_watts h) (power_peak_watts h).

Record VM : Type := mkVM {
  v_id : Z;
  host_id : Z;
  cpu_use_hist : list Q;
  mem_use_hist : list Q;
  pred_cpu : Q;
  pred_mem : Q
}.

(** [VM(vid, host_id, init_cpu, init_mem)]. *)
Definition new_vm (vid hid : Z) (init_cpu init_mem : Q) : VM :=
  mkVM vid hid [init_cpu; init_cpu] [init_mem; init_mem] init_cpu init_mem.

Definition set_host_id (dst : Z) (vm : VM) : VM :=
  mkVM (v_id vm) dst (cpu_use_hist vm) (mem_use_hist vm) (pred_cpu vm) (pred_mem vm).

Definition set_pred (vm : VM) (pc pm : Q) : VM :=
  mkVM (v_id vm) (host_id vm) (cpu_use_hist vm) (mem_use_hist vm) pc pm.

Definition append_usage (vm : VM) (c m : Q) : VM :=
  mkVM (v_id vm) (host_id vm) (cpu_use_hist vm ++ [c]) (mem_use_hist vm ++ [m])
       (pred_cpu vm) (pred_mem vm).

(** ** Utility functions *)

Definition _bounded (x lo hi : Q) : Q := py_max lo (py_min hi x).

Definition predict_ema (vm : VM) (a : Q) : result VM :=
  c1 <- index_m1 (cpu_use_hist vm) ;;
  c2 <- index_m2 (cpu_use_hist vm) ;;
  m1 <- index_m1 (mem_use_hist vm) ;;
  m2 <- index_m2 (mem_use_hist vm) ;;
  Ok (set_pred vm (a * c1 + (1 - a) * c2)%Q (a * m1 + (1 - a) * m2)%Q).

Definition is_on (h : Host) : bool := status_eqb (status h) ON.
Definition is_off (h : Host) : bool := status_eqb (status h) OFF.

Definition active_hosts (hosts : list Host) : list Host := filter is_on hosts.
Definition off_hosts (hosts : list Host) : list Host := filter is_off hosts.

(** One iteration of the loop of [loads_predicted]. *)
Definition loads_step (acc : dict Q * dict Q) (vm : VM) : result (dict Q * dict Q) :=
  let (cpu, mem) := acc in
  let hid := host_id vm in
  if dict_mem hid cpu then
    cpu' <- dict_add hid (pred_cpu vm) cpu ;;
    mem' <- dict_add hid (pred_mem vm) mem ;;
    Ok (cpu', mem')
  else Ok (cpu, mem).

Definition loads_predicted (hosts : list Host) (vms : list VM)
  : result (dict Q * dict Q) :=
  let cpu := dict_from (map (fun h => (h_id h, 0.0%Q)) (filter is_on hosts)) in
  let mem := dict_from (map (fun h => (h_id h, 0.0%Q)) (filter is_on hosts)) in
  foldM loads_step vms (cpu, mem).

Fixpoint first_fit (vm : VM) (on_hosts : list Host) (cpu_loads mem_loads : dict Q)
  (tu : Q) : result (option Host) :=
  match on_hosts with
  | [] => Ok None
  | h :: rest =>
      c <- dict_lookup (h_id h) cpu_loads ;;
      if Qle_bool (c + pred_cpu vm) (cpu_cap h * tu) then
        m <- dict_lookup (h_id h) mem_loads ;;
        if Qle_bool (m + pred_mem vm) (mem_cap h * tu) then Ok (Some h)
        else first_fit vm rest cpu_loads mem_loads tu
      else first_fit vm rest cpu_loads mem_loads tu
  end.

(** The test of the loop body of [any_high_watermark], on one
    [(hid, load)] item. *)
Definition over_watermark (caps : dict Q) (hi : Q) (item : Z * Q) : bool :=
  let cap := match dict_get (fst item) caps with Some c => c | None => 0.0%Q end in
  Qlt_bool 0 cap && Qlt_bool (cap * hi) (snd item).

Definition any_high_watermark (cpu_loads : dict Q) (on_hosts : list Host) (hi : Q)
  : bool :=
  let caps := dict_from (map (fun h => (h_id h, cpu_cap h)) (filter is_on on_hosts)) in
  existsb (over_watermark caps hi) cpu_loads.

(** ** Core simulation *)

(** A planned move [(vm_id, src, dst)]. *)
Definition Move : Type := (Z * Z * Z)%type.

Definition move_src (mv : Move) : Z := snd (fst mv).
Definition move_dst (mv : Move) : Z := snd mv.

(** The planner's local variables: the move list and the two running
    tallies. *)
Record PlanState : Type := mkPlan {
  plan : list Move;
  cpu_loads : dict Q;
  mem_loads : dict Q
}.

(** The body of the planning loop (step 4) for one candidate. *)
Definition plan_step (on : list Host) (tu : Q) (ps : PlanState) (vm : VM)
  : result PlanState :=
  dst <- first_fit vm on (cpu_loads ps) (mem_loads ps) tu ;;
  match dst with
  | Some d =>
      if negb (h_id d =? host_id vm)%Z then
        cpu' <- dict_add (h_id d) (pred_cpu vm) (cpu_loads ps) ;;
        mem' <- dict_add (h_id d) (pred_mem vm) (mem_loads ps) ;;
        Ok (mkPlan (plan ps ++ [(v_id vm, host_id vm, h_id d)]) cpu' mem')
      else Ok ps
  | None => Ok ps
  end.

(** Step 3: the low-usage candidates, in the order the planner visits
    them. *)
Definition candidates (cfg : Config) (vms : list VM) : list VM :=
  sorted_desc pred_cpu
    (filter (fun vm => Qle_bool (pred_cpu vm) (low_usage_threshold cfg)) vms).

(** The planner's state before its first candidate. *)
Definition plan_init (on : list Host) (vms : list VM) : result PlanState :=
  '(cpu, mem) <- loads_predicted on vms ;;
  Ok (mkPlan [] cpu mem).

(** Steps 3 and 4. *)
Definition plan_moves (cfg : Config) (on : list Host) (vms : list VM)
  : result PlanState :=
  ps0 <- plan_init on vms ;;
  foldM (plan_step on (target_util cfg)) (candidates cfg vms) ps0.

(** Step 5: [vms[vm_id].host_id = dst]. *)
Definition apply_move (vms : list VM) (mv : Move) : result (list VM) :=
  let '(vm_id, _, dst) := mv in
  i <- py_index (length vms) vm_id ;;
  Ok (list_update i (set_host_id dst) vms).

Definition execute (moves : list Move) (vms : list VM) : result (list VM) :=
  foldM apply_move moves vms.

(** Step 6.  [has_vm] is keyed by the hosts that were ON when the plan was
    built. *)
Definition has_vm_dict (on : list Host) (vms : list VM) : dict bool :=
  fold_left
    (fun d vm => if dict_mem (host_id vm) d then dict_set (host_id vm) true d else d)
    vms (dict_from (map (fun h => (h_id h, false)) on)).

(** [on] holds the very objects of [hosts] whose status is ON, so the
    assignment [h.status = "OFF"] in the loop over [on] changes exactly those
    elements of [hosts]. *)
Definition shutdown_host (has_vm : dict bool) (h : Host) : result Host :=
  if is_on h then
    b <- dict_lookup (h_id h) has_vm ;;
    Ok (if negb b then set_status h OFF else h)
  else Ok h.

Definition shutdown (hosts : list Host) (vms : list VM) : result (list Host) :=
  mapM (shutdown_host (has_vm_dict (active_hosts hosts) vms)) hosts.

(** Step 7: the energy credited for one cycle. *)
Definition cycle_energy (cfg : Config) (hosts : list Host) : Q :=
  (py_sum (map power_idle_watts (off_hosts hosts)) * dt_hours cfg / 1000.0)%Q.

(** Step 8: the breach test. *)
Definition breach_check (cfg : Config) (hosts : list Host) (vms : list VM)
  : result bool :=
  let on := active_hosts hosts in
  '(cpu, _) <- loads_predicted on vms ;;
  Ok (any_high_watermark cpu on (hi_watermark cfg)).

(** Step 8: the controller's assignment to [cfg.target_util]. *)
Definition relax_target (tu : Q) : Q := py_max 0.70 (py_round (tu - 0.02) 3).

Section Simulation.

(** The generator behind the [random] module: its state, [random.seed(s)]
    and [random.random()]. *)
Variable Rng : Type.
Variable rng_seed : Z -> Rng.
Variable rng_random : Rng -> Q * Rng.

(** [sin24 k] stands for [math.sin(2 * math.pi * k / 24.0)]. *)
Variable sin24 : Z -> Q.

(** [random.uniform(a, b)]. *)
Definition uniform (a b : Q) (g : Rng) : Q * Rng :=
  let (u, g') := rng_random g in ((a + (b - a) * u)%Q, g').

Definition synth_drift (t : Z) (g : Rng) : Q * Rng :=
  let (u, g') := uniform (-8.0) 8.0 g in
  ((10.0 * sin24 (t mod 24) + u)%Q, g').

(** The run's variables: the objects [simulate] creates, the caller's [cfg]
    object it writes to, and the state of the [random] module. *)
Record SimState : Type := mkState {
  st_hosts : list Host;
  st_vms : list VM;
  st_cfg : Config;
  total_kwh : Q;
  total_migrations : Z;
  total_breaches : Z;
  st_rng : Rng
}.

(** The VM creation loop. *)
Fixpoint init_vms (ids : list Z) (nh : Z) (g : Rng) : result (list VM * Rng) :=
  match ids with
  | [] => Ok ([], g)
  | i :: rest =>
      hid <- py_mod i nh ;;
      let (init_cpu, g1) := uniform 10.0 60.0 g in
      let init_mem := _bounded (init_cpu * 0.8) 5.0 80.0 in
      '(vms, g2) <- init_vms rest nh g1 ;;
      Ok (new_vm i hid init_cpu init_mem :: vms, g2)
  end.

(** Everything before the cycle loop.  The state of the [random] module the
    caller leaves behind is replaced by [random.seed(cfg.seed)]. *)
Definition init_state (cfg : Config) : result SimState :=
  let g := rng_seed (seed cfg) in
  let hosts := map new_host (range (n_hosts cfg)) in
  '(vms, g') <- init_vms (range (n_vms cfg)) (n_hosts cfg) g ;;
  Ok (mkState hosts vms cfg 0.0 0 0 g').

(** Step 1: one drift draw per VM, in list order. *)
Fixpoint update_usage (t : Z) (vms : list VM) (g : Rng) : result (list VM * Rng) :=
  match vms with
  | [] => Ok ([], g)
  | vm :: rest =>
      let (d, g1) := synth_drift t g in
      c <- index_m1 (cpu_use_hist vm) ;;
      let new_cpu := _bounded (c + d) 0.0 100.0 in
      m <- index_m1 (mem_use_hist vm) ;;
      let new_mem := _bounded (m + d * 0.8) 0.0 100.0 in
      '(vms', g2) <- update_usage t rest g1 ;;
      Ok (append_usage vm new_cpu new_mem :: vms', g2)
  end.

(** Steps 1 and 2: the VMs the planner reads. *)
Definition observe_predict (t : Z) (st : SimState) : result (list VM * Rng) :=
  '(vms1, g) <- update_usage t (st_vms st) (st_rng st) ;;
  vms2 <- mapM (fun vm => predict_ema vm (alpha (st_cfg st))) vms1 ;;
  Ok (vms2, g).

(** Steps 1 to 4: the VMs after prediction and the planner's final state. *)
Definition cycle_plan (t : Z) (st : SimState) : result (list VM * Rng * PlanState) :=
  '(vms, g) <- observe_predict t st ;;
  ps <- plan_moves (st_cfg st) (active_hosts (st_hosts st)) vms ;;
  Ok (vms, g, ps).

(** One iteration of the loop over [range(cfg.cycles)]. *)
Definition cycle (t : Z) (st : SimState) : result SimState :=
  '(vms, g, ps) <- cycle_plan t st ;;
  vms' <- execute (plan ps) vms ;;
  let migrations := (total_migrations st + Z.of_nat (length (plan ps)))%Z in
  hosts' <- shutdown (st_hosts st) vms' ;;
  let kwh := (total_kwh st + cycle_energy (st_cfg st) hosts')%Q in
  breach <- breach_check (st_cfg st) hosts' vms' ;;
  if breach then
    Ok (mkState hosts' vms' (set_target_util (st_cfg st) (relax_target (target_util (st_cfg st))))
                kwh migrations (total_breaches st + 1)%Z g)
  else
    Ok (mkState hosts' vms' (st_cfg st) kwh migrations (total_breaches st) g).

(** The cycle loop over the listed cycle indices. *)
Definition run_cycles (ts : list Z) (st : SimState) : result SimState :=
  foldM (fun s t => cycle t s) ts st.

(** The summary record. *)
Record Summary : Type := mkSummary {
  energy_kwh_total : Q;
  migrations_total : Z;
  hosts_off_final : Z;
  util_mean_final : Q;
  util_p95_final : Q;
  hi_watermark_breaches : Z;
  final_target_util : Q
}.

(** The list [utils]: one entry per key of [cpu_loads] whose capacity is
    positive. *)
Fixpoint utils_of (caps : dict Q) (cpu : dict Q) : result (list Q) :=
  match cpu with
  | [] => Ok []
  | (hid, load) :: rest =>
      cap <- dict_lookup hid caps ;;
      us <- utils_of caps rest ;;
      if Qlt_bool 0 cap then Ok ((load / cap)%Q :: us) else Ok us
  end.

(** The summary metrics, after the last cycle. *)
Definition summarize (st : SimState) : result Summary :=
  let on := active_hosts (st_hosts st) in
  '(cpu, _) <- loads_predicted on (st_vms st) ;;
  let caps := dict_from (map (fun h => (h_id h, cpu_cap h)) on) in
  utils <- utils_of caps cpu ;;
  let util_mean :=
    match utils with
    | [] => 0.0%Q
    | _ => py_round (stats_mean utils) 4
    end in
  let util_p95 :=
    if (20 <=? length utils)%nat then py_round (quantiles20_last utils) 4
    else match utils with
         | [] => 0.0%Q
         | u :: us => py_max_list u us
         end in
  Ok (mkSummary (py_round (total_kwh st) 3)
                (total_migrations st)
                (Z.of_nat (length (off_hosts (st_hosts st))))
                util_mean util_p95
                (total_breaches st)
                (py_round (target_util (st_cfg st)) 3)).

(** [simulate(cfg)] called with the [random] module in state [g0]: the
    returned record, the [cfg] object as the call leaves it, and the state of
    the [random] module afterwards. *)
Definition simulate (cfg : Config) (g0 : Rng) : result (Summary * Config * Rng) :=
  st0 <- init_state cfg ;;
  st <- run_cycles (range (cycles cfg)) st0 ;;
  s <- summarize st ;;
  Ok (s, st_cfg st, st_rng st).

End Simulation.

(** ** A sample instance

    A small linear congruential generator and a six-decimal sine table stand
    for the [random] module and [math.sin] where a run is evaluated. *)

Definition sample_seed (s : Z) : Z := (s mod 2147483648)%Z.

Definition sample_random (g : Z) : Q * Z :=
  let g' := ((1103515245 * g + 12345) mod 2147483648)%Z in
  (Qred (g' # 2147483648), g').

Definition sin24_table (k : Z) : Q :=
  nth (Z.to_nat k)
    [0; 0.258819; 0.5; 0.707107; 0.866025; 0.965926;
     1; 0.965926; 0.866025; 0.707107; 0.5; 0.258819;
     0; -0.258819; -0.5; -0.707107; -0.866025; -0.965926;
     -1; -0.965926; -0.866025; -0.707107; -0.5; -0.258819]%Q 0%Q.

(** Two hosts with one VM each, one cycle. *)
Definition two_host_config : Config := mkConfig 0.6 30.0 0.80 0.90 1.0 1 2 2 7.

(** One host carrying thirty VMs, with a packing target below 0.70.  Each
    VM's prediction is at least [0.6 * 2 + 0.4 * 10], so the host's load is
    above [0.90 * 100] whatever the generator draws. *)
Definition crowded_config : Config := mkConfig 0.6 30.0 0.50 0.90 1.0 1 1 30 7.

(** The same crowd with the default packing target. *)
Definition crowded_default_config : Config := mkConfig 0.6 30.0 0.80 0.90 1.0 1 1 30 7.

(** ** Predicates used in the statements *)

(** Every move in the list names a candidate by its id and current host,
    and an ON host other than that one as destination. *)
Definition move_ok (on : list Host) (vms : list VM) (mv : Move) : Prop :=
  move_dst mv <> move_src mv /\
  (exists vm, In vm vms /\ v_id vm = fst (fst mv) /\ host_id vm = move_src mv) /\
  (exists d, In d on /\ h_id d = move_dst mv).

(** Two VM records that agree on everything but the cached predictions. *)
Definition same_up_to_pred (a b : VM) : Prop :=
  v_id a = v_id b /\ host_id a = host_id b /\
  cpu_use_hist a = cpu_use_hist b /\ mem_use_hist a = mem_use_hist b.

(** A state with another VM list in place of its own. *)
Definition with_vms {Rng : Type} (st : SimState Rng) (vms : list VM) : SimState Rng :=
  mkState (st_hosts st) vms (st_cfg st) (total_kwh st) (total_migrations st)
          (total_breaches st) (st_rng st).

(** What the shutdown loop leaves of one host, as a function of the VMs:
    an ON host no VM is assigned to goes OFF, any other host is untouched. *)
Definition host_occupied (vms : list VM) (h : Host) : bool :=
  existsb (fun vm => (host_id vm =? h_id h)%Z) vms.

Definition shutdown_result (vms : list VM) (h : Host) : Host :=
  if is_on h && negb (host_occupied vms h) then set_status h OFF else h.

(** The value a dict comprehension holds for a key: the last listed one. *)
Fixpoint assoc_last {V : Type} (k : Z) (kvs : list (Z * V)) : option V :=
  match kvs with
  | [] => None
  | (k', v) :: rest =>
      match assoc_last k rest with
      | Some v' => Some v'
      | None => if (k' =? k)%Z then Some v else None
      end
  end.

(** The idle power a host adds to a cycle's energy figure. *)
Definition off_power (h : Host) : Q :=
  match status h with
  | OFF => power_idle_watts h
  | ON => 0%Q
  end.

(** The load [loads_predicted] tallies for key [k]: the predictions [f] of
    the VMs assigned to [k], added in list order to the starting value. *)
Definition tally (f : VM -> Q) (k : Z) (vms : list VM) (v0 : Q) : Q :=
  fold_left Qplus (map f (filter (fun vm => (host_id vm =? k)%Z) vms)) v0.

(** A host record that still holds what [Host(hid=i)] gave it, except
    possibly its status. *)
Definition fresh_up_to_status (h : Host) : Prop :=
  h = set_status (new_host (h_id h)) (status h).

(** The shape of the host list of a run: ids [0 .. n_hosts-1] in order. *)
Definition hosts_wf (cfg : Config) (hosts : list Host) : Prop :=
  map h_id hosts = range (n_hosts cfg) /\ Forall fresh_up_to_status hosts.

(** Each history holds at least two samples. *)
Definition vm_wf (vm : VM) : Prop :=
  (2 <= length (cpu_use_hist vm))%nat /\ (2 <= length (mem_use_hist vm))%nat.

(** The shape of the VM list of a run: ids [0 .. n_vms-1] in order. *)
Definition vms_wf (cfg : Config) (vms : list VM) : Prop :=
  map v_id vms = range (n_vms cfg) /\ Forall vm_wf vms.

(** [vm.host_id] names a host of the list, and every host of that id is ON. *)
Definition placed_on (hosts : list Host) (vm : VM) : Prop :=
  (exists h, In h hosts /\ h_id h = host_id vm) /\
  (forall h, In h hosts -> h_id h = host_id vm -> status h = ON).

(** What holds of the state between cycles of a run started from [cfg]. *)
Definition state_wf {Rng : Type} (cfg : Config) (st : SimState Rng) : Prop :=
  hosts_wf cfg (st_hosts st) /\
  vms_wf cfg (st_vms st) /\
  st_cfg st = set_target_util cfg (target_util (st_cfg st)).

(** [b] is [a] after steps 1 and 2 of a cycle: same id and host, one more
    sample in each history. *)
Definition observed (a b : VM) : Prop :=
  v_id b = v_id a /\ host_id b = host_id a /\
  length (cpu_use_hist b) = S (length (cpu_use_hist a)) /\
  length (mem_use_hist b) = S (length (mem_use_hist a)).

(** [b] is [a] after step 5 of a cycle: untouched, or reassigned to the
    destination of one of the moves. *)
Definition moved (moves : list Move) (a b : VM) : Prop :=
  exists hid, b = set_host_id hid a /\
              (hid = host_id a \/ In hid (map move_dst moves)).

(** ** Sample runs

    The two-host run, cycle by cycle, and the crowded runs. *)

Definition result_get {A : Type} (d : A) (r : result A) : A :=
  match r with
  | Ok a => a
  | Raise _ => d
  end.

Definition empty_state : SimState Z := mkState [] [] default_config 0 0 0 0%Z.

Definition two_host_state0 : SimState Z :=
  Eval vm_compute in
    result_get empty_state (init_state sample_seed sample_random two_host_config).

Definition two_host_planned : list VM * Z * PlanState :=
  Eval vm_compute in
    result_get ([], 0%Z, mkPlan [] [] [])
               (cycle_plan sample_random sin24_table 0 two_host_state0).

Definition two_host_vms : list VM := fst (fst two_host_planned).
Definition two_host_rng : Z := snd (fst two_host_planned).
Definition two_host_plan : PlanState := snd two_host_planned.

Definition two_host_state1 : SimState Z :=
  Eval vm_compute in
    result_get empty_state (cycle sample_random sin24_table 0 two_host_state0).

Definition two_host_state2 : SimState Z :=
  Eval vm_compute in
    result_get empty_state (cycle sample_random sin24_table 1 two_host_state1).

Definition crowded_state0 : SimState Z :=
  Eval vm_compute in
    result_get empty_state (init_state sample_seed sample_random crowded_default_config).

Definition crowded_state1 : SimState Z :=
  Eval vm_compute in
    result_get empty_state (cycle sample_random sin24_table 0 crowded_state0).

Definition two_host_plan0 : PlanState :=
  Eval vm_compute in
    result_get (mkPlan [] [] [])
               (plan_init (active_hosts (st_hosts two_host_state0)) two_host_vms).

Definition two_host_candidate : VM :=
  Eval vm_compute in
    hd (new_vm 0 0 0 0) (candidates (st_cfg two_host_state0) two_host_vms).

Definition empty_summary : Summary := mkSummary 0 0 0 0 0 0 0.

Definition two_host_result : Summary * Config * Z :=
  Eval vm_compute in
    result_get (empty_summary, default_config, 0%Z)
               (simulate sample_seed sample_random sin24_table two_host_config 0%Z).

Definition crowded_result : Summary * Config * Z :=
  Eval vm_compute in
    result_get (empty_summary, default_config, 0%Z)
               (simulate sample_seed sample_random sin24_table crowded_default_config 0%Z).


Definition crowded_low_state0 : SimState Z :=
  Eval vm_compute in
    result_get empty_state (init_state sample_seed sample_random crowded_config).

Definition crowded_low_state1 : SimState Z :=
  Eval vm_compute in
    result_get empty_state (cycle sample_random sin24_table 0 crowded_low_state0).

(** A value equal to its own rounding to [n] decimal places. *)
Definition rounded_to (n : nat) (x : Q) : Prop := (py_round x n == x)%Q.

(** A host with room for the VM under the target, on the given tallies:
    the test of [first_fit]. *)
Definition fits (vm : VM) (cpu mem : dict Q) (tu : Q) (h : Host) : Prop :=
  exists c m,
    dict_get (h_id h) cpu = Some c /\ dict_get (h_id h) mem = Some m /\
    (c + pred_cpu vm <= cpu_cap h * tu)%Q /\ (m + pred_mem vm <= mem_cap h * tu)%Q.

(** [lo <= x <= hi]. *)
Definition between (lo hi x : Q) : Prop := (lo <= x)%Q /\ (x <= hi)%Q.

(** A list index Python accepts for a list of the given length. *)
Definition index_ok (len : nat) (i : Z) : Prop :=
  (- Z.of_nat len <= i < Z.of_nat len)%Z.

Definition move_id (mv : Move) : Z := fst (fst mv).

(** The move planned for a VM, if any, and the VM once the plan is
    applied. *)
Definition planned_for (moves : list Move) (vm : VM) : option Move :=
  find (fun mv => (move_id mv =? v_id vm)%Z) moves.

Definition after_moves (moves : list Move) (vm : VM) : VM :=
  match planned_for moves vm with
  | Some mv => set_host_id (move_dst mv) vm
  | None => vm
  end.

(** [b] is [a] with one more observation in each history, both in
    [[0, 100]]. *)
Definition one_more_sample (a b : VM) : Prop :=
  v_id b = v_id a /\
  exists c m : Q,
    cpu_use_hist b = cpu_use_hist a ++ [c] /\
    mem_use_hist b = mem_use_hist a ++ [m] /\
    between 0 100 c /\ between 0 100 m.

(** Every observation in both histories of a VM is a percentage. *)
Definition vm_in_range (vm : VM) : Prop :=
  Forall (between 0 100) (cpu_use_hist vm) /\
  Forall (between 0 100) (mem_use_hist vm).

(** The energy figure as specified: the idle power of every OFF host and
    nothing for an ON host, added up from zero in host order. *)
Definition off_power_total (hosts : list Host) : Q :=
  fold_left (fun acc h => (acc + off_power h)%Q) hosts 0%Q.

(** [b] is the VM [v] as the planner reads it in a cycle run with [a]: the
    same VM on the same host, with one new observation [c], [m] at the end
    of each history, and both predictions computed from that observation
    (the latest sample) and the last sample [v] held before (the previous
    one). *)
Definition predicted (a : Q) (v b : VM) : Prop :=
  v_id b = v_id v /\ host_id b = host_id v /\
  exists c m c2 m2 : Q,
    cpu_use_hist b = cpu_use_hist v ++ [c] /\
    mem_use_hist b = mem_use_hist v ++ [m] /\
    index_m1 (cpu_use_hist v) = Ok c2 /\
    index_m1 (mem_use_hist v) = Ok m2 /\
    pred_cpu b = (a * c + (1 - a) * c2)%Q /\
    pred_mem b = (a * m + (1 - a) * m2)%Q.

(** The capacities [any_high_watermark] looks a key up in. *)
Definition watermark_caps (on : list Host) : dict Q :=
  dict_from (map (fun h => (h_id h, cpu_cap h)) (filter is_on on)).

(** A host of capacity zero beside a fresh one, and loads for both. *)
Definition zero_cap_hosts : list Host := [mkHost 0 0 100 ON 120 300; new_host 1].
Definition zero_cap_loads : dict Q := [(0%Z, 1000%Q); (1%Z, 10%Q)].

(** A VM with three observations in each history. *)
Definition sample_vm : VM := mkVM 0 0 [10; 20; 40] [8; 16; 32] 0 0.

(** A run of no cycle and a run without VMs. *)
Definition no_cycle_config : Config := mkConfig 0.6 30.0 0.80 0.90 1.0 0 2 2 7.
Definition no_vm_config : Config := mkConfig 0.6 30.0 0.80 0.90 1.0 2 3 0 7.

Definition no_cycle_result : Summary * Config * Z :=
  Eval vm_compute in
    result_get (empty_summary, default_config, 0%Z)
               (simulate sample_seed sample_random sin24_table no_cycle_config 0%Z).

Definition no_vm_result : Summary * Config * Z :=
  Eval vm_compute in
    result_get (empty_summary, default_config, 0%Z)
               (simulate sample_seed sample_random sin24_table no_vm_config 0%Z).

(** * Properties *)

Unset Implicit Arguments.

(** ** The error monad and its loops *)

Lemma bind_Ok : forall (A B : Type) (c : result A) (k : A -> result B) (b : B),
  bind c k = Ok b -> exists a, c = Ok a /\ k a = Ok b.
Proof.
  intros A B c k b H. destruct c as [a|e]; simpl in H.
  - exists a. split; [reflexivity | exact H].
  - discriminate H.
Qed.

(** Splits a hypothesis [bind c k = Ok b] into its two halves. *)
Ltac bind_inv H :=
  let a := fresh "a" in
  let Ha := fresh "Hbind" in
  apply bind_Ok in H; destruct H as [a [Ha H]].

Lemma foldM_app : forall (A B : Type) (f : B -> A -> result B) (xs ys : list A) (acc : B),
  foldM f (xs ++ ys) acc = bind (foldM f xs acc) (foldM f ys).
Proof.
  intros A B f xs. induction xs as [|x xs IH]; intros ys acc; simpl.
  - reflexivity.
  - destruct (f acc x) as [acc'|e]; simpl; [apply IH | reflexivity].
Qed.

(** A loop invariant for [foldM]. *)
Lemma foldM_invariant : forall (A B : Type) (f : B -> A -> result B) (P : B -> Prop),
  (forall acc x acc', P acc -> f acc x = Ok acc' -> P acc') ->
  forall xs acc r, P acc -> foldM f xs acc = Ok r -> P r.
Proof.
  intros A B f P Hstep xs. induction xs as [|x xs IH]; intros acc r HP H; simpl in H.
  - inversion H; subst. exact HP.
  - bind_inv H. eapply IH; [ eapply Hstep; eassumption | exact H ].
Qed.

(** The same with the invariant allowed to depend on the elements still to
    be visited being members of the list. *)
Lemma foldM_invariant_in : forall (A B : Type) (f : B -> A -> result B) (P : B -> Prop)
  (xs : list A),
  (forall acc x acc', In x xs -> P acc -> f acc x = Ok acc' -> P acc') ->
  forall acc r, P acc -> foldM f xs acc = Ok r -> P r.
Proof.
  intros A B f P xs. induction xs as [|x xs IH]; intros Hstep acc r HP H; simpl in H.
  - inversion H; subst. exact HP.
  - bind_inv H. eapply IH.
    + intros acc0 y acc1 Hy. apply Hstep. right. exact Hy.
    + eapply Hstep; [left; reflexivity | exact HP | exact Hbind].
    + exact H.
Qed.

Lemma mapM_length : forall (A B : Type) (f : A -> result B) (xs : list A) (ys : list B),
  mapM f xs = Ok ys -> length ys = length xs.
Proof.
  intros A B f xs. induction xs as [|x xs IH]; intros ys H; simpl in H.
  - inversion H. reflexivity.
  - bind_inv H. bind_inv H. inversion H; subst. simpl. f_equal. apply IH. assumption.
Qed.

Lemma mapM_nth_error : forall (A B : Type) (f : A -> result B) (xs : list A) (ys : list B),
  mapM f xs = Ok ys ->
  forall i x, nth_error xs i = Some x ->
  exists y, nth_error ys i = Some y /\ f x = Ok y.
Proof.
  intros A B f xs. induction xs as [|x xs IH]; intros ys H i x0 Hi; simpl in H.
  - destruct i; discriminate Hi.
  - bind_inv H. bind_inv H. inversion H; subst. destruct i as [|i]; simpl in *.
    + inversion Hi; subst. exists a. split; [reflexivity | assumption].
    + eapply IH; eassumption.
Qed.

Lemma mapM_In : forall (A B : Type) (f : A -> result B) (xs : list A) (ys : list B),
  mapM f xs = Ok ys ->
  forall y, In y ys -> exists x, In x xs /\ f x = Ok y.
Proof.
  intros A B f xs. induction xs as [|x xs IH]; intros ys H y Hy; simpl in H.
  - inversion H; subst. destruct Hy.
  - bind_inv H. bind_inv H. inversion H; subst. destruct Hy as [Hy|Hy].
    + subst. exists x. split; [left; reflexivity | assumption].
    + destruct (IH _ Hbind0 _ Hy) as [x' [Hx' Hf]]. exists x'. split; [right|]; assumption.
Qed.

Lemma mapM_Forall2 : forall (A B : Type) (f : A -> result B) (xs : list A) (ys : list B),
  mapM f xs = Ok ys -> Forall2 (fun x y => f x = Ok y) xs ys.
Proof.
  intros A B f xs. induction xs as [|x xs IH]; intros ys H; simpl in H.
  - inversion H. constructor.
  - bind_inv H. bind_inv H. inversion H; subst. constructor; [assumption | apply IH; assumption].
Qed.

Lemma Forall2_In_r : forall (A B : Type) (R : A -> B -> Prop) (xs : list A) (ys : list B),
  Forall2 R xs ys -> forall y, In y ys -> exists x, In x xs /\ R x y.
Proof.
  intros A B R xs ys H. induction H as [|x y xs ys Hxy H IH]; intros y0 Hy.
  - destruct Hy.
  - destruct Hy as [<-|Hy].
    + exists x. split; [left; reflexivity | exact Hxy].
    + destruct (IH y0 Hy) as [x0 [Hx0 HR]]. exists x0. split; [right|]; assumption.
Qed.

Lemma Forall2_map_eq : forall (A B C : Type) (R : A -> B -> Prop) (f : A -> C) (g : B -> C)
  (xs : list A) (ys : list B),
  (forall x y, R x y -> g y = f x) -> Forall2 R xs ys -> map g ys = map f xs.
Proof.
  intros A B C R f g xs ys HR H. induction H as [|x y xs ys Hxy H IH]; simpl.
  - reflexivity.
  - rewrite (HR x y Hxy), IH. reflexivity.
Qed.

Lemma Forall2_trans : forall (A B C : Type) (R : A -> B -> Prop) (S : B -> C -> Prop)
  (T : A -> C -> Prop) (xs : list A) (ys : list B) (zs : list C),
  (forall x y z, R x y -> S y z -> T x z) ->
  Forall2 R xs ys -> Forall2 S ys zs -> Forall2 T xs zs.
Proof.
  intros A B C R S T xs ys zs HT H. revert zs.
  induction H as [|x y xs ys Hxy H IH]; intros zs H2; inversion H2; subst.
  - constructor.
  - constructor; [eapply HT; eassumption | apply IH; assumption].
Qed.

Lemma Forall2_list_update : forall (A B : Type) (R : A -> B -> Prop) (f : B -> B)
  (xs : list A) (ys : list B) (n : nat),
  (forall x y, R x y -> R x (f y)) ->
  Forall2 R xs ys -> Forall2 R xs (list_update n f ys).
Proof.
  intros A B R f xs ys n Hf H. revert n.
  induction H as [|x y xs ys Hxy H IH]; intro n.
  - destruct n; constructor.
  - destruct n as [|n]; simpl; constructor; auto.
Qed.

Lemma Forall2_refl_on : forall (A : Type) (R : A -> A -> Prop) (xs : list A),
  (forall x, R x x) -> Forall2 R xs xs.
Proof.
  intros A R xs HR. induction xs; constructor; auto.
Qed.

Lemma Forall2_length_eq : forall (A B : Type) (R : A -> B -> Prop) (xs : list A) (ys : list B),
  Forall2 R xs ys -> length ys = length xs.
Proof.
  intros A B R xs ys H. induction H; simpl; [reflexivity | f_equal; assumption].
Qed.

(** ** Comparisons *)

Lemma Qlt_bool_iff : forall a b : Q, Qlt_bool a b = true <-> (a < b)%Q.
Proof.
  intros a b. unfold Qlt_bool. rewrite negb_true_iff. split; intro H.
  - apply Qnot_le_lt. intro Hle. apply Qle_bool_iff in Hle. congruence.
  - destruct (Qle_bool b a) eqn:E; [|reflexivity].
    apply Qle_bool_iff in E. exfalso. apply (Qlt_not_le _ _ H). exact E.
Qed.

Lemma Qlt_bool_false_iff : forall a b : Q, Qlt_bool a b = false <-> (b <= a)%Q.
Proof.
  intros a b. unfold Qlt_bool. rewrite negb_false_iff. apply Qle_bool_iff.
Qed.

(** ** Dicts *)

Lemma dict_get_set_same : forall (V : Type) (k : Z) (v : V) (d : dict V),
  dict_get k (dict_set k v d) = Some v.
Proof.
  intros V k v d. induction d as [|[k' v'] d IH]; simpl.
  - rewrite Z.eqb_refl. reflexivity.
  - destruct (k' =? k)%Z eqn:E; simpl; rewrite E; [reflexivity | exact IH].
Qed.

Lemma dict_get_set_other : forall (V : Type) (k k' : Z) (v : V) (d : dict V),
  k <> k' -> dict_get k' (dict_set k v d) = dict_get k' d.
Proof.
  intros V k k' v d Hne. induction d as [|[k0 v0] d IH]; simpl.
  - destruct (k =? k')%Z eqn:E; [apply Z.eqb_eq in E; contradiction | reflexivity].
  - destruct (k0 =? k)%Z eqn:E; simpl.
    + apply Z.eqb_eq in E. subst k0.
      destruct (k =? k')%Z eqn:E'; [apply Z.eqb_eq in E'; contradiction | reflexivity].
    + destruct (k0 =? k')%Z; [reflexivity | exact IH].
Qed.

Lemma dict_lookup_Ok : forall (V : Type) (k : Z) (d : dict V) (v : V),
  dict_lookup k d = Ok v <-> dict_get k d = Some v.
Proof.
  intros V k d v. unfold dict_lookup. destruct (dict_get k d); split; intro H;
    inversion H; reflexivity.
Qed.

Lemma dict_add_Ok : forall (k : Z) (x : Q) (d d' : dict Q),
  dict_add k x d = Ok d' ->
  exists v, dict_get k d = Some v /\ d' = dict_set k (v + x)%Q d.
Proof.
  intros k x d d' H. unfold dict_add in H. bind_inv H.
  apply dict_lookup_Ok in Hbind. inversion H; subst. exists a. split; [assumption | reflexivity].
Qed.

(** ** The planner *)

Lemma first_fit_Some : forall (vm : VM) (on : list Host) (cpu mem : dict Q) (tu : Q) (d : Host),
  first_fit vm on cpu mem tu = Ok (Some d) ->
  In d on /\
  exists c m, dict_get (h_id d) cpu = Some c /\ dict_get (h_id d) mem = Some m /\
    (c + pred_cpu vm <= cpu_cap d * tu)%Q /\ (m + pred_mem vm <= mem_cap d * tu)%Q.
Proof.
  intros vm on cpu mem tu d. induction on as [|h rest IH]; simpl; intro H.
  - discriminate H.
  - bind_inv H. apply dict_lookup_Ok in Hbind.
    destruct (Qle_bool (a + pred_cpu vm) (cpu_cap h * tu)) eqn:Ec.
    + bind_inv H. apply dict_lookup_Ok in Hbind0.
      destruct (Qle_bool (a0 + pred_mem vm) (mem_cap h * tu)) eqn:Em.
      * inversion H; subst. split; [left; reflexivity|].
        exists a, a0. repeat split; try assumption; apply Qle_bool_iff; assumption.
      * destruct (IH H) as [Hin Hrest]. split; [right; exact Hin | exact Hrest].
    + destruct (IH H) as [Hin Hrest]. split; [right; exact Hin | exact Hrest].
Qed.

(** The two outcomes of the loop body: the candidate is skipped, or a move
    to a fitting host other than its own is appended and that host's tallies
    grow by the candidate's predictions. *)
Lemma plan_step_cases : forall (on : list Host) (tu : Q) (ps ps' : PlanState) (vm : VM),
  plan_step on tu ps vm = Ok ps' ->
  ps' = ps \/
  exists d c m,
    In d on /\ h_id d <> host_id vm /\
    dict_get (h_id d) (cpu_loads ps) = Some c /\
    dict_get (h_id d) (mem_loads ps) = Some m /\
    (c + pred_cpu vm <= cpu_cap d * tu)%Q /\
    (m + pred_mem vm <= mem_cap d * tu)%Q /\
    ps' = mkPlan (plan ps ++ [(v_id vm, host_id vm, h_id d)])
                 (dict_set (h_id d) (c + pred_cpu vm)%Q (cpu_loads ps))
                 (dict_set (h_id d) (m + pred_mem vm)%Q (mem_loads ps)).
Proof.
  intros on tu ps ps' vm H. unfold plan_step in H. bind_inv H.
  destruct a as [d|]; [|left; inversion H; reflexivity].
  destruct (h_id d =? host_id vm)%Z eqn:E; simpl in H; [left; inversion H; reflexivity|].
  right. apply Z.eqb_neq in E.
  destruct (first_fit_Some _ _ _ _ _ _ Hbind) as [Hin [c [m [Hc [Hm [Hlc Hlm]]]]]].
  bind_inv H. bind_inv H.
  apply dict_add_Ok in Hbind0. destruct Hbind0 as [c' [Hc' ->]].
  apply dict_add_Ok in Hbind1. destruct Hbind1 as [m' [Hm' ->]].
  rewrite Hc in Hc'. inversion Hc'; subst c'.
  rewrite Hm in Hm'. inversion Hm'; subst m'.
  inversion H; subst.
  exists d, c, m. repeat split; assumption.
Qed.

Lemma In_insert_desc : forall (A : Type) (key : A -> Q) (x y : A) (xs : list A),
  In x (insert_desc key y xs) <-> x = y \/ In x xs.
Proof.
  intros A key x y xs. induction xs as [|z xs IH]; simpl.
  - intuition.
  - destruct (Qlt_bool (key y) (key z)); simpl; rewrite ?IH; intuition.
Qed.

Lemma In_sorted_desc : forall (A : Type) (key : A -> Q) (x : A) (xs : list A),
  In x (sorted_desc key xs) <-> In x xs.
Proof.
  intros A key x xs. induction xs as [|y xs IH]; simpl.
  - reflexivity.
  - rewrite In_insert_desc, IH. intuition.
Qed.

Lemma In_candidates : forall (cfg : Config) (vms : list VM) (vm : VM),
  In vm (candidates cfg vms) ->
  In vm vms /\ (pred_cpu vm <= low_usage_threshold cfg)%Q.
Proof.
  intros cfg vms vm H. unfold candidates in H.
  apply In_sorted_desc in H. apply filter_In in H. destruct H as [Hin Hle].
  split; [exact Hin | apply Qle_bool_iff; exact Hle].
Qed.

Lemma plan_loop_moves_ok : forall (on : list Host) (tu : Q) (vms cands : list VM)
  (ps ps' : PlanState),
  (forall vm, In vm cands -> In vm vms) ->
  (forall mv, In mv (plan ps) -> move_ok on vms mv) ->
  foldM (plan_step on tu) cands ps = Ok ps' ->
  forall mv, In mv (plan ps') -> move_ok on vms mv.
Proof.
  intros on tu vms cands ps ps' Hsub Hps H.
  revert ps ps' Hps H.
  apply (foldM_invariant_in _ _ (plan_step on tu)
           (fun s => forall mv, In mv (plan s) -> move_ok on vms mv)).
  intros acc vm acc' Hvm Hacc Hstep mv Hmv.
  destruct (plan_step_cases _ _ _ _ _ Hstep) as [->|[d [c [m [Hd [Hne [_ [_ [_ [_ ->]]]]]]]]]].
  - apply Hacc. exact Hmv.
  - simpl in Hmv. apply in_app_or in Hmv. destruct Hmv as [Hmv|[<-|[]]].
    + apply Hacc. exact Hmv.
    + unfold move_ok, move_dst, move_src. simpl. split; [exact Hne|]. split.
      * exists vm. split; [apply Hsub; exact Hvm | split; reflexivity].
      * exists d. split; [exact Hd | reflexivity].
Qed.

Lemma plan_moves_ok : forall (cfg : Config) (on : list Host) (vms : list VM) (ps : PlanState),
  plan_moves cfg on vms = Ok ps ->
  forall mv, In mv (plan ps) -> move_ok on vms mv.
Proof.
  intros cfg on vms ps H. unfold plan_moves in H. bind_inv H.
  unfold plan_init in Hbind. bind_inv Hbind. destruct a0 as [cpu mem]. inversion Hbind; subst a.
  eapply plan_loop_moves_ok; [| |exact H].
  - intros vm Hvm. apply (In_candidates _ _ _ Hvm).
  - simpl. intros mv [].
Qed.

(** ** Dict comprehensions and the shutdown step *)

Lemma dict_get_set : forall (V : Type) (k k' : Z) (v : V) (d : dict V),
  dict_get k' (dict_set k v d) = if (k =? k')%Z then Some v else dict_get k' d.
Proof.
  intros V k k' v d. destruct (k =? k')%Z eqn:E.
  - apply Z.eqb_eq in E. subst. apply dict_get_set_same.
  - apply Z.eqb_neq in E. apply dict_get_set_other. exact E.
Qed.

Lemma dict_get_fold_set : forall (V : Type) (k : Z) (kvs : list (Z * V)) (d : dict V),
  dict_get k (fold_left (fun d kv => dict_set (fst kv) (snd kv) d) kvs d) =
  match assoc_last k kvs with
  | Some v => Some v
  | None => dict_get k d
  end.
Proof.
  intros V k kvs. induction kvs as [|[k' v] kvs IH]; intro d; simpl.
  - reflexivity.
  - rewrite IH. destruct (assoc_last k kvs); [reflexivity|].
    rewrite dict_get_set. destruct (k' =? k)%Z; reflexivity.
Qed.

Lemma dict_get_dict_from : forall (V : Type) (k : Z) (kvs : list (Z * V)),
  dict_get k (dict_from kvs) = assoc_last k kvs.
Proof.
  intros V k kvs. unfold dict_from. rewrite dict_get_fold_set.
  destruct (assoc_last k kvs); reflexivity.
Qed.

Lemma assoc_last_const : forall (A V : Type) (key : A -> Z) (v : V) (k : Z) (xs : list A),
  assoc_last k (map (fun x => (key x, v)) xs) =
  if existsb (fun x => (key x =? k)%Z) xs then Some v else None.
Proof.
  intros A V key v k xs. induction xs as [|x xs IH]; simpl.
  - reflexivity.
  - rewrite IH. destruct (existsb _ xs); [rewrite orb_true_r; reflexivity|].
    rewrite orb_false_r. reflexivity.
Qed.

Lemma assoc_last_Some : forall (A V : Type) (key : A -> Z) (val : A -> V) (k : Z)
  (xs : list A) (v : V),
  assoc_last k (map (fun x => (key x, val x)) xs) = Some v ->
  exists x, In x xs /\ key x = k /\ val x = v.
Proof.
  intros A V key val k xs v. induction xs as [|x xs IH]; simpl; intro H.
  - discriminate H.
  - destruct (assoc_last k (map (fun x => (key x, val x)) xs)) as [v'|].
    + inversion H; subst. destruct (IH eq_refl) as [y [Hy Hk]]. exists y. split; [right|]; assumption.
    + destruct (key x =? k)%Z eqn:E; [|discriminate H].
      inversion H; subst. apply Z.eqb_eq in E. exists x. split; [left; reflexivity | split; [exact E | reflexivity]].
Qed.

Lemma existsb_id_In : forall (k : Z) (hs : list Host),
  existsb (fun h => (h_id h =? k)%Z) hs = true <-> exists h, In h hs /\ h_id h = k.
Proof.
  intros k hs. rewrite existsb_exists. split; intros [h [Hin E]]; exists h; split;
    try assumption; apply Z.eqb_eq; exact E.
Qed.

Lemma has_vm_fold : forall (k : Z) (vms : list VM) (d : dict bool),
  dict_get k
    (fold_left
       (fun d vm => if dict_mem (host_id vm) d then dict_set (host_id vm) true d else d)
       vms d) =
  match dict_get k d with
  | Some b => Some (b || existsb (fun vm => (host_id vm =? k)%Z) vms)
  | None => None
  end.
Proof.
  intros k vms. induction vms as [|vm vms IH]; intro d; simpl.
  - destruct (dict_get k d); [rewrite orb_false_r|]; reflexivity.
  - rewrite IH. unfold dict_mem.
    destruct (dict_get (host_id vm) d) as [b0|] eqn:E0.
    + rewrite dict_get_set. destruct (host_id vm =? k)%Z eqn:E.
      * apply Z.eqb_eq in E. subst k. rewrite E0. simpl. rewrite orb_true_r. reflexivity.
      * simpl. reflexivity.
    + destruct (host_id vm =? k)%Z eqn:E.
      * apply Z.eqb_eq in E. subst k. rewrite E0. reflexivity.
      * simpl. reflexivity.
Qed.

Lemma has_vm_dict_get : forall (on : list Host) (vms : list VM) (k : Z),
  dict_get k (has_vm_dict on vms) =
  if existsb (fun h => (h_id h =? k)%Z) on
  then Some (existsb (fun vm => (host_id vm =? k)%Z) vms)
  else None.
Proof.
  intros on vms k. unfold has_vm_dict. rewrite has_vm_fold, dict_get_dict_from.
  rewrite (assoc_last_const Host bool h_id false k on).
  destruct (existsb _ on); reflexivity.
Qed.

Lemma shutdown_host_result : forall (hosts : list Host) (vms : list VM) (h : Host),
  In h hosts ->
  shutdown_host (has_vm_dict (active_hosts hosts) vms) h = Ok (shutdown_result vms h).
Proof.
  intros hosts vms h Hin. unfold shutdown_host, shutdown_result.
  destruct (is_on h) eqn:Eon; simpl; [|reflexivity].
  unfold dict_lookup. rewrite has_vm_dict_get.
  assert (Hex : existsb (fun h0 => (h_id h0 =? h_id h)%Z) (active_hosts hosts) = true).
  { apply existsb_id_In. exists h. split; [|reflexivity].
    unfold active_hosts. apply filter_In. split; assumption. }
  rewrite Hex. simpl. unfold host_occupied. reflexivity.
Qed.

Lemma mapM_pure : forall (A B : Type) (f : A -> result B) (g : A -> B) (xs : list A),
  (forall x, In x xs -> f x = Ok (g x)) -> mapM f xs = Ok (map g xs).
Proof.
  intros A B f g xs. induction xs as [|x xs IH]; intro H; simpl.
  - reflexivity.
  - rewrite (H x (or_introl eq_refl)). simpl. rewrite IH; [reflexivity|].
    intros y Hy. apply H. right. exact Hy.
Qed.

(** The shutdown step never raises, and acts host by host. *)
Lemma shutdown_map : forall (hosts : list Host) (vms : list VM),
  shutdown hosts vms = Ok (map (shutdown_result vms) hosts).
Proof.
  intros hosts vms. unfold shutdown. apply mapM_pure.
  intros h Hin. apply shutdown_host_result. exact Hin.
Qed.

Lemma host_occupied_false : forall (vms : list VM) (h : Host),
  host_occupied vms h = false <-> (forall vm, In vm vms -> host_id vm <> h_id h).
Proof.
  intros vms h. unfold host_occupied. split.
  - intros H vm Hin E.
    assert (Ht : existsb (fun vm0 => (host_id vm0 =? h_id h)%Z) vms = true).
    { apply existsb_exists. exists vm. split; [exact Hin | apply Z.eqb_eq; exact E]. }
    congruence.
  - intro H. destruct (existsb _ vms) eqn:E; [|reflexivity].
    apply existsb_exists in E. destruct E as [vm [Hin E]]. apply Z.eqb_eq in E.
    exfalso. exact (H vm Hin E).
Qed.

Lemma set_status_same : forall h : Host, set_status h (status h) = h.
Proof. intros [i c m s pi pp]. reflexivity. Qed.

Lemma shutdown_result_status : forall (vms : list VM) (h : Host),
  shutdown_result vms h = set_status h (status (shutdown_result vms h)) /\
  (status h = OFF -> status (shutdown_result vms h) = OFF) /\
  (status h = ON ->
     (status (shutdown_result vms h) = OFF <->
      forall vm, In vm vms -> host_id vm <> h_id h)).
Proof.
  intros vms h. unfold shutdown_result, is_on.
  destruct (status h) eqn:Es; simpl.
  - destruct (host_occupied vms h) eqn:E; simpl.
    + rewrite Es, <- Es, set_status_same. split; [reflexivity|].
      rewrite Es. split; [intro H; discriminate H|].
      intros _. split; [intro H; discriminate H|].
      intro H. pose proof (proj2 (host_occupied_false vms h) H). congruence.
    + split; [reflexivity|]. split; [reflexivity|].
      intros _. split; [|reflexivity]. intros _. exact (proj1 (host_occupied_false vms h) E).
  - rewrite Es, <- Es, set_status_same. rewrite Es.
    split; [reflexivity|]. split; [reflexivity|]. intro H; discriminate H.
Qed.

Lemma assoc_last_None : forall (A V : Type) (key : A -> Z) (val : A -> V) (k : Z)
  (xs : list A),
  assoc_last k (map (fun x => (key x, val x)) xs) = None ->
  forall x, In x xs -> key x <> k.
Proof.
  intros A V key val k xs. induction xs as [|x xs IH]; simpl; intros H y Hy.
  - destruct Hy.
  - destruct (assoc_last k (map (fun x => (key x, val x)) xs)); [discriminate H|].
    destruct (key x =? k)%Z eqn:E; [discriminate H|]. apply Z.eqb_neq in E.
    destruct Hy as [<-|Hy]; [exact E | apply IH; [reflexivity | exact Hy]].
Qed.

Lemma NoDup_map_eq : forall (A B : Type) (f : A -> B) (xs : list A) (x y : A),
  NoDup (map f xs) -> In x xs -> In y xs -> f x = f y -> x = y.
Proof.
  intros A B f xs x y. induction xs as [|z xs IH]; simpl; intros Hnd Hx Hy E.
  - destruct Hx.
  - inversion Hnd as [|? ? Hnotin Hnd']; subst.
    destruct Hx as [<-|Hx]; destruct Hy as [<-|Hy]; auto.
    + exfalso. apply Hnotin. rewrite E. apply in_map. exact Hy.
    + exfalso. apply Hnotin. rewrite <- E. apply in_map. exact Hx.
Qed.

(** ** Keys of a dict and the load tallies *)

Lemma dict_get_In : forall (V : Type) (k : Z) (v : V) (d : dict V),
  dict_get k d = Some v -> In (k, v) d.
Proof.
  intros V k v d. induction d as [|[k' v'] d IH]; simpl; intro H.
  - discriminate H.
  - destruct (k' =? k)%Z eqn:E.
    + apply Z.eqb_eq in E. inversion H; subst. left. reflexivity.
    + right. apply IH. exact H.
Qed.

Lemma dict_get_None : forall (V : Type) (k : Z) (d : dict V),
  dict_get k d = None <-> ~ In k (dict_keys d).
Proof.
  intros V k d. induction d as [|[k' v'] d IH]; simpl.
  - intuition.
  - destruct (k' =? k)%Z eqn:E.
    + apply Z.eqb_eq in E. split; [intro H; discriminate H | intro H; exfalso; apply H; left; exact E].
    + apply Z.eqb_neq in E. rewrite IH. intuition.
Qed.

Lemma In_dict_get : forall (V : Type) (k : Z) (v : V) (d : dict V),
  NoDup (dict_keys d) -> In (k, v) d -> dict_get k d = Some v.
Proof.
  intros V k v d. induction d as [|[k' v'] d IH]; simpl; intros Hnd Hin.
  - destruct Hin.
  - inversion Hnd as [|? ? Hnotin Hnd']; subst.
    destruct Hin as [Heq|Hin].
    + inversion Heq; subst. rewrite Z.eqb_refl. reflexivity.
    + destruct (k' =? k)%Z eqn:E.
      * apply Z.eqb_eq in E. subst k'. exfalso. apply Hnotin.
        unfold dict_keys. change k with (fst (k, v)). apply in_map. exact Hin.
      * apply IH; assumption.
Qed.

Lemma dict_keys_set : forall (V : Type) (k : Z) (v : V) (d : dict V),
  dict_keys (dict_set k v d) =
  if dict_mem k d then dict_keys d else dict_keys d ++ [k].
Proof.
  intros V k v d. unfold dict_mem. induction d as [|[k' v'] d IH]; simpl.
  - reflexivity.
  - destruct (k' =? k)%Z eqn:E; simpl.
    + reflexivity.
    + rewrite IH. destruct (dict_get k d); reflexivity.
Qed.

Lemma dict_mem_true : forall (V : Type) (k : Z) (d : dict V),
  dict_mem k d = true <-> In k (dict_keys d).
Proof.
  intros V k d. unfold dict_mem. destruct (dict_get k d) eqn:E.
  - split; [|reflexivity]. intros _.
    apply dict_get_In in E. unfold dict_keys. change k with (fst (k, v)). apply in_map. exact E.
  - apply dict_get_None in E. split; [intro H; discriminate H | intro H; contradiction].
Qed.

Lemma dict_set_NoDup : forall (V : Type) (k : Z) (v : V) (d : dict V),
  NoDup (dict_keys d) -> NoDup (dict_keys (dict_set k v d)).
Proof.
  intros V k v d Hnd. rewrite dict_keys_set. destruct (dict_mem k d) eqn:E; [exact Hnd|].
  assert (Hnotin : ~ In k (dict_keys d)).
  { intro Hin. apply dict_mem_true in Hin. congruence. }
  clear E. induction (dict_keys d) as [|x xs IH]; simpl.
  - constructor; [intros [] | constructor].
  - inversion Hnd; subst. constructor.
    + rewrite in_app_iff. intros [Hx|[Hx|[]]]; [contradiction|].
      apply Hnotin. left. symmetry. exact Hx.
    + apply IH; [assumption|]. intro Hin. apply Hnotin. right. exact Hin.
Qed.

Lemma dict_from_NoDup : forall (V : Type) (kvs : list (Z * V)),
  NoDup (dict_keys (dict_from kvs)).
Proof.
  intros V kvs. unfold dict_from.
  assert (H : forall d : dict V, NoDup (dict_keys d) ->
            NoDup (dict_keys (fold_left (fun d kv => dict_set (fst kv) (snd kv) d) kvs d))).
  { induction kvs as [|kv kvs IH]; intros d Hd; simpl; [exact Hd|].
    apply IH. apply dict_set_NoDup. exact Hd. }
  apply H. constructor.
Qed.

Lemma tally_cons : forall (f : VM -> Q) (k : Z) (vm : VM) (vms : list VM) (o : option Q),
  option_map (tally f k (vm :: vms)) o =
  option_map (tally f k vms)
    (if (host_id vm =? k)%Z then option_map (fun v => (v + f vm)%Q) o else o).
Proof.
  intros f k vm vms o. unfold tally. simpl.
  destruct (host_id vm =? k)%Z; destruct o; reflexivity.
Qed.

(** The loop of [loads_predicted] never raises when both dicts have the same
    keys; it keeps the keys and tallies the predictions per key. *)
Lemma loads_fold : forall (vms : list VM) (cpu mem : dict Q),
  (forall k, dict_mem k mem = dict_mem k cpu) ->
  exists cpu' mem',
    foldM loads_step vms (cpu, mem) = Ok (cpu', mem') /\
    dict_keys cpu' = dict_keys cpu /\
    dict_keys mem' = dict_keys mem /\
    (forall k, dict_get k cpu' = option_map (tally pred_cpu k vms) (dict_get k cpu)) /\
    (forall k, dict_get k mem' = option_map (tally pred_mem k vms) (dict_get k mem)).
Proof.
  intros vms. induction vms as [|vm vms IH]; intros cpu mem Hkeys.
  - exists cpu, mem. simpl. split; [reflexivity|]. split; [reflexivity|]. split; [reflexivity|].
    split; intro k; unfold tally; simpl.
    + destruct (dict_get k cpu); reflexivity.
    + destruct (dict_get k mem); reflexivity.
  - pose proof (Hkeys (host_id vm)) as Hk. unfold dict_mem in Hk.
    change (foldM loads_step (vm :: vms) (cpu, mem))
      with (bind (loads_step (cpu, mem) vm) (foldM loads_step vms)).
    unfold loads_step at 1. unfold dict_mem at 1.
    destruct (dict_get (host_id vm) cpu) as [c|] eqn:Ec.
    + destruct (dict_get (host_id vm) mem) as [m|] eqn:Em; [|discriminate Hk].
      unfold dict_add, dict_lookup. rewrite Ec, Em. cbn [bind].
      destruct (IH (dict_set (host_id vm) (c + pred_cpu vm)%Q cpu)
                   (dict_set (host_id vm) (m + pred_mem vm)%Q mem))
        as [cpu' [mem' [Hf [Hkc [Hkm [Hc Hm]]]]]].
      { intro k. unfold dict_mem. rewrite !dict_get_set.
        destruct (host_id vm =? k)%Z; [reflexivity | apply Hkeys]. }
      exists cpu', mem'. split; [exact Hf|].
      split; [rewrite Hkc, dict_keys_set; unfold dict_mem; rewrite Ec; reflexivity|].
      split; [rewrite Hkm, dict_keys_set; unfold dict_mem; rewrite Em; reflexivity|].
      split; intro k.
      * rewrite Hc, dict_get_set, tally_cons.
        destruct (host_id vm =? k)%Z eqn:E; [|reflexivity].
        apply Z.eqb_eq in E. subst k. rewrite Ec. reflexivity.
      * rewrite Hm, dict_get_set, tally_cons.
        destruct (host_id vm =? k)%Z eqn:E; [|reflexivity].
        apply Z.eqb_eq in E. subst k. rewrite Em. reflexivity.
    + destruct (IH cpu mem Hkeys) as [cpu' [mem' [Hf [Hkc [Hkm [Hc Hm]]]]]].
      exists cpu', mem'. split; [exact Hf|]. split; [exact Hkc|]. split; [exact Hkm|].
      split; intro k.
      * rewrite Hc, tally_cons. destruct (host_id vm =? k)%Z eqn:E; [|reflexivity].
        apply Z.eqb_eq in E. subst k. rewrite Ec. reflexivity.
      * rewrite Hm, tally_cons. destruct (host_id vm =? k)%Z eqn:E; [|reflexivity].
        apply Z.eqb_eq in E. subst k.
        destruct (dict_get (host_id vm) mem); [discriminate Hk | reflexivity].
Qed.

(** [loads_predicted] never raises: it returns two dicts keyed by the ids of
    the ON hosts, each holding the tally of the VMs assigned to its key. *)
Lemma loads_predicted_spec : forall (hosts : list Host) (vms : list VM),
  exists cpu mem,
    loads_predicted hosts vms = Ok (cpu, mem) /\
    NoDup (dict_keys cpu) /\ NoDup (dict_keys mem) /\
    (forall k, dict_get k cpu =
       if existsb (fun h => (h_id h =? k)%Z) (filter is_on hosts)
       then Some (tally pred_cpu k vms 0.0) else None) /\
    (forall k, dict_get k mem =
       if existsb (fun h => (h_id h =? k)%Z) (filter is_on hosts)
       then Some (tally pred_mem k vms 0.0) else None).
Proof.
  intros hosts vms. unfold loads_predicted.
  set (d0 := dict_from (map (fun h => (h_id h, 0.0%Q)) (filter is_on hosts))).
  destruct (loads_fold vms d0 d0 (fun k => eq_refl))
    as [cpu [mem [Hf [Hkc [Hkm [Hc Hm]]]]]].
  exists cpu, mem. split; [exact Hf|].
  split; [rewrite Hkc; apply dict_from_NoDup|].
  split; [rewrite Hkm; apply dict_from_NoDup|].
  assert (Hd0 : forall k, dict_get k d0 =
            if existsb (fun h => (h_id h =? k)%Z) (filter is_on hosts)
            then Some 0.0%Q else None).
  { intro k. unfold d0. rewrite dict_get_dict_from.
    apply (assoc_last_const Host Q h_id 0.0%Q k). }
  split; intro k.
  - rewrite Hc, Hd0. destruct (existsb _ (filter is_on hosts)); reflexivity.
  - rewrite Hm, Hd0. destruct (existsb _ (filter is_on hosts)); reflexivity.
Qed.

(** ** Sums and rounding *)

Lemma fold_left_Qplus_acc : forall (xs : list Q) (a : Q),
  (fold_left Qplus xs a == a + fold_left Qplus xs 0)%Q.
Proof.
  intros xs. induction xs as [|x xs IH]; intro a; simpl.
  - lra.
  - rewrite (IH (a + x)%Q), (IH (0 + x)%Q). lra.
Qed.

Lemma py_sum_cons : forall (x : Q) (xs : list Q), (py_sum (x :: xs) == x + py_sum xs)%Q.
Proof.
  intros x xs. unfold py_sum. simpl. rewrite fold_left_Qplus_acc. lra.
Qed.

Lemma round_half_even_near : forall x : Q,
  (inject_Z (round_half_even x) <= x + (1 # 2))%Q /\
  (x - (1 # 2) <= inject_Z (round_half_even x))%Q.
Proof.
  intro x. unfold round_half_even.
  pose proof (Qfloor_le x) as Hlo. pose proof (Qlt_floor x) as Hhi.
  rewrite inject_Z_plus in Hhi. change (inject_Z 1) with 1%Q in Hhi.
  destruct (Qlt_bool (x - inject_Z (Qfloor x)) (1 # 2)) eqn:E1.
  - apply Qlt_bool_iff in E1. split; lra.
  - apply Qlt_bool_false_iff in E1.
    destruct (Qlt_bool (1 # 2) (x - inject_Z (Qfloor x))) eqn:E2.
    + apply Qlt_bool_iff in E2. rewrite inject_Z_plus. change (inject_Z 1) with 1%Q. split; lra.
    + apply Qlt_bool_false_iff in E2.
      destruct (Z.even (Qfloor x)); [|rewrite inject_Z_plus; change (inject_Z 1) with 1%Q];
        split; lra.
Qed.

(** [round(x, 3)] is within half a thousandth of [x]. *)
Lemma py_round_3_near : forall x : Q,
  (py_round x 3 <= x + (1 # 2000))%Q /\ (x - (1 # 2000) <= py_round x 3)%Q.
Proof.
  intro x. unfold py_round. simpl Z.to_pos.
  destruct (round_half_even_near (x * inject_Z 1000)) as [Hhi Hlo].
  set (z := round_half_even (x * inject_Z 1000)) in *.
  assert (Hz : (z # 1000 == inject_Z z / 1000)%Q).
  { rewrite Qmake_Qdiv. reflexivity. }
  change (inject_Z 1000) with 1000%Q in *.
  rewrite Hz. split.
  - apply Qle_shift_div_r; [reflexivity | lra].
  - apply Qle_shift_div_l; [reflexivity | lra].
Qed.

Lemma py_max_lower : forall a b : Q, (a <= py_max a b)%Q /\ (b <= py_max a b)%Q.
Proof.
  intros a b. unfold py_max. destruct (Qlt_bool a b) eqn:E.
  - apply Qlt_bool_iff in E. split; lra.
  - apply Qlt_bool_false_iff in E. split; lra.
Qed.

Lemma py_max_cases : forall a b : Q, py_max a b = a \/ py_max a b = b.
Proof. intros a b. unfold py_max. destruct (Qlt_bool a b); auto. Qed.

(** The controller's step from a target at or above the floor goes down, and
    stops at the floor. *)
Lemma relax_target_bounds : forall tu : Q,
  (0.70 <= relax_target tu)%Q /\ ((0.70 <= tu)%Q -> (relax_target tu <= tu)%Q).
Proof.
  intro tu. unfold relax_target. split.
  - apply py_max_lower.
  - intro Hfloor. destruct (py_round_3_near (tu - 0.02)) as [Hhi _].
    destruct (py_max_cases 0.70 (py_round (tu - 0.02) 3)) as [-> | ->]; lra.
Qed.

(** ** The cycle *)

Section CycleProperties.

Variable Rng : Type.
Variable rng_seed : Z -> Rng.
Variable rng_random : Rng -> Q * Rng.
Variable sin24 : Z -> Q.


Lemma cycle_plan_Ok : forall (t : Z) (st : SimState Rng) (vms : list VM) (g : Rng)
  (ps : PlanState),
  cycle_plan rng_random sin24 t st = Ok (vms, g, ps) ->
  observe_predict rng_random sin24 t st = Ok (vms, g) /\
  plan_moves (st_cfg st) (active_hosts (st_hosts st)) vms = Ok ps.
Proof.
  intros t st vms g ps H. unfold cycle_plan in H. bind_inv H.
  destruct a as [vms0 g0]. bind_inv H. inversion H; subst. split; assumption.
Qed.

(** C8.  No planned move is a no-op: in the move list of every cycle, each
    tuple [(vm_id, src, dst)] has [dst <> src], where [src] is the current
    [host_id] of the VM with id [vm_id] among the VMs the planner read. *)
Theorem planner_emits_no_noop_move :
  forall (t : Z) (st : SimState Rng) (vms : list VM) (g : Rng) (ps : PlanState)
         (vm_id src dst : Z),
    cycle_plan rng_random sin24 t st = Ok (vms, g, ps) ->
    In (vm_id, src, dst) (plan ps) ->
    dst <> src /\
    exists vm, In vm vms /\ v_id vm = vm_id /\ host_id vm = src /\ dst <> host_id vm.
Proof.
  intros t st vms g ps vm_id src dst H Hin.
  apply cycle_plan_Ok in H. destruct H as [_ Hplan].
  destruct (plan_moves_ok _ _ _ _ Hplan _ Hin) as [Hne [[vm [Hvm [Hid Hsrc]]] _]].
  unfold move_dst, move_src in *. simpl in *.
  split; [exact Hne|]. exists vm. repeat split; try assumption. rewrite Hsrc. exact Hne.
Qed.

(** C4.  Within a cycle, take any candidate [vm] the planner accepts, reached
    after the candidates [before] it.  The planner started from the tallies
    [loads_predicted] gives for the ON hosts: for every ON host the sum, in
    VM order from [0.0], of the predicted CPU loads, and of the predicted
    memory loads, of the VMs assigned to its id, and no tally for any other
    id.  The move goes to an ON host [d], and immediately after acceptance
    the tallies of [d] are the previous tallies plus the VM's predictions and
    are at most [cpu_cap d * target_util] and [mem_cap d * target_util], for
    the [target_util] the cycle started with; the remaining candidates are
    planned from the updated tallies. *)
Theorem accepted_move_respects_target :
  forall (t : Z) (st : SimState Rng) (vms : list VM) (g : Rng)
         (ps0 ps ps' : PlanState) (before after : list VM) (vm : VM),
    observe_predict rng_random sin24 t st = Ok (vms, g) ->
    plan_init (active_hosts (st_hosts st)) vms = Ok ps0 ->
    candidates (st_cfg st) vms = before ++ vm :: after ->
    foldM (plan_step (active_hosts (st_hosts st)) (target_util (st_cfg st))) before ps0 = Ok ps ->
    plan_step (active_hosts (st_hosts st)) (target_util (st_cfg st)) ps vm = Ok ps' ->
    plan ps' <> plan ps ->
    loads_predicted (active_hosts (st_hosts st)) vms = Ok (cpu_loads ps0, mem_loads ps0) /\
    (forall h, In h (active_hosts (st_hosts st)) ->
       dict_get (h_id h) (cpu_loads ps0) = Some (tally pred_cpu (h_id h) vms 0.0) /\
       dict_get (h_id h) (mem_loads ps0) = Some (tally pred_mem (h_id h) vms 0.0)) /\
    (forall k, (forall h, In h (active_hosts (st_hosts st)) -> h_id h <> k) ->
       dict_get k (cpu_loads ps0) = None /\ dict_get k (mem_loads ps0) = None) /\
    plan ps0 = [] /\
    cycle_plan rng_random sin24 t st =
      bind (foldM (plan_step (active_hosts (st_hosts st)) (target_util (st_cfg st))) after ps')
           (fun psf => Ok (vms, g, psf)) /\
    exists (d : Host) (c m : Q),
      In d (active_hosts (st_hosts st)) /\
      plan ps' = plan ps ++ [(v_id vm, host_id vm, h_id d)] /\
      dict_get (h_id d) (cpu_loads ps) = Some c /\
      dict_get (h_id d) (mem_loads ps) = Some m /\
      dict_get (h_id d) (cpu_loads ps') = Some (c + pred_cpu vm)%Q /\
      dict_get (h_id d) (mem_loads ps') = Some (m + pred_mem vm)%Q /\
      (c + pred_cpu vm <= cpu_cap d * target_util (st_cfg st))%Q /\
      (m + pred_mem vm <= mem_cap d * target_util (st_cfg st))%Q.
Proof.
  intros t st vms g ps0 ps ps' before after vm Hobs Hinit Hcands Hpre Hstep Hacc.
  assert (Hseed : loads_predicted (active_hosts (st_hosts st)) vms
                  = Ok (cpu_loads ps0, mem_loads ps0)).
  { unfold plan_init in Hinit. bind_inv Hinit. destruct a as [cpu mem].
    inversion Hinit; subst. simpl. exact Hbind. }
  destruct (loads_predicted_spec (active_hosts (st_hosts st)) vms)
    as [cpu1 [mem1 [Hl [_ [_ [Hcpu Hmem]]]]]].
  rewrite Hseed in Hl. inversion Hl; subst cpu1 mem1. clear Hl.
  split; [exact Hseed|]. split; [|split; [|split; [|split]]].
  - intros h Hh. rewrite Hcpu, Hmem.
    assert (Hex : existsb (fun h0 => (h_id h0 =? h_id h)%Z)
                    (filter is_on (active_hosts (st_hosts st))) = true).
    { apply existsb_id_In. exists h. split; [|reflexivity].
      apply filter_In. split; [exact Hh|].
      unfold active_hosts in Hh. apply filter_In in Hh. apply Hh. }
    rewrite Hex. split; reflexivity.
  - intros k Hk. rewrite Hcpu, Hmem.
    destruct (existsb (fun h0 => (h_id h0 =? k)%Z)
                (filter is_on (active_hosts (st_hosts st)))) eqn:E; [|split; reflexivity].
    exfalso. apply existsb_id_In in E. destruct E as [h [Hh Hid]].
    apply filter_In in Hh. exact (Hk h (proj1 Hh) Hid).
  - unfold plan_init in Hinit. bind_inv Hinit. destruct a as [cpu mem].
    inversion Hinit; subst. reflexivity.
  - unfold cycle_plan. rewrite Hobs. simpl. unfold plan_moves.
    rewrite Hinit. simpl. rewrite Hcands, foldM_app, Hpre. simpl. rewrite Hstep. reflexivity.
  - destruct (plan_step_cases _ _ _ _ _ Hstep)
      as [->|[d [c [m [Hd [Hne [Hc [Hm [Hlc [Hlm ->]]]]]]]]]].
    + exfalso. apply Hacc. reflexivity.
    + exists d, c, m. simpl. repeat split; try assumption; apply dict_get_set_same.
Qed.

Lemma update_usage_up_to_pred : forall (t : Z) (vms vms2 : list VM) (g g' : Rng)
  (out : list VM),
  Forall2 same_up_to_pred vms vms2 ->
  update_usage rng_random sin24 t vms g = Ok (out, g') ->
  exists out2, update_usage rng_random sin24 t vms2 g = Ok (out2, g') /\
               Forall2 same_up_to_pred out out2.
Proof.
  intros t vms vms2 g g' out HR. revert g g' out.
  induction HR as [|a b vms vms2 Hab HR IH]; intros g g' out H; simpl in *.
  - inversion H; subst. exists []. split; [reflexivity | constructor].
  - destruct (synth_drift rng_random sin24 t g) as [d g1].
    destruct Hab as [Hid [Hh [Hc Hm]]]. rewrite <- Hc, <- Hm.
    bind_inv H. rewrite Hbind. simpl. bind_inv H. rewrite Hbind0. simpl.
    bind_inv H. destruct a2 as [rest g2]. inversion H; subst.
    destruct (IH _ _ _ Hbind1) as [rest2 [Hrest2 HR2]]. rewrite Hrest2. simpl.
    eexists. split; [reflexivity|]. constructor; [|exact HR2].
    unfold same_up_to_pred, append_usage. simpl. rewrite Hid, Hh, Hc, Hm. auto.
Qed.

Lemma predict_ema_up_to_pred : forall (a b a' : VM) (al : Q),
  same_up_to_pred a b -> predict_ema a al = Ok a' -> predict_ema b al = Ok a'.
Proof.
  intros a b a' al [Hid [Hh [Hc Hm]]] H. unfold predict_ema, set_pred in *.
  rewrite <- Hid, <- Hh, <- Hc, <- Hm. exact H.
Qed.

Lemma mapM_predict_up_to_pred : forall (al : Q) (vms vms2 out : list VM),
  Forall2 same_up_to_pred vms vms2 ->
  mapM (fun vm => predict_ema vm al) vms = Ok out ->
  mapM (fun vm => predict_ema vm al) vms2 = Ok out.
Proof.
  intros al vms vms2 out HR. revert out.
  induction HR as [|a b vms vms2 Hab HR IH]; intros out H; simpl in *.
  - exact H.
  - bind_inv H. bind_inv H. inversion H; subst.
    rewrite (predict_ema_up_to_pred _ _ _ _ Hab Hbind). simpl.
    rewrite (IH _ Hbind0). reflexivity.
Qed.

Lemma predict_ema_Ok : forall (vm vm' : VM) (al : Q),
  predict_ema vm al = Ok vm' ->
  exists c1 c2 m1 m2,
    index_m1 (cpu_use_hist vm) = Ok c1 /\ index_m2 (cpu_use_hist vm) = Ok c2 /\
    index_m1 (mem_use_hist vm) = Ok m1 /\ index_m2 (mem_use_hist vm) = Ok m2 /\
    vm' = set_pred vm (al * c1 + (1 - al) * c2)%Q (al * m1 + (1 - al) * m2)%Q.
Proof.
  intros vm vm' al H. unfold predict_ema in H.
  bind_inv H. bind_inv H. bind_inv H. bind_inv H. inversion H; subst.
  exists a, a0, a1, a2. repeat split; assumption.
Qed.

Lemma index_m1_snoc : forall (xs : list Q) (c : Q), index_m1 (xs ++ [c]) = Ok c.
Proof. intros xs c. unfold index_m1. rewrite rev_app_distr. reflexivity. Qed.

Lemma index_m2_snoc : forall (xs : list Q) (c : Q),
  index_m2 (xs ++ [c]) = index_m1 xs.
Proof.
  intros xs c. unfold index_m1, index_m2. rewrite rev_app_distr. simpl.
  destruct (rev xs); reflexivity.
Qed.

Lemma update_usage_appended : forall (t : Z) (vms out : list VM) (g g' : Rng),
  update_usage rng_random sin24 t vms g = Ok (out, g') ->
  Forall2 (fun a b => exists c m : Q, b = append_usage a c m) vms out.
Proof.
  intros t vms. induction vms as [|vm vms IH]; intros out g g' H; simpl in H.
  - inversion H. constructor.
  - destruct (synth_drift rng_random sin24 t g) as [d g1].
    bind_inv H. bind_inv H. bind_inv H. destruct a1 as [rest g2]. inversion H; subst.
    constructor; [|eapply IH; eassumption].
    eexists. eexists. reflexivity.
Qed.

(** Steps 1 and 2 hand the planner every VM of the state, in order, each
    with its new observation and its predictions recomputed. *)
Lemma observe_predict_predicted : forall (t : Z) (st : SimState Rng) (vms : list VM)
  (g : Rng),
  observe_predict rng_random sin24 t st = Ok (vms, g) ->
  Forall2 (predicted (alpha (st_cfg st))) (st_vms st) vms.
Proof.
  intros t st vms g H. unfold observe_predict in H.
  bind_inv H. destruct a as [vms1 g1]. bind_inv H. inversion H; subst.
  apply update_usage_appended in Hbind. apply mapM_Forall2 in Hbind0.
  eapply Forall2_trans; [|exact Hbind|exact Hbind0].
  intros x y z [c [m ->]] Hyz. simpl in Hyz.
  destruct (predict_ema_Ok _ _ _ Hyz) as [c1 [c2 [m1 [m2 [H1 [H2 [H3 [H4 ->]]]]]]]].
  simpl in H1, H2, H3, H4.
  rewrite index_m1_snoc in H1, H3. rewrite index_m2_snoc in H2, H4.
  inversion H1; inversion H3; subst c1 m1.
  unfold predicted. simpl. split; [reflexivity|]. split; [reflexivity|].
  exists c, m, c2, m2. repeat split; assumption.
Qed.

(** C9.  In every cycle the planner reads every VM of the state, each once
    and in order, after steps 1 and 2: the VM has its new observation
    appended, and carries [pred_cpu = alpha * latest + (1 - alpha) * previous]
    with the new observation as latest sample and the last sample it held
    before as previous one, and the same with the same [alpha] over its
    memory history, which are the last two entries of each history; the
    planner runs on exactly these VMs; and the cached predictions the cycle
    started with have no influence: any state that differs only in them
    yields the same VMs and the same plan. *)
Theorem predictions_fresh_before_planning :
  forall (t : Z) (st : SimState Rng) (vms : list VM) (g : Rng),
    observe_predict rng_random sin24 t st = Ok (vms, g) ->
    Forall2 (predicted (alpha (st_cfg st))) (st_vms st) vms /\
    (forall vm, In vm vms ->
       exists c1 c2 m1 m2,
         index_m1 (cpu_use_hist vm) = Ok c1 /\ index_m2 (cpu_use_hist vm) = Ok c2 /\
         index_m1 (mem_use_hist vm) = Ok m1 /\ index_m2 (mem_use_hist vm) = Ok m2 /\
         pred_cpu vm = (alpha (st_cfg st) * c1 + (1 - alpha (st_cfg st)) * c2)%Q /\
         pred_mem vm = (alpha (st_cfg st) * m1 + (1 - alpha (st_cfg st)) * m2)%Q) /\
    cycle_plan rng_random sin24 t st =
      bind (plan_moves (st_cfg st) (active_hosts (st_hosts st)) vms)
           (fun ps => Ok (vms, g, ps)) /\
    (forall stale : list VM,
       Forall2 same_up_to_pred (st_vms st) stale ->
       observe_predict rng_random sin24 t (with_vms st stale) = Ok (vms, g) /\
       cycle_plan rng_random sin24 t (with_vms st stale) = cycle_plan rng_random sin24 t st).
Proof.
  intros t st vms g H.
  assert (Hstale : forall stale, Forall2 same_up_to_pred (st_vms st) stale ->
            observe_predict rng_random sin24 t (with_vms st stale) = Ok (vms, g)).
  { intros stale HR. unfold observe_predict in *. simpl.
    bind_inv H. destruct a as [vms1 g1]. bind_inv H. inversion H; subst.
    destruct (update_usage_up_to_pred _ _ _ _ _ _ HR Hbind) as [out2 [Hout2 HR2]].
    rewrite Hout2. simpl. rewrite (mapM_predict_up_to_pred _ _ _ _ HR2 Hbind0). reflexivity. }
  split; [exact (observe_predict_predicted t st vms g H)|].
  split; [|split].
  - intros vm Hvm. unfold observe_predict in H.
    bind_inv H. destruct a as [vms1 g1]. bind_inv H. inversion H; subst.
    destruct (mapM_In _ _ _ _ _ Hbind0 _ Hvm) as [vm0 [_ Hp]].
    destruct (predict_ema_Ok _ _ _ Hp) as [c1 [c2 [m1 [m2 [H1 [H2 [H3 [H4 ->]]]]]]]].
    exists c1, c2, m1, m2. simpl. repeat split; assumption.
  - unfold cycle_plan. rewrite H. reflexivity.
  - intros stale HR. split; [apply Hstale; exact HR|].
    unfold cycle_plan. rewrite (Hstale _ HR), H. reflexivity.
Qed.

Lemma cycle_Ok : forall (t : Z) (st st' : SimState Rng),
  cycle rng_random sin24 t st = Ok st' ->
  exists (vms : list VM) (g : Rng) (ps : PlanState) (vms' : list VM) (breach : bool),
    cycle_plan rng_random sin24 t st = Ok (vms, g, ps) /\
    execute (plan ps) vms = Ok vms' /\
    breach_check (st_cfg st) (map (shutdown_result vms') (st_hosts st)) vms' = Ok breach /\
    st' = mkState (map (shutdown_result vms') (st_hosts st)) vms'
            (if breach
             then set_target_util (st_cfg st) (relax_target (target_util (st_cfg st)))
             else st_cfg st)
            (total_kwh st
             + cycle_energy (st_cfg st) (map (shutdown_result vms') (st_hosts st)))%Q
            (total_migrations st + Z.of_nat (length (plan ps)))%Z
            (if breach then (total_breaches st + 1)%Z else total_breaches st)
            g.
Proof.
  intros t st st' H. unfold cycle in H. bind_inv H.
  destruct a as [[vms g] ps]. bind_inv H. rename a into vms'.
  rewrite shutdown_map in H. simpl in H. bind_inv H. rename a into breach.
  exists vms, g, ps, vms', breach.
  split; [exact Hbind|]. split; [exact Hbind0|]. split; [exact Hbind1|].
  destruct breach; inversion H; reflexivity.
Qed.

Lemma cycle_hosts : forall (t : Z) (st st' : SimState Rng),
  cycle rng_random sin24 t st = Ok st' ->
  st_hosts st' = map (shutdown_result (st_vms st')) (st_hosts st).
Proof.
  intros t st st' H. apply cycle_Ok in H.
  destruct H as [vms [g [ps [vms' [breach [_ [_ [_ ->]]]]]]]]. reflexivity.
Qed.

(** Over any further cycles a host keeps its place and its id, and stays OFF
    once OFF. *)
Lemma run_cycles_keeps_off : forall (ts : list Z) (st st' : SimState Rng),
  run_cycles rng_random sin24 ts st = Ok st' ->
  forall (i : nat) (h : Host),
    nth_error (st_hosts st) i = Some h ->
    exists h', nth_error (st_hosts st') i = Some h' /\ h_id h' = h_id h /\
               (status h = OFF -> status h' = OFF).
Proof.
  intros ts. induction ts as [|t ts IH]; intros st st' H i h Hi; simpl in H.
  - inversion H; subst. exists h. auto.
  - unfold run_cycles in H. simpl in H. bind_inv H. rename a into st1.
    pose proof (cycle_hosts _ _ _ Hbind) as Hhosts.
    assert (Hi1 : nth_error (st_hosts st1) i = Some (shutdown_result (st_vms st1) h)).
    { rewrite Hhosts. apply map_nth_error. exact Hi. }
    destruct (IH st1 st' H i _ Hi1) as [h' [Hh' [Hid Hoff]]].
    destruct (shutdown_result_status (st_vms st1) h) as [Heq [Hkeep _]].
    exists h'. split; [exact Hh'|]. split.
    + rewrite Hid, Heq. reflexivity.
    + intro Hs. apply Hoff. apply Hkeep. exact Hs.
Qed.

(** C5.  A cycle changes nothing of a host but its status; a host that is OFF
    before the cycle is OFF after it; a host that is ON before the cycle is
    OFF after it exactly when no VM is assigned to it once the cycle's moves
    are applied; and a host that is OFF after a cycle is OFF after any number
    of further cycles. *)
Theorem off_hosts_stay_off :
  forall (t : Z) (later : list Z) (st st1 st2 : SimState Rng) (i : nat) (h : Host),
    cycle rng_random sin24 t st = Ok st1 ->
    run_cycles rng_random sin24 later st1 = Ok st2 ->
    nth_error (st_hosts st) i = Some h ->
    exists h1 h2 : Host,
      nth_error (st_hosts st1) i = Some h1 /\
      nth_error (st_hosts st2) i = Some h2 /\
      h1 = set_status h (status h1) /\
      h_id h2 = h_id h /\
      (status h = OFF -> status h1 = OFF) /\
      (status h = ON ->
         (status h1 = OFF <-> forall vm, In vm (st_vms st1) -> host_id vm <> h_id h)) /\
      (status h1 = OFF -> status h2 = OFF).
Proof.
  intros t later st st1 st2 i h Hc Hr Hi.
  pose proof (cycle_hosts _ _ _ Hc) as Hhosts.
  assert (Hi1 : nth_error (st_hosts st1) i = Some (shutdown_result (st_vms st1) h)).
  { rewrite Hhosts. apply map_nth_error. exact Hi. }
  destruct (run_cycles_keeps_off _ _ _ Hr i _ Hi1) as [h2 [Hh2 [Hid Hoff]]].
  destruct (shutdown_result_status (st_vms st1) h) as [Heq [Hkeep Hiff]].
  exists (shutdown_result (st_vms st1) h), h2.
  split; [exact Hi1|]. split; [exact Hh2|]. split; [exact Heq|].
  split; [rewrite Hid, Heq; reflexivity|].
  split; [exact Hkeep|]. split; [exact Hiff | exact Hoff].
Qed.

(** What the source's [sum] over [off_hosts] amounts to: the idle power of
    each OFF host of the list, nothing for an ON host. *)
Lemma off_power_fold : forall (hosts : list Host) (acc acc' : Q),
  (acc == acc')%Q ->
  (fold_left Qplus (map power_idle_watts (off_hosts hosts)) acc
   == fold_left (fun a h => (a + off_power h)%Q) hosts acc')%Q.
Proof.
  intros hosts. induction hosts as [|h hosts IH]; intros acc acc' E; simpl.
  - exact E.
  - unfold is_off, off_power at 2. destruct (status h); simpl.
    + apply IH. rewrite E. lra.
    + apply IH. rewrite E. reflexivity.
Qed.

Lemma off_power_total_sum : forall hosts : list Host,
  (py_sum (map power_idle_watts (off_hosts hosts)) == off_power_total hosts)%Q.
Proof. intros hosts. apply off_power_fold. reflexivity. Qed.

(** C7.  A cycle adds to the running energy total exactly the idle power of
    the hosts that are OFF after its shutdown step, added up from zero in
    host order with nothing for an ON host, times [dt_hours], divided by
    1000: an OFF host adds its [power_idle_watts] to the sum, an ON host
    leaves the sum as it is. *)
Theorem cycle_energy_from_off_hosts :
  forall (t : Z) (st st' : SimState Rng),
    cycle rng_random sin24 t st = Ok st' ->
    st_hosts st' = map (shutdown_result (st_vms st')) (st_hosts st) /\
    (total_kwh st'
     == total_kwh st
        + off_power_total (st_hosts st') * dt_hours (st_cfg st) / 1000.0)%Q /\
    (forall (hosts : list Host) (h : Host),
       status h = OFF ->
       off_power_total (hosts ++ [h]) = (off_power_total hosts + power_idle_watts h)%Q) /\
    (forall (hosts : list Host) (h : Host),
       status h = ON -> (off_power_total (hosts ++ [h]) == off_power_total hosts)%Q) /\
    off_power_total [] = 0%Q.
Proof.
  intros t st st' H. pose proof (cycle_hosts _ _ _ H) as Hhosts.
  apply cycle_Ok in H.
  destruct H as [vms [g [ps [vms' [breach [_ [_ [_ E]]]]]]]].
  split; [exact Hhosts|]. split; [|split; [|split]].
  - rewrite E. simpl. unfold cycle_energy. rewrite off_power_total_sum. reflexivity.
  - intros hosts h Hs. unfold off_power_total. rewrite fold_left_app. simpl.
    replace (off_power h) with (power_idle_watts h)
      by (unfold off_power; rewrite Hs; reflexivity).
    reflexivity.
  - intros hosts h Hs. unfold off_power_total. rewrite fold_left_app. simpl.
    replace (off_power h) with 0%Q by (unfold off_power; rewrite Hs; reflexivity).
    lra.
  - reflexivity.
Qed.

Lemma cycle_cfg : forall (t : Z) (st st' : SimState Rng),
  cycle rng_random sin24 t st = Ok st' ->
  (total_breaches st' = total_breaches st /\ st_cfg st' = st_cfg st) \/
  (total_breaches st' = (total_breaches st + 1)%Z /\
   st_cfg st' = set_target_util (st_cfg st) (relax_target (target_util (st_cfg st)))).
Proof.
  intros t st st' H. apply cycle_Ok in H.
  destruct H as [vms [g [ps [vms' [[|] [_ [_ [_ ->]]]]]]]]; simpl; auto.
Qed.

Lemma run_cycles_target_floor : forall (ts : list Z) (st st' : SimState Rng),
  (0.70 <= target_util (st_cfg st))%Q ->
  run_cycles rng_random sin24 ts st = Ok st' ->
  (0.70 <= target_util (st_cfg st'))%Q /\
  (target_util (st_cfg st') <= target_util (st_cfg st))%Q.
Proof.
  intros ts. induction ts as [|t ts IH]; intros st st' Hfloor H.
  - inversion H; subst. split; lra.
  - unfold run_cycles in H. simpl in H. bind_inv H. rename a into st1.
    assert (H1 : (0.70 <= target_util (st_cfg st1))%Q /\
                 (target_util (st_cfg st1) <= target_util (st_cfg st))%Q).
    { destruct (cycle_cfg _ _ _ Hbind) as [[_ ->] | [_ ->]]; [split; lra|].
      simpl. destruct (relax_target_bounds (target_util (st_cfg st))) as [Ha Hb].
      split; [exact Ha | apply Hb; exact Hfloor]. }
    destruct H1 as [Hf1 Hle1]. destruct (IH st1 st' Hf1 H) as [Hf2 Hle2].
    split; [exact Hf2 | lra].
Qed.

(** The controller on the range it was written for.  In a run whose
    configured [target_util] is at least 0.70: after every cycle
    [target_util] is at most what it was after the cycle before (at most the
    configured value, for the first cycle) and at least 0.70; a cycle leaves
    the configuration untouched or replaces [target_util] by the controller's
    step [max(0.70, round(target_util - 0.02, 3))], and never touches another
    field. *)
Theorem target_util_never_rises_from_above_floor :
  forall (cfg : Config) (earlier : list Z) (t : Z) (st0 st st' : SimState Rng),
    (0.70 <= target_util cfg)%Q ->
    init_state rng_seed rng_random cfg = Ok st0 ->
    run_cycles rng_random sin24 earlier st0 = Ok st ->
    cycle rng_random sin24 t st = Ok st' ->
    (target_util (st_cfg st') <= target_util (st_cfg st))%Q /\
    (target_util (st_cfg st) <= target_util cfg)%Q /\
    (0.70 <= target_util (st_cfg st'))%Q /\
    (st_cfg st' = st_cfg st \/
     st_cfg st' = set_target_util (st_cfg st) (relax_target (target_util (st_cfg st)))).
Proof.
  intros cfg earlier t st0 st st' Hfloor Hinit Hrun Hc.
  assert (Hcfg0 : st_cfg st0 = cfg).
  { unfold init_state in Hinit. bind_inv Hinit. destruct a as [vms g].
    inversion Hinit; reflexivity. }
  rewrite <- Hcfg0 in Hfloor |- *.
  destruct (run_cycles_target_floor _ _ _ Hfloor Hrun) as [Hf Hle].
  assert (Hone : run_cycles rng_random sin24 [t] st = Ok st').
  { unfold run_cycles. simpl. rewrite Hc. reflexivity. }
  destruct (run_cycles_target_floor _ _ _ Hf Hone) as [Hf' Hle'].
  split; [exact Hle'|]. split; [exact Hle|]. split; [exact Hf'|].
  destruct (cycle_cfg _ _ _ Hc) as [[_ E] | [_ E]]; auto.
Qed.

(** *** The shape of a run's state *)

Lemma In_range : forall k n : Z, In k (range n) <-> (0 <= k < n)%Z.
Proof.
  intros k n. unfold range. rewrite in_map_iff. split.
  - intros [i [<- Hi]]. apply in_seq in Hi. lia.
  - intro H. exists (Z.to_nat k). split; [lia|]. apply in_seq. lia.
Qed.

Lemma range_NoDup : forall n : Z, NoDup (range n).
Proof.
  intro n. unfold range. generalize (seq_NoDup (Z.to_nat n) 0).
  induction (seq 0 (Z.to_nat n)) as [|x xs IH]; simpl; intro H.
  - constructor.
  - inversion H; subst. constructor; [|apply IH; assumption].
    rewrite in_map_iff. intros [y [Hy Hin]].
    apply Nat2Z.inj in Hy. subst y. contradiction.
Qed.

Lemma range_length : forall n : Z, length (range n) = Z.to_nat n.
Proof. intro n. unfold range. rewrite length_map, length_seq. reflexivity. Qed.

Lemma init_vms_spec : forall (ids : list Z) (nh : Z) (g g' : Rng) (vms : list VM),
  init_vms rng_random ids nh g = Ok (vms, g') ->
  map v_id vms = ids /\ Forall vm_wf vms /\
  (ids <> [] -> nh <> 0%Z) /\
  (forall vm, In vm vms -> host_id vm = (v_id vm mod nh)%Z).
Proof.
  intros ids nh. induction ids as [|i ids IH]; intros g g' vms H; simpl in H.
  - inversion H; subst. simpl. repeat split; auto. intros vm [].
  - bind_inv H. rename a into hid. unfold py_mod in Hbind.
    destruct (nh =? 0)%Z eqn:E; [discriminate Hbind|]. apply Z.eqb_neq in E.
    inversion Hbind; subst hid.
    destruct (uniform rng_random 10.0 60.0 g) as [init_cpu g1].
    bind_inv H. destruct a as [rest g2]. inversion H; subst.
    destruct (IH _ _ _ Hbind0) as [Hids [Hwf [_ Hhost]]].
    simpl. split; [f_equal; exact Hids|]. split.
    + constructor; [|exact Hwf]. unfold vm_wf. simpl. lia.
    + split; [intros _; exact E|]. intros vm [<-|Hin]; [reflexivity | apply Hhost; exact Hin].
Qed.

Lemma init_state_wf : forall (cfg : Config) (st0 : SimState Rng),
  init_state rng_seed rng_random cfg = Ok st0 ->
  st_cfg st0 = cfg /\ state_wf cfg st0 /\
  ((0 <= n_hosts cfg)%Z -> Forall (placed_on (st_hosts st0)) (st_vms st0)).
Proof.
  intros cfg st0 H. unfold init_state in H. bind_inv H. destruct a as [vms g].
  inversion H; subst. simpl.
  destruct (init_vms_spec _ _ _ _ _ Hbind) as [Hids [Hwf [Hnz Hhost]]].
  split; [reflexivity|]. split.
  - unfold state_wf. simpl. split; [|split].
    + unfold hosts_wf. split.
      * rewrite map_map. simpl. apply map_id.
      * apply Forall_forall. intros h Hh. apply in_map_iff in Hh.
        destruct Hh as [i [<- _]]. reflexivity.
    + split; assumption.
    + destruct cfg; reflexivity.
  - intro Hnh. apply Forall_forall. intros vm Hvm.
    assert (Hne : range (n_vms cfg) <> []).
    { intro E. rewrite E in Hids. destruct vms; [destruct Hvm | discriminate Hids]. }
    pose proof (Hnz Hne) as Hnz'.
    assert (Hin : In (host_id vm) (range (n_hosts cfg))).
    { rewrite (Hhost vm Hvm). apply In_range. apply Z.mod_pos_bound. lia. }
    unfold placed_on. split.
    + exists (new_host (host_id vm)). split; [apply in_map; exact Hin | reflexivity].
    + intros h Hh _. apply in_map_iff in Hh. destruct Hh as [i [<- _]]. reflexivity.
Qed.

Lemma update_usage_observed : forall (t : Z) (vms out : list VM) (g g' : Rng),
  update_usage rng_random sin24 t vms g = Ok (out, g') ->
  Forall2 observed vms out.
Proof.
  intros t vms. induction vms as [|vm vms IH]; intros out g g' H; simpl in H.
  - inversion H. constructor.
  - destruct (synth_drift rng_random sin24 t g) as [d g1].
    bind_inv H. bind_inv H. bind_inv H. destruct a1 as [rest g2]. inversion H; subst.
    constructor; [|eapply IH; eassumption].
    unfold observed, append_usage. simpl. rewrite !length_app. simpl.
    repeat split; lia.
Qed.

Lemma observe_predict_observed : forall (t : Z) (st : SimState Rng) (vms : list VM) (g : Rng),
  observe_predict rng_random sin24 t st = Ok (vms, g) ->
  Forall2 observed (st_vms st) vms.
Proof.
  intros t st vms g H. unfold observe_predict in H.
  bind_inv H. destruct a as [vms1 g1]. bind_inv H. inversion H; subst.
  apply update_usage_observed in Hbind. apply mapM_Forall2 in Hbind0.
  eapply Forall2_trans; [|exact Hbind|exact Hbind0].
  intros x y z Hxy Hyz. simpl in Hyz.
  destruct (predict_ema_Ok _ _ _ Hyz) as [c1 [c2 [m1 [m2 [_ [_ [_ [_ ->]]]]]]]].
  exact Hxy.
Qed.

Lemma apply_move_moved : forall (moves : list Move) (vms0 cur cur' : list VM) (mv : Move),
  In mv moves ->
  Forall2 (moved moves) vms0 cur ->
  apply_move cur mv = Ok cur' ->
  Forall2 (moved moves) vms0 cur'.
Proof.
  intros moves vms0 cur cur' [[vm_id src] dst] Hin HR H. unfold apply_move in H.
  bind_inv H. inversion H; subst. apply Forall2_list_update; [|exact HR].
  intros x y [hid [-> _]]. exists dst. split; [reflexivity|].
  right. change dst with (move_dst (vm_id, src, dst)). apply in_map. exact Hin.
Qed.

Lemma execute_moved : forall (moves : list Move) (vms vms' : list VM),
  execute moves vms = Ok vms' -> Forall2 (moved moves) vms vms'.
Proof.
  intros moves vms vms' H. unfold execute in H.
  apply (foldM_invariant_in _ _ apply_move (fun cur => Forall2 (moved moves) vms cur) moves)
    with (acc := vms); [| |exact H].
  - intros acc mv acc' Hin HR Hstep. eapply apply_move_moved; eassumption.
  - apply Forall2_refl_on. intro x. exists (host_id x). split; [|left; reflexivity].
    destruct x; reflexivity.
Qed.

Lemma shutdown_result_id : forall (vms : list VM) (h : Host),
  h_id (shutdown_result vms h) = h_id h.
Proof.
  intros vms h. unfold shutdown_result.
  destruct (is_on h && negb (host_occupied vms h)); reflexivity.
Qed.

Lemma shutdown_result_occupied : forall (vms : list VM) (h : Host),
  host_occupied vms h = true -> shutdown_result vms h = h.
Proof.
  intros vms h H. unfold shutdown_result. rewrite H, andb_false_r. reflexivity.
Qed.

Lemma shutdown_hosts_wf : forall (cfg : Config) (hosts : list Host) (vms : list VM),
  hosts_wf cfg hosts -> hosts_wf cfg (map (shutdown_result vms) hosts).
Proof.
  intros cfg hosts vms [Hids Hfresh]. split.
  - rewrite map_map. rewrite <- Hids. apply map_ext. intro h. apply shutdown_result_id.
  - apply Forall_forall. intros h' Hh'. apply in_map_iff in Hh'.
    destruct Hh' as [h [<- Hh]]. rewrite Forall_forall in Hfresh.
    pose proof (Hfresh h Hh) as Hf. unfold fresh_up_to_status in *.
    rewrite shutdown_result_id.
    destruct (shutdown_result_status vms h) as [Heq _].
    rewrite Heq at 1. rewrite Hf at 1. reflexivity.
Qed.

Lemma hosts_wf_NoDup : forall (cfg : Config) (hosts : list Host),
  hosts_wf cfg hosts -> NoDup (map h_id hosts).
Proof. intros cfg hosts [Hids _]. rewrite Hids. apply range_NoDup. Qed.

Lemma In_active_hosts : forall (hosts : list Host) (h : Host),
  In h (active_hosts hosts) <-> In h hosts /\ status h = ON.
Proof.
  intros hosts h. unfold active_hosts. rewrite filter_In. unfold is_on.
  destruct (status h); simpl; split; intros [Hin E]; split;
    try exact Hin; try reflexivity; discriminate E.
Qed.

(** Steps 1 to 5 keep every VM on an ON host, and so does step 6. *)
Lemma cycle_keeps_placed : forall (cfg : Config) (t : Z) (st : SimState Rng)
  (vms : list VM) (g : Rng) (ps : PlanState) (vms' : list VM),
  hosts_wf cfg (st_hosts st) ->
  Forall (placed_on (st_hosts st)) (st_vms st) ->
  cycle_plan rng_random sin24 t st = Ok (vms, g, ps) ->
  Forall (placed_on (st_hosts st)) vms /\
  (execute (plan ps) vms = Ok vms' ->
   Forall (placed_on (st_hosts st)) vms' /\
   Forall (placed_on (map (shutdown_result vms') (st_hosts st))) vms').
Proof.
  intros cfg t st vms g ps vms' Hwf Hplaced Hplan.
  apply cycle_plan_Ok in Hplan. destruct Hplan as [Hobs Hmoves].
  pose proof (observe_predict_observed _ _ _ _ Hobs) as Hobserved.
  rewrite Forall_forall in Hplaced.
  assert (Hvms : Forall (placed_on (st_hosts st)) vms).
  { apply Forall_forall. intros vm Hvm.
    destruct (Forall2_In_r _ _ _ _ _ Hobserved vm Hvm) as [a [Ha [_ [Hhost _]]]].
    unfold placed_on. rewrite Hhost. apply (Hplaced a Ha). }
  split; [exact Hvms|]. intro Hexec.
  pose proof (execute_moved _ _ _ Hexec) as Hmoved.
  assert (Hmid : Forall (placed_on (st_hosts st)) vms').
  { apply Forall_forall. intros vm' Hvm'.
    destruct (Forall2_In_r _ _ _ _ _ Hmoved vm' Hvm') as [a [Ha [hid [-> Hhid]]]].
    rewrite Forall_forall in Hvms. unfold placed_on. simpl.
    destruct Hhid as [->|Hdst]; [apply (Hvms a Ha)|].
    apply in_map_iff in Hdst. destruct Hdst as [mv [<- Hmv]].
    destruct (plan_moves_ok _ _ _ _ Hmoves mv Hmv) as [_ [_ [d [Hd Hid]]]].
    apply In_active_hosts in Hd. destruct Hd as [Hd Hon].
    split; [exists d; split; assumption|].
    intros h Hh Hh_id.
    assert (h = d).
    { apply (NoDup_map_eq _ _ h_id (st_hosts st)); try assumption.
      - apply (hosts_wf_NoDup cfg). exact Hwf.
      - congruence. }
    subst h. exact Hon. }
  split; [exact Hmid|].
  apply Forall_forall. intros vm' Hvm'. rewrite Forall_forall in Hmid.
  destruct (Hmid vm' Hvm') as [[h [Hh Hid]] Hall].
  assert (Hocc : forall h0, h_id h0 = host_id vm' -> host_occupied vms' h0 = true).
  { intros h0 E. unfold host_occupied. apply existsb_exists. exists vm'.
    split; [exact Hvm' | apply Z.eqb_eq; symmetry; exact E]. }
  split.
  - exists (shutdown_result vms' h). split; [apply in_map; exact Hh|].
    rewrite shutdown_result_id. exact Hid.
  - intros h' Hh' Hid'. apply in_map_iff in Hh'. destruct Hh' as [h0 [<- Hh0]].
    rewrite shutdown_result_id in Hid'.
    rewrite (shutdown_result_occupied _ _ (Hocc h0 Hid')). apply Hall; assumption.
Qed.

Lemma cycle_state_wf : forall (cfg : Config) (t : Z) (st st' : SimState Rng),
  state_wf cfg st ->
  cycle rng_random sin24 t st = Ok st' ->
  state_wf cfg st'.
Proof.
  intros cfg t st st' [Hhosts [[Hids Hvwf] Hcfg]] H. apply cycle_Ok in H.
  destruct H as [vms [g [ps [vms' [breach [Hplan [Hexec [_ ->]]]]]]]].
  apply cycle_plan_Ok in Hplan. destruct Hplan as [Hobs _].
  pose proof (observe_predict_observed _ _ _ _ Hobs) as Hobserved.
  pose proof (execute_moved _ _ _ Hexec) as Hmoved.
  unfold state_wf. simpl. split; [apply shutdown_hosts_wf; exact Hhosts|]. split.
  - split.
    + rewrite <- Hids.
      rewrite (Forall2_map_eq _ _ _ (moved (plan ps)) v_id v_id vms vms');
        [|intros x y [hid [-> _]]; reflexivity | exact Hmoved].
      apply (Forall2_map_eq _ _ _ observed v_id v_id); [|exact Hobserved].
      intros x y [E _]. exact E.
    + apply Forall_forall. intros vm' Hvm'.
      destruct (Forall2_In_r _ _ _ _ _ Hmoved vm' Hvm') as [a [Ha [hid [-> _]]]].
      destruct (Forall2_In_r _ _ _ _ _ Hobserved a Ha) as [a0 [Ha0 [_ [_ [Hc Hm]]]]].
      rewrite Forall_forall in Hvwf. destruct (Hvwf a0 Ha0) as [Hc0 Hm0].
      unfold vm_wf. simpl. rewrite Hc, Hm. lia.
  - destruct breach; simpl; [|exact Hcfg].
    rewrite Hcfg. destruct cfg; reflexivity.
Qed.

Lemma cycle_placed : forall (cfg : Config) (t : Z) (st st' : SimState Rng),
  state_wf cfg st ->
  Forall (placed_on (st_hosts st)) (st_vms st) ->
  cycle rng_random sin24 t st = Ok st' ->
  Forall (placed_on (st_hosts st')) (st_vms st').
Proof.
  intros cfg t st st' [Hhosts _] Hplaced H. apply cycle_Ok in H.
  destruct H as [vms [g [ps [vms' [breach [Hplan [Hexec [_ ->]]]]]]]]. simpl.
  destruct (cycle_keeps_placed cfg t st vms g ps vms' Hhosts Hplaced Hplan) as [_ Hrest].
  destruct (Hrest Hexec) as [_ Hafter]. exact Hafter.
Qed.

Lemma run_cycles_state_wf : forall (cfg : Config) (ts : list Z) (st st' : SimState Rng),
  state_wf cfg st ->
  run_cycles rng_random sin24 ts st = Ok st' ->
  state_wf cfg st' /\
  (Forall (placed_on (st_hosts st)) (st_vms st) ->
   Forall (placed_on (st_hosts st')) (st_vms st')).
Proof.
  intros cfg ts. induction ts as [|t ts IH]; intros st st' Hwf H.
  - inversion H; subst. auto.
  - unfold run_cycles in H. simpl in H. bind_inv H. rename a into st1.
    pose proof (cycle_state_wf _ _ _ _ Hwf Hbind) as Hwf1.
    destruct (IH st1 st' Hwf1 H) as [Hwf' Hpl]. split; [exact Hwf'|].
    intro Hplaced. apply Hpl. exact (cycle_placed cfg t st st1 Hwf Hplaced Hbind).
Qed.

(** C10.  In a run with a non-negative host count, every VM's [host_id]
    names a host of the run and every host of that id is ON: between cycles
    (from the initial state on), when the planner reads the VMs, after the
    moves are applied, and after the shutdown step.  Every planned
    destination is a host that is ON when the plan is built, and the shutdown
    step leaves a host with a VM assigned to it as it is. *)
Theorem vms_always_on_active_hosts :
  forall (cfg : Config) (earlier : list Z) (t : Z) (st0 st : SimState Rng)
         (vms : list VM) (g : Rng) (ps : PlanState) (vms' : list VM),
    (0 <= n_hosts cfg)%Z ->
    init_state rng_seed rng_random cfg = Ok st0 ->
    run_cycles rng_random sin24 earlier st0 = Ok st ->
    cycle_plan rng_random sin24 t st = Ok (vms, g, ps) ->
    execute (plan ps) vms = Ok vms' ->
    Forall (placed_on (st_hosts st)) (st_vms st) /\
    Forall (placed_on (st_hosts st)) vms /\
    (forall mv, In mv (plan ps) ->
       exists d, In d (st_hosts st) /\ status d = ON /\ h_id d = move_dst mv) /\
    Forall (placed_on (st_hosts st)) vms' /\
    (forall h, In h (st_hosts st) -> host_occupied vms' h = true ->
               shutdown_result vms' h = h) /\
    Forall (placed_on (map (shutdown_result vms') (st_hosts st))) vms'.
Proof.
  intros cfg earlier t st0 st vms g ps vms' Hnh Hinit Hrun Hplan Hexec.
  destruct (init_state_wf _ _ Hinit) as [_ [Hwf0 Hpl0]].
  destruct (run_cycles_state_wf _ _ _ _ Hwf0 Hrun) as [Hwf Hpl].
  pose proof (Hpl (Hpl0 Hnh)) as Hplaced.
  destruct Hwf as [Hhosts _].
  destruct (cycle_keeps_placed cfg t st vms g ps vms' Hhosts Hplaced Hplan) as [Hvms Hrest].
  destruct (Hrest Hexec) as [Hmid Hafter].
  split; [exact Hplaced|]. split; [exact Hvms|]. split.
  - intros mv Hmv. apply cycle_plan_Ok in Hplan. destruct Hplan as [_ Hmoves].
    destruct (plan_moves_ok _ _ _ _ Hmoves mv Hmv) as [_ [_ [d [Hd Hid]]]].
    apply In_active_hosts in Hd. destruct Hd as [Hd Hon].
    exists d. repeat split; assumption.
  - split; [exact Hmid|]. split; [|exact Hafter].
    intros h _ Hocc. apply shutdown_result_occupied. exact Hocc.
Qed.

(** *** The watermark monitor *)

Lemma fresh_cpu_cap : forall h : Host, fresh_up_to_status h -> cpu_cap h = 100.0%Q.
Proof. intros h H. rewrite H. reflexivity. Qed.

Lemma filter_is_on_active : forall hosts : list Host,
  filter is_on (active_hosts hosts) = active_hosts hosts.
Proof.
  intro hosts. unfold active_hosts. induction hosts as [|h hosts IH]; simpl.
  - reflexivity.
  - destruct (is_on h) eqn:E; simpl; [rewrite E, IH; reflexivity | exact IH].
Qed.

(** In a run, the monitor reports a breach exactly when some ON host's
    tally exceeds [cpu_cap * hi_watermark]. *)
Lemma watermark_breach_iff : forall (cfg : Config) (hosts : list Host) (vms : list VM)
  (hi : Q) (cpu mem : dict Q),
  hosts_wf cfg hosts ->
  loads_predicted (active_hosts hosts) vms = Ok (cpu, mem) ->
  any_high_watermark cpu (active_hosts hosts) hi = true <->
  exists h load, In h hosts /\ status h = ON /\
                 dict_get (h_id h) cpu = Some load /\ (cpu_cap h * hi < load)%Q.
Proof.
  intros cfg hosts vms hi cpu mem [Hids Hfresh] Hloads.
  destruct (loads_predicted_spec (active_hosts hosts) vms)
    as [cpu1 [mem1 [Hl1 [Hnd [_ [Hget _]]]]]].
  rewrite Hloads in Hl1. inversion Hl1; subst cpu1 mem1. clear Hl1.
  rewrite Forall_forall in Hfresh.
  unfold any_high_watermark. rewrite filter_is_on_active. rewrite existsb_exists. split.
  - intros [[k load] [Hin Hover]]. unfold over_watermark in Hover. simpl in Hover.
    apply andb_true_iff in Hover. destruct Hover as [Hpos Hgt].
    apply Qlt_bool_iff in Hpos. apply Qlt_bool_iff in Hgt.
    rewrite dict_get_dict_from in Hpos, Hgt.
    destruct (assoc_last k (map (fun h => (h_id h, cpu_cap h)) (active_hosts hosts)))
      as [c|] eqn:Ecap.
    + destruct (assoc_last_Some _ _ h_id cpu_cap k _ c Ecap) as [h [Hh [Hid Hc]]].
      apply In_active_hosts in Hh. destruct Hh as [Hh Hon].
      exists h, load. split; [exact Hh|]. split; [exact Hon|]. split.
      * rewrite Hid. apply In_dict_get; assumption.
      * rewrite Hc. exact Hgt.
    + exfalso. revert Hpos. apply Qle_not_lt. unfold Qle. simpl. lia.
  - intros [h [load [Hh [Hon [Hget_h Hgt]]]]].
    exists (h_id h, load). split; [apply dict_get_In; exact Hget_h|].
    unfold over_watermark. simpl. rewrite dict_get_dict_from.
    destruct (assoc_last (h_id h) (map (fun h => (h_id h, cpu_cap h)) (active_hosts hosts)))
      as [c|] eqn:Ecap.
    + destruct (assoc_last_Some _ _ h_id cpu_cap (h_id h) _ c Ecap) as [h' [Hh' [_ Hc]]].
      apply In_active_hosts in Hh'. destruct Hh' as [Hh' _].
      assert (Ec : c = cpu_cap h).
      { rewrite <- Hc. rewrite (fresh_cpu_cap h' (Hfresh h' Hh')).
        rewrite (fresh_cpu_cap h (Hfresh h Hh)). reflexivity. }
      rewrite Ec. apply andb_true_iff. split; apply Qlt_bool_iff; [|exact Hgt].
      rewrite (fresh_cpu_cap h (Hfresh h Hh)). reflexivity.
    + exfalso. apply (assoc_last_None _ _ h_id cpu_cap (h_id h) _ Ecap h); [|reflexivity].
      apply In_active_hosts. split; assumption.
Qed.

(** A key whose capacity is missing or not positive never counts. *)
Lemma nonpositive_cap_no_breach : forall (loads : dict Q) (on : list Host) (hi : Q),
  (forall k load, In (k, load) loads ->
     match dict_get k (dict_from (map (fun h => (h_id h, cpu_cap h)) (filter is_on on))) with
     | Some c => (c <= 0)%Q
     | None => True
     end) ->
  any_high_watermark loads on hi = false.
Proof.
  intros loads on hi H. unfold any_high_watermark.
  destruct (existsb _ loads) eqn:E; [|reflexivity]. exfalso.
  apply existsb_exists in E. destruct E as [[k load] [Hin Hover]].
  specialize (H k load Hin). unfold over_watermark in Hover. simpl in Hover.
  apply andb_true_iff in Hover. destruct Hover as [Hpos _]. apply Qlt_bool_iff in Hpos.
  destruct (dict_get k _) as [c|].
  - apply (Qlt_not_le _ _ Hpos). exact H.
  - revert Hpos. apply Qle_not_lt. unfold Qle. simpl. lia.
Qed.

(** The monitor, key by key: a breach is reported exactly when some key of
    the load dict has a capacity recorded for it, that capacity is positive
    and the key's load exceeds [capacity * hi]. *)
Lemma watermark_breach_keys : forall (loads : dict Q) (on : list Host) (hi : Q),
  any_high_watermark loads on hi = true <->
  exists (k : Z) (load c : Q),
    In (k, load) loads /\ dict_get k (watermark_caps on) = Some c /\
    (0 < c)%Q /\ (c * hi < load)%Q.
Proof.
  intros loads on hi. unfold any_high_watermark. fold (watermark_caps on).
  rewrite existsb_exists. split.
  - intros [[k load] [Hin Hover]]. unfold over_watermark in Hover. simpl in Hover.
    apply andb_true_iff in Hover. destruct Hover as [Hpos Hgt].
    apply Qlt_bool_iff in Hpos. apply Qlt_bool_iff in Hgt.
    destruct (dict_get k (watermark_caps on)) as [c|] eqn:E.
    + exists k, load, c. split; [exact Hin|]. split; [exact E|]. split; assumption.
    + exfalso. revert Hpos. apply Qle_not_lt. unfold Qle. simpl. lia.
  - intros [k [load [c [Hin [Hget [Hpos Hgt]]]]]]. exists (k, load). split; [exact Hin|].
    unfold over_watermark. simpl. rewrite Hget.
    apply andb_true_iff. split; apply Qlt_bool_iff; assumption.
Qed.

(** Every breach comes from an ON host of positive capacity. *)
Lemma watermark_breach_host : forall (loads : dict Q) (on : list Host) (hi : Q),
  any_high_watermark loads on hi = true ->
  exists (h : Host) (load : Q),
    In h on /\ status h = ON /\ In (h_id h, load) loads /\
    (0 < cpu_cap h)%Q /\ (cpu_cap h * hi < load)%Q.
Proof.
  intros loads on hi H. apply watermark_breach_keys in H.
  destruct H as [k [load [c [Hin [Hget [Hpos Hgt]]]]]].
  unfold watermark_caps in Hget. rewrite dict_get_dict_from in Hget.
  destruct (assoc_last_Some _ _ h_id cpu_cap k _ c Hget) as [h [Hh [Hid Hc]]].
  apply filter_In in Hh. destruct Hh as [Hh Hon].
  exists h, load. split; [exact Hh|]. split.
  - unfold is_on in Hon. destruct (status h); [reflexivity | discriminate Hon].
  - rewrite Hid, Hc. split; [exact Hin|]. split; assumption.
Qed.

(** C6.  In every cycle of a run the loads are recomputed after the shutdown
    step, one tally of [pred_cpu] per ON host; the breach counter goes up by
    exactly one when some ON host's tally exceeds [cpu_cap * hi_watermark],
    however many do, and stays as it is when none does.  And for any load
    dict and host list, [any_high_watermark] reports a breach exactly when
    some key has a recorded capacity that is positive and a load above
    [capacity * hi_watermark]: a key whose capacity is missing, zero or
    negative never produces a breach, whatever its load and whatever the
    other keys hold, and every breach comes from an ON host of positive
    capacity. *)
Theorem breach_counted_once_per_cycle :
  forall (cfg : Config) (earlier : list Z) (t : Z) (st0 st st' : SimState Rng),
    init_state rng_seed rng_random cfg = Ok st0 ->
    run_cycles rng_random sin24 earlier st0 = Ok st ->
    cycle rng_random sin24 t st = Ok st' ->
    (exists cpu mem : dict Q,
       loads_predicted (active_hosts (st_hosts st')) (st_vms st') = Ok (cpu, mem) /\
       (forall h, In h (st_hosts st') -> status h = ON ->
          dict_get (h_id h) cpu = Some (tally pred_cpu (h_id h) (st_vms st') 0.0)) /\
       ((total_breaches st' = (total_breaches st + 1)%Z /\
         exists h load, In h (st_hosts st') /\ status h = ON /\
           dict_get (h_id h) cpu = Some load /\
           (cpu_cap h * hi_watermark (st_cfg st) < load)%Q) \/
        (total_breaches st' = total_breaches st /\
         forall h load, In h (st_hosts st') -> status h = ON ->
           dict_get (h_id h) cpu = Some load ->
           (load <= cpu_cap h * hi_watermark (st_cfg st))%Q))) /\
    (forall (loads : dict Q) (on : list Host) (hi : Q),
       (any_high_watermark loads on hi = true <->
        exists (k : Z) (load c : Q),
          In (k, load) loads /\ dict_get k (watermark_caps on) = Some c /\
          (0 < c)%Q /\ (c * hi < load)%Q) /\
       (any_high_watermark loads on hi = true ->
        exists (h : Host) (load : Q),
          In h on /\ status h = ON /\ In (h_id h, load) loads /\
          (0 < cpu_cap h)%Q /\ (cpu_cap h * hi < load)%Q)).
Proof.
  intros cfg earlier t st0 st st' Hinit Hrun Hc.
  split; [|intros loads on hi; split;
           [apply watermark_breach_keys | apply watermark_breach_host]].
  destruct (init_state_wf _ _ Hinit) as [_ [Hwf0 _]].
  destruct (run_cycles_state_wf _ _ _ _ Hwf0 Hrun) as [Hwf _].
  pose proof (cycle_state_wf _ _ _ _ Hwf Hc) as [Hhosts' _].
  apply cycle_Ok in Hc.
  destruct Hc as [vms [g [ps [vms' [breach [_ [_ [Hbreach ->]]]]]]]].
  simpl in *. unfold breach_check in Hbreach. bind_inv Hbreach.
  destruct a as [cpu mem].
  assert (Hb : any_high_watermark cpu
                 (active_hosts (map (shutdown_result vms') (st_hosts st)))
                 (hi_watermark (st_cfg st)) = breach)
    by (inversion Hbreach; reflexivity).
  clear Hbreach.
  exists cpu, mem. split; [exact Hbind|]. split.
  - intros h Hh Hon.
    destruct (loads_predicted_spec (active_hosts (map (shutdown_result vms') (st_hosts st))) vms')
      as [cpu1 [mem1 [Hl1 [_ [_ [Hget _]]]]]].
    rewrite Hbind in Hl1. inversion Hl1; subst cpu1 mem1.
    rewrite Hget, filter_is_on_active.
    assert (Hex : existsb (fun h0 => (h_id h0 =? h_id h)%Z)
                    (active_hosts (map (shutdown_result vms') (st_hosts st))) = true).
    { apply existsb_id_In. exists h. split; [|reflexivity].
      apply In_active_hosts. split; assumption. }
    rewrite Hex. reflexivity.
  - pose proof (watermark_breach_iff cfg _ vms' (hi_watermark (st_cfg st)) cpu mem
                  Hhosts' Hbind) as Hiff.
    rewrite Hb in Hiff. destruct breach.
    + left. split; [reflexivity|]. apply Hiff. reflexivity.
    + right. split; [reflexivity|]. intros h load Hh Hon Hget.
      apply Qnot_lt_le. intro Hgt.
      assert (Habs : false = true).
      { apply Hiff. exists h, load. repeat split; assumption. }
      discriminate Habs.
Qed.

(** *** Whole runs *)

Lemma summarize_Ok : forall (st : SimState Rng) (s : Summary),
  summarize st = Ok s ->
  energy_kwh_total s = py_round (total_kwh st) 3 /\
  migrations_total s = total_migrations st /\
  hosts_off_final s = Z.of_nat (length (off_hosts (st_hosts st))) /\
  hi_watermark_breaches s = total_breaches st /\
  final_target_util s = py_round (target_util (st_cfg st)) 3.
Proof.
  intros st s H. unfold summarize in H. bind_inv H. destruct a as [cpu mem].
  bind_inv H. inversion H; subst. simpl. repeat split; reflexivity.
Qed.





(** *** A run does not raise *)

Lemma index_m1_total : forall xs : list Q,
  (1 <= length xs)%nat -> exists x, index_m1 xs = Ok x.
Proof.
  intros xs H. unfold index_m1. rewrite <- length_rev in H.
  destruct (rev xs) as [|x rest]; [simpl in H; lia|]. exists x. reflexivity.
Qed.

Lemma index_m2_total : forall xs : list Q,
  (2 <= length xs)%nat -> exists x, index_m2 xs = Ok x.
Proof.
  intros xs H. unfold index_m2. rewrite <- length_rev in H.
  destruct (rev xs) as [|x [|y rest]]; simpl in H; try lia. exists y. reflexivity.
Qed.

Lemma update_usage_total : forall (t : Z) (vms : list VM) (g : Rng),
  Forall vm_wf vms ->
  exists out g', update_usage rng_random sin24 t vms g = Ok (out, g').
Proof.
  intros t vms. induction vms as [|vm vms IH]; intros g Hwf; simpl.
  - exists [], g. reflexivity.
  - inversion Hwf as [|? ? [Hc Hm] Hrest]; subst.
    destruct (synth_drift rng_random sin24 t g) as [d g1].
    destruct (index_m1_total (cpu_use_hist vm)) as [c Ec]; [lia|].
    destruct (index_m1_total (mem_use_hist vm)) as [m Em]; [lia|].
    rewrite Ec, Em. simpl. destruct (IH g1 Hrest) as [out [g' E]]. rewrite E. simpl.
    eexists. eexists. reflexivity.
Qed.

Lemma predict_ema_total : forall (vm : VM) (al : Q),
  vm_wf vm -> exists vm', predict_ema vm al = Ok vm'.
Proof.
  intros vm al [Hc Hm]. unfold predict_ema.
  destruct (index_m1_total (cpu_use_hist vm)) as [c1 E1]; [lia|].
  destruct (index_m2_total (cpu_use_hist vm) Hc) as [c2 E2].
  destruct (index_m1_total (mem_use_hist vm)) as [m1 E3]; [lia|].
  destruct (index_m2_total (mem_use_hist vm) Hm) as [m2 E4].
  rewrite E1, E2, E3, E4. simpl. eexists. reflexivity.
Qed.

Lemma mapM_total : forall (A B : Type) (f : A -> result B) (xs : list A),
  Forall (fun x => exists y, f x = Ok y) xs -> exists ys, mapM f xs = Ok ys.
Proof.
  intros A B f xs H. induction H as [|x xs [y Hy] H [ys IH]]; simpl.
  - exists []. reflexivity.
  - rewrite Hy, IH. simpl. eexists. reflexivity.
Qed.

Lemma observe_predict_total : forall (t : Z) (st : SimState Rng),
  Forall vm_wf (st_vms st) ->
  exists vms g, observe_predict rng_random sin24 t st = Ok (vms, g).
Proof.
  intros t st Hwf. unfold observe_predict.
  destruct (update_usage_total t (st_vms st) (st_rng st) Hwf) as [out [g E]].
  rewrite E. simpl.
  destruct (mapM_total _ _ (fun vm => predict_ema vm (alpha (st_cfg st))) out) as [vms Ev].
  - apply Forall_forall. intros vm Hvm.
    destruct (Forall2_In_r _ _ _ _ _ (update_usage_observed _ _ _ _ _ E) vm Hvm)
      as [a [Ha [_ [_ [Hc Hm]]]]].
    rewrite Forall_forall in Hwf. destruct (Hwf a Ha) as [Hc0 Hm0].
    apply predict_ema_total. split; lia.
  - rewrite Ev. simpl. exists vms, g. reflexivity.
Qed.

Lemma first_fit_total : forall (vm : VM) (on : list Host) (cpu mem : dict Q) (tu : Q),
  (forall h, In h on -> dict_mem (h_id h) cpu = true /\ dict_mem (h_id h) mem = true) ->
  exists r, first_fit vm on cpu mem tu = Ok r.
Proof.
  intros vm on cpu mem tu. induction on as [|h rest IH]; intro Hkeys; simpl.
  - exists None. reflexivity.
  - destruct (Hkeys h (or_introl eq_refl)) as [Hc Hm]. unfold dict_mem in Hc, Hm.
    unfold dict_lookup.
    destruct (dict_get (h_id h) cpu) as [c|]; [|discriminate Hc].
    destruct (dict_get (h_id h) mem) as [m|]; [|discriminate Hm]. simpl.
    assert (Hrest : exists r, first_fit vm rest cpu mem tu = Ok r).
    { apply IH. intros h' Hh'. apply Hkeys. right. exact Hh'. }
    destruct (Qle_bool (c + pred_cpu vm) (cpu_cap h * tu)); [|exact Hrest]. simpl.
    destruct (Qle_bool (m + pred_mem vm) (mem_cap h * tu)); [|exact Hrest].
    eexists. reflexivity.
Qed.

Lemma dict_mem_set : forall (V : Type) (k k' : Z) (v : V) (d : dict V),
  dict_mem k' d = true -> dict_mem k' (dict_set k v d) = true.
Proof.
  intros V k k' v d H. unfold dict_mem in *. rewrite dict_get_set.
  destruct (k =? k')%Z; [reflexivity | exact H].
Qed.

Lemma plan_loop_total : forall (on : list Host) (tu : Q) (cands : list VM) (ps : PlanState),
  (forall h, In h on ->
     dict_mem (h_id h) (cpu_loads ps) = true /\ dict_mem (h_id h) (mem_loads ps) = true) ->
  exists ps', foldM (plan_step on tu) cands ps = Ok ps'.
Proof.
  intros on tu cands. induction cands as [|vm cands IH]; intros ps Hkeys; simpl.
  - exists ps. reflexivity.
  - assert (Hstep : exists ps1, plan_step on tu ps vm = Ok ps1).
    { unfold plan_step.
      destruct (first_fit_total vm on (cpu_loads ps) (mem_loads ps) tu Hkeys) as [r Er].
      rewrite Er. simpl. destruct r as [d|]; [|eexists; reflexivity].
      destruct (negb (h_id d =? host_id vm)%Z); [|eexists; reflexivity].
      destruct (first_fit_Some _ _ _ _ _ _ Er) as [_ [c [m [Hc [Hm _]]]]].
      unfold dict_add, dict_lookup. rewrite Hc, Hm. simpl. eexists. reflexivity. }
    destruct Hstep as [ps1 E1]. rewrite E1. simpl. apply IH.
    destruct (plan_step_cases _ _ _ _ _ E1)
      as [->|[d [c [m [_ [_ [_ [_ [_ [_ ->]]]]]]]]]]; [exact Hkeys|].
    simpl. intros h Hh. destruct (Hkeys h Hh) as [Hc Hm].
    split; apply dict_mem_set; assumption.
Qed.

Lemma plan_moves_total : forall (cfg : Config) (hosts : list Host) (vms : list VM),
  exists ps, plan_moves cfg (active_hosts hosts) vms = Ok ps.
Proof.
  intros cfg hosts vms. unfold plan_moves, plan_init.
  destruct (loads_predicted_spec (active_hosts hosts) vms)
    as [cpu [mem [Hl [_ [_ [Hc Hm]]]]]].
  rewrite Hl. simpl. apply plan_loop_total. simpl. intros h Hh.
  assert (Hex : existsb (fun h0 => (h_id h0 =? h_id h)%Z)
                  (filter is_on (active_hosts hosts)) = true).
  { rewrite filter_is_on_active. apply existsb_id_In. exists h. auto. }
  unfold dict_mem. rewrite Hc, Hm, Hex. auto.
Qed.

Lemma list_update_length : forall (A : Type) (n : nat) (f : A -> A) (xs : list A),
  length (list_update n f xs) = length xs.
Proof.
  intros A n f xs. revert n. induction xs as [|x xs IH]; intro n.
  - destruct n; reflexivity.
  - destruct n; simpl; [reflexivity | f_equal; apply IH].
Qed.

Lemma execute_total : forall (moves : list Move) (vms : list VM),
  (forall mv, In mv moves -> (0 <= fst (fst mv) < Z.of_nat (length vms))%Z) ->
  exists vms', execute moves vms = Ok vms'.
Proof.
  intros moves. unfold execute. induction moves as [|[[vm_id src] dst] moves IH];
    intros vms Hidx; simpl.
  - exists vms. reflexivity.
  - pose proof (Hidx _ (or_introl eq_refl)) as H0. simpl in H0.
    unfold py_index.
    assert (E : ((0 <=? vm_id) && (vm_id <? Z.of_nat (length vms)))%Z = true).
    { apply andb_true_iff. split; [apply Z.leb_le | apply Z.ltb_lt]; lia. }
    rewrite E. simpl. apply IH. intros mv Hmv. rewrite list_update_length.
    apply Hidx. right. exact Hmv.
Qed.

Lemma cycle_total : forall (cfg : Config) (t : Z) (st : SimState Rng),
  state_wf cfg st -> exists st', cycle rng_random sin24 t st = Ok st'.
Proof.
  intros cfg t st [Hhosts [[Hids Hvwf] Hcfg]]. unfold cycle, cycle_plan.
  destruct (observe_predict_total t st Hvwf) as [vms [g Eobs]]. rewrite Eobs. simpl.
  destruct (plan_moves_total (st_cfg st) (st_hosts st) vms) as [ps Eplan].
  rewrite Eplan. simpl.
  pose proof (observe_predict_observed _ _ _ _ Eobs) as Hobserved.
  assert (Hv : map v_id vms = range (n_vms cfg)).
  { rewrite <- Hids. apply (Forall2_map_eq _ _ _ observed v_id v_id); [|exact Hobserved].
    intros x y [E _]. exact E. }
  destruct (execute_total (plan ps) vms) as [vms' Eexec].
  { intros mv Hmv.
    destruct (plan_moves_ok _ _ _ _ Eplan mv Hmv) as [_ [[vm [Hvm [Hid _]]] _]].
    rewrite <- Hid.
    assert (Hin : In (v_id vm) (range (n_vms cfg))).
    { rewrite <- Hv. apply in_map. exact Hvm. }
    apply In_range in Hin.
    assert (Hlen : length vms = Z.to_nat (n_vms cfg)).
    { rewrite <- (length_map v_id), Hv. apply range_length. }
    lia. }
  rewrite Eexec. simpl. rewrite shutdown_map. simpl. unfold breach_check.
  destruct (loads_predicted_spec
              (active_hosts (map (shutdown_result vms') (st_hosts st))) vms')
    as [cpu [mem [El _]]].
  rewrite El. simpl. destruct (any_high_watermark _ _ _); eexists; reflexivity.
Qed.

Lemma run_cycles_total : forall (cfg : Config) (ts : list Z) (st : SimState Rng),
  state_wf cfg st -> exists st', run_cycles rng_random sin24 ts st = Ok st'.
Proof.
  intros cfg ts. induction ts as [|t ts IH]; intros st Hwf.
  - exists st. reflexivity.
  - destruct (cycle_total cfg t st Hwf) as [st1 E1].
    destruct (IH st1 (cycle_state_wf _ _ _ _ Hwf E1)) as [st' E'].
    exists st'. unfold run_cycles in *. simpl. rewrite E1. simpl. exact E'.
Qed.

Lemma utils_of_total : forall (caps cpu : dict Q),
  (forall k load, In (k, load) cpu -> dict_get k caps <> None) ->
  exists us, utils_of caps cpu = Ok us.
Proof.
  intros caps cpu. induction cpu as [|[k load] cpu IH]; intro H; simpl.
  - exists []. reflexivity.
  - unfold dict_lookup. pose proof (H k load (or_introl eq_refl)) as Hk.
    destruct (dict_get k caps) as [cap|]; [|contradiction]. simpl.
    destruct IH as [us E]; [intros k' l' Hin; apply (H k' l'); right; exact Hin|].
    rewrite E. simpl. destruct (Qlt_bool 0 cap); eexists; reflexivity.
Qed.

Lemma summarize_total : forall st : SimState Rng, exists s, summarize st = Ok s.
Proof.
  intro st. unfold summarize.
  destruct (loads_predicted_spec (active_hosts (st_hosts st)) (st_vms st))
    as [cpu [mem [El [_ [_ [Hc _]]]]]].
  rewrite El. simpl.
  destruct (utils_of_total
              (dict_from (map (fun h => (h_id h, cpu_cap h)) (active_hosts (st_hosts st))))
              cpu) as [us Eu].
  - intros k load Hin Hnone. rewrite dict_get_dict_from in Hnone.
    assert (Hk : dict_get k cpu <> None).
    { intro E. apply dict_get_None in E. apply E. unfold dict_keys.
      change k with (fst (k, load)). apply in_map. exact Hin. }
    rewrite Hc, filter_is_on_active in Hk.
    destruct (existsb (fun h => (h_id h =? k)%Z) (active_hosts (st_hosts st))) eqn:Ex;
      [|apply Hk; reflexivity].
    apply existsb_id_In in Ex. destruct Ex as [h [Hh Hid]].
    exact (assoc_last_None _ _ h_id cpu_cap k _ Hnone h Hh Hid).
  - rewrite Eu. simpl. eexists. reflexivity.
Qed.

Lemma init_vms_total : forall (ids : list Z) (nh : Z) (g : Rng),
  nh <> 0%Z -> exists vms g', init_vms rng_random ids nh g = Ok (vms, g').
Proof.
  intros ids nh. induction ids as [|i ids IH]; intros g Hnh; simpl.
  - exists [], g. reflexivity.
  - unfold py_mod. destruct (nh =? 0)%Z eqn:E; [apply Z.eqb_eq in E; contradiction|].
    simpl. destruct (uniform rng_random 10.0 60.0 g) as [c g1].
    destruct (IH g1 Hnh) as [vms [g' E']]. rewrite E'. simpl.
    eexists. eexists. reflexivity.
Qed.

(** [simulate] returns its record for every configuration but those with no
    host and at least one VM, on which the round-robin assignment divides by
    zero. *)
Lemma simulate_total : forall (cfg : Config) (g0 : Rng),
  (n_hosts cfg <> 0 \/ n_vms cfg <= 0)%Z ->
  exists s cfg' g', simulate rng_seed rng_random sin24 cfg g0 = Ok (s, cfg', g').
Proof.
  intros cfg g0 Hvalid. unfold simulate.
  assert (Hinit : exists st0, init_state rng_seed rng_random cfg = Ok st0).
  { unfold init_state. destruct Hvalid as [Hnh|Hnv].
    - destruct (init_vms_total (range (n_vms cfg)) (n_hosts cfg) (rng_seed (seed cfg)) Hnh)
        as [vms [g E]].
      rewrite E. simpl. eexists. reflexivity.
    - unfold range. replace (Z.to_nat (n_vms cfg)) with O by lia. simpl.
      eexists. reflexivity. }
  destruct Hinit as [st0 E0]. rewrite E0. simpl.
  destruct (init_state_wf _ _ E0) as [_ [Hwf0 _]].
  destruct (run_cycles_total cfg (range (cycles cfg)) st0 Hwf0) as [st E]. rewrite E. simpl.
  destruct (summarize_total st) as [s Es]. rewrite Es. simpl.
  eexists. eexists. eexists. reflexivity.
Qed.

Lemma simulate_no_hosts : forall (cfg : Config) (g0 : Rng),
  n_hosts cfg = 0%Z -> (0 < n_vms cfg)%Z ->
  simulate rng_seed rng_random sin24 cfg g0 = Raise ZeroDivisionError.
Proof.
  intros cfg g0 Hnh Hnv. unfold simulate, init_state, range. rewrite Hnh.
  destruct (Z.to_nat (n_vms cfg)) as [|n] eqn:E; [lia|]. reflexivity.
Qed.

End CycleProperties.

(** ** The summary record *)

Lemma round_half_even_integer : forall (x : Q) (z : Z),
  (x == inject_Z z)%Q -> round_half_even x = z.
Proof.
  intros x z H. unfold round_half_even.
  rewrite (Qfloor_comp _ _ H), Qfloor_Z.
  assert (E : Qlt_bool (x - inject_Z z) (1 # 2) = true).
  { apply Qlt_bool_iff. rewrite H. lra. }
  rewrite E. reflexivity.
Qed.

(** Rounding a rounded value changes nothing. *)
Lemma py_round_rounded : forall (x : Q) (n : nat), rounded_to n (py_round x n).
Proof.
  intros x n. unfold rounded_to, py_round.
  set (p := Z.to_pos (10 ^ Z.of_nat n)).
  set (z := round_half_even (x * inject_Z (Z.pos p))).
  rewrite (round_half_even_integer ((z # p) * inject_Z (Z.pos p)) z); [reflexivity|].
  unfold Qeq, Qmult, inject_Z. simpl. rewrite Pos.mul_1_r. ring.
Qed.

(** The fields the source passes through [round] directly; the
    95th-percentile field has two branches, and only the one for twenty or
    more utilization figures rounds. *)
Lemma summary_rounded_fields : forall (Rng : Type) (st : SimState Rng) (s : Summary),
  summarize st = Ok s ->
  rounded_to 3 (energy_kwh_total s) /\
  rounded_to 3 (final_target_util s) /\
  rounded_to 4 (util_mean_final s).
Proof.
  intros Rng st s H. unfold summarize in H. bind_inv H. destruct a as [cpu mem].
  bind_inv H. rename a into utils. inversion H; subst. simpl.
  split; [apply py_round_rounded|]. split; [apply py_round_rounded|].
  destruct utils; [reflexivity | apply py_round_rounded].
Qed.

(** C3.  The two-host run ends with one host ON, so the 95th-percentile
    field takes the fallback [max(utils)]: the record's [util_p95_final] is
    not rounded to 4 decimal places, while [util_mean_final] is and
    [energy_kwh_total] and [final_target_util] are rounded to 3. *)
Theorem util_p95_fallback_not_rounded :
  simulate sample_seed sample_random sin24_table two_host_config 0%Z = Ok two_host_result /\
  hosts_off_final (fst (fst two_host_result)) = 1%Z /\
  ~ rounded_to 4 (util_p95_final (fst (fst two_host_result))) /\
  rounded_to 4 (util_mean_final (fst (fst two_host_result))) /\
  rounded_to 3 (energy_kwh_total (fst (fst two_host_result))) /\
  rounded_to 3 (final_target_util (fst (fst two_host_result))).
Proof.
  split; [vm_compute; reflexivity|]. split; [reflexivity|].
  split; [intro H; vm_compute in H; discriminate H|].
  repeat split; vm_compute; reflexivity.
Qed.

(** ** The properties on the sample runs *)

Lemma two_host_cycle_plan :
  cycle_plan sample_random sin24_table 0 two_host_state0
  = Ok (two_host_vms, two_host_rng, two_host_plan).
Proof. vm_compute. reflexivity. Qed.

Lemma two_host_observe :
  observe_predict sample_random sin24_table 0 two_host_state0
  = Ok (two_host_vms, two_host_rng).
Proof. vm_compute. reflexivity. Qed.

Lemma two_host_cycle0 :
  cycle sample_random sin24_table 0 two_host_state0 = Ok two_host_state1.
Proof. vm_compute. reflexivity. Qed.

Lemma two_host_init :
  init_state sample_seed sample_random two_host_config = Ok two_host_state0.
Proof. vm_compute. reflexivity. Qed.

Lemma crowded_init :
  init_state sample_seed sample_random crowded_default_config = Ok crowded_state0.
Proof. vm_compute. reflexivity. Qed.

Lemma crowded_cycle0 :
  cycle sample_random sin24_table 0 crowded_state0 = Ok crowded_state1.
Proof. vm_compute. reflexivity. Qed.

(** In the two-host run the one planned move takes VM 1 from host 1 to
    host 0. *)
Lemma planner_emits_no_noop_move_witness :
  cycle_plan sample_random sin24_table 0 two_host_state0
    = Ok (two_host_vms, two_host_rng, two_host_plan) /\
  In (1, 1, 0)%Z (plan two_host_plan) /\
  (0 <> 1)%Z.
Proof.
  assert (H2 : In (1, 1, 0)%Z (plan two_host_plan)) by (left; reflexivity).
  split; [exact two_host_cycle_plan|]. split; [exact H2|].
  exact (proj1 (planner_emits_no_noop_move Z sample_random sin24_table 0 two_host_state0
                  two_host_vms two_host_rng two_host_plan 1 1 0
                  two_host_cycle_plan H2)).
Defined.

(** The accepted move of the two-host run leaves host 0 within its target. *)
Lemma accepted_move_respects_target_witness :
  plan_init (active_hosts (st_hosts two_host_state0)) two_host_vms = Ok two_host_plan0 /\
  candidates (st_cfg two_host_state0) two_host_vms = [] ++ two_host_candidate :: [] /\
  plan_step (active_hosts (st_hosts two_host_state0)) (target_util (st_cfg two_host_state0))
            two_host_plan0 two_host_candidate = Ok two_host_plan /\
  (forall h, In h (active_hosts (st_hosts two_host_state0)) ->
     dict_get (h_id h) (cpu_loads two_host_plan0)
       = Some (tally pred_cpu (h_id h) two_host_vms 0.0) /\
     dict_get (h_id h) (mem_loads two_host_plan0)
       = Some (tally pred_mem (h_id h) two_host_vms 0.0)) /\
  exists (d : Host) (c m : Q),
    In d (active_hosts (st_hosts two_host_state0)) /\
    plan two_host_plan
      = plan two_host_plan0 ++ [(v_id two_host_candidate, host_id two_host_candidate, h_id d)] /\
    dict_get (h_id d) (cpu_loads two_host_plan0) = Some c /\
    dict_get (h_id d) (mem_loads two_host_plan0) = Some m /\
    dict_get (h_id d) (cpu_loads two_host_plan) = Some (c + pred_cpu two_host_candidate)%Q /\
    dict_get (h_id d) (mem_loads two_host_plan) = Some (m + pred_mem two_host_candidate)%Q /\
    (c + pred_cpu two_host_candidate <= cpu_cap d * target_util (st_cfg two_host_state0))%Q /\
    (m + pred_mem two_host_candidate <= mem_cap d * target_util (st_cfg two_host_state0))%Q.
Proof.
  assert (H2 : plan_init (active_hosts (st_hosts two_host_state0)) two_host_vms
               = Ok two_host_plan0) by (vm_compute; reflexivity).
  assert (H3 : candidates (st_cfg two_host_state0) two_host_vms
               = [] ++ two_host_candidate :: []) by (vm_compute; reflexivity).
  assert (H4 : foldM (plan_step (active_hosts (st_hosts two_host_state0))
                                (target_util (st_cfg two_host_state0)))
                     [] two_host_plan0 = Ok two_host_plan0) by reflexivity.
  assert (H5 : plan_step (active_hosts (st_hosts two_host_state0))
                         (target_util (st_cfg two_host_state0))
                         two_host_plan0 two_host_candidate = Ok two_host_plan)
    by (vm_compute; reflexivity).
  assert (H6 : plan two_host_plan <> plan two_host_plan0)
    by (intro H; vm_compute in H; discriminate H).
  pose proof (accepted_move_respects_target Z sample_random sin24_table 0 two_host_state0
                two_host_vms two_host_rng two_host_plan0 two_host_plan0 two_host_plan
                [] [] two_host_candidate two_host_observe H2 H3 H4 H5 H6)
    as [_ [Hseed [_ [_ [_ Hmove]]]]].
  split; [exact H2|]. split; [exact H3|]. split; [exact H5|].
  split; [exact Hseed | exact Hmove].
Defined.

(** The predictions the planner reads in the two-host run. *)
Lemma predictions_fresh_before_planning_witness :
  observe_predict sample_random sin24_table 0 two_host_state0
    = Ok (two_host_vms, two_host_rng) /\
  Forall2 (predicted (alpha (st_cfg two_host_state0)))
          (st_vms two_host_state0) two_host_vms /\
  forall vm, In vm two_host_vms ->
    exists c1 c2 m1 m2,
      index_m1 (cpu_use_hist vm) = Ok c1 /\ index_m2 (cpu_use_hist vm) = Ok c2 /\
      index_m1 (mem_use_hist vm) = Ok m1 /\ index_m2 (mem_use_hist vm) = Ok m2 /\
      pred_cpu vm = (alpha (st_cfg two_host_state0) * c1
                     + (1 - alpha (st_cfg two_host_state0)) * c2)%Q /\
      pred_mem vm = (alpha (st_cfg two_host_state0) * m1
                     + (1 - alpha (st_cfg two_host_state0)) * m2)%Q.
Proof.
  pose proof (predictions_fresh_before_planning Z sample_random sin24_table 0
                two_host_state0 two_host_vms two_host_rng two_host_observe)
    as [Hall [Hfresh _]].
  split; [exact two_host_observe|]. split; [exact Hall | exact Hfresh].
Defined.

(** Host 1 of the two-host run goes OFF in the first cycle and is OFF after
    the next. *)
Lemma off_hosts_stay_off_witness :
  cycle sample_random sin24_table 0 two_host_state0 = Ok two_host_state1 /\
  run_cycles sample_random sin24_table [1%Z] two_host_state1 = Ok two_host_state2 /\
  nth_error (st_hosts two_host_state0) 1 = Some (new_host 1) /\
  exists h1 h2 : Host,
    nth_error (st_hosts two_host_state1) 1 = Some h1 /\
    nth_error (st_hosts two_host_state2) 1 = Some h2 /\
    h1 = set_status (new_host 1) (status h1) /\
    h_id h2 = h_id (new_host 1) /\
    (status (new_host 1) = OFF -> status h1 = OFF) /\
    (status (new_host 1) = ON ->
       (status h1 = OFF <->
        forall vm, In vm (st_vms two_host_state1) -> host_id vm <> h_id (new_host 1))) /\
    (status h1 = OFF -> status h2 = OFF).
Proof.
  assert (H2 : run_cycles sample_random sin24_table [1%Z] two_host_state1
               = Ok two_host_state2) by (vm_compute; reflexivity).
  assert (H3 : nth_error (st_hosts two_host_state0) 1 = Some (new_host 1))
    by reflexivity.
  split; [exact two_host_cycle0|]. split; [exact H2|]. split; [exact H3|].
  exact (off_hosts_stay_off Z sample_random sin24_table 0 [1%Z]
           two_host_state0 two_host_state1 two_host_state2 1 (new_host 1)
           two_host_cycle0 H2 H3).
Defined.

(** The first cycle of the two-host run credits the idle power of host 1. *)
Lemma cycle_energy_from_off_hosts_witness :
  cycle sample_random sin24_table 0 two_host_state0 = Ok two_host_state1 /\
  (total_kwh two_host_state1
   == total_kwh two_host_state0
      + off_power_total (st_hosts two_host_state1)
        * dt_hours (st_cfg two_host_state0) / 1000.0)%Q /\
  (off_power_total (st_hosts two_host_state1) == 120)%Q /\
  (total_kwh two_host_state1 == 0.12)%Q.
Proof.
  split; [exact two_host_cycle0|].
  split; [|split; reflexivity].
  exact (proj1 (proj2 (cycle_energy_from_off_hosts Z sample_random sin24_table 0
                         two_host_state0 two_host_state1 two_host_cycle0))).
Defined.

(** The crowded run with the default target: one breach, 0.80 goes to
    0.78. *)
Lemma crowded_target_util_steps_down :
  (0.70 <= target_util crowded_default_config)%Q /\
  init_state sample_seed sample_random crowded_default_config = Ok crowded_state0 /\
  cycle sample_random sin24_table 0 crowded_state0 = Ok crowded_state1 /\
  (target_util (st_cfg crowded_state1) <= target_util (st_cfg crowded_state0))%Q /\
  (0.70 <= target_util (st_cfg crowded_state1))%Q.
Proof.
  assert (H1 : (0.70 <= target_util crowded_default_config)%Q)
    by (unfold Qle; simpl; lia).
  assert (H3 : run_cycles sample_random sin24_table [] crowded_state0 = Ok crowded_state0)
    by reflexivity.
  pose proof (target_util_never_rises_from_above_floor Z sample_seed sample_random
                sin24_table crowded_default_config [] 0 crowded_state0 crowded_state0
                crowded_state1 H1 crowded_init H3 crowded_cycle0) as [Ha [_ [Hb _]]].
  split; [exact H1|]. split; [exact crowded_init|]. split; [exact crowded_cycle0|].
  split; [exact Ha | exact Hb].
Defined.

(** C1.  The controller's step is meant to lower [target_util] and to stop
    at 0.70, but its clamp [max(0.70, ...)] also applies to a target that is
    already below 0.70: configured with [target_util = 0.50], the crowded run
    breaches in its first cycle and the step raises the target from 0.50 to
    0.70.  So [target_util] increases between two consecutive cycles, and
    before that cycle it is below the floor. *)
Theorem target_util_rises_from_below_floor :
  init_state sample_seed sample_random crowded_config = Ok crowded_low_state0 /\
  cycle sample_random sin24_table 0 crowded_low_state0 = Ok crowded_low_state1 /\
  ~ (target_util (st_cfg crowded_low_state1) <= target_util (st_cfg crowded_low_state0))%Q /\
  ~ (0.70 <= target_util (st_cfg crowded_low_state0))%Q.
Proof.
  split; [vm_compute; reflexivity|]. split; [vm_compute; reflexivity|].
  split; intro H; vm_compute in H; apply H; reflexivity.
Qed.

(** Every VM of the two-host run sits on an ON host at each point of the
    first cycle. *)
Lemma vms_always_on_active_hosts_witness :
  (0 <= n_hosts two_host_config)%Z /\
  init_state sample_seed sample_random two_host_config = Ok two_host_state0 /\
  cycle_plan sample_random sin24_table 0 two_host_state0
    = Ok (two_host_vms, two_host_rng, two_host_plan) /\
  execute (plan two_host_plan) two_host_vms = Ok (st_vms two_host_state1) /\
  Forall (placed_on (st_hosts two_host_state0)) (st_vms two_host_state0) /\
  Forall (placed_on (st_hosts two_host_state0)) (st_vms two_host_state1) /\
  Forall (placed_on (map (shutdown_result (st_vms two_host_state1))
                         (st_hosts two_host_state0)))
         (st_vms two_host_state1).
Proof.
  assert (H1 : (0 <= n_hosts two_host_config)%Z) by (simpl; lia).
  assert (H3 : run_cycles sample_random sin24_table [] two_host_state0 = Ok two_host_state0)
    by reflexivity.
  assert (H5 : execute (plan two_host_plan) two_host_vms = Ok (st_vms two_host_state1))
    by (vm_compute; reflexivity).
  pose proof (vms_always_on_active_hosts Z sample_seed sample_random sin24_table
                two_host_config [] 0 two_host_state0 two_host_state0
                two_host_vms two_host_rng two_host_plan (st_vms two_host_state1)
                H1 two_host_init H3 two_host_cycle_plan H5)
    as [Ha [_ [_ [Hb [_ Hc]]]]].
  split; [exact H1|]. split; [exact two_host_init|]. split; [exact two_host_cycle_plan|].
  split; [exact H5|]. split; [exact Ha|]. split; [exact Hb | exact Hc].
Defined.

(** The crowded run counts its breach once; and a load of 1000 on a host of
    capacity zero is no breach beside a host within its watermark. *)
Lemma breach_counted_once_per_cycle_witness :
  init_state sample_seed sample_random crowded_default_config = Ok crowded_state0 /\
  cycle sample_random sin24_table 0 crowded_state0 = Ok crowded_state1 /\
  total_breaches crowded_state1 = (total_breaches crowded_state0 + 1)%Z /\
  any_high_watermark zero_cap_loads zero_cap_hosts 0.90 <> true /\
  exists cpu mem : dict Q,
    loads_predicted (active_hosts (st_hosts crowded_state1)) (st_vms crowded_state1)
      = Ok (cpu, mem) /\
    (forall h, In h (st_hosts crowded_state1) -> status h = ON ->
       dict_get (h_id h) cpu = Some (tally pred_cpu (h_id h) (st_vms crowded_state1) 0.0)) /\
    ((total_breaches crowded_state1 = (total_breaches crowded_state0 + 1)%Z /\
      exists h load, In h (st_hosts crowded_state1) /\ status h = ON /\
        dict_get (h_id h) cpu = Some load /\
        (cpu_cap h * hi_watermark (st_cfg crowded_state0) < load)%Q) \/
     (total_breaches crowded_state1 = total_breaches crowded_state0 /\
      forall h load, In h (st_hosts crowded_state1) -> status h = ON ->
        dict_get (h_id h) cpu = Some load ->
        (load <= cpu_cap h * hi_watermark (st_cfg crowded_state0))%Q)).
Proof.
  assert (H2 : run_cycles sample_random sin24_table [] crowded_state0 = Ok crowded_state0)
    by reflexivity.
  pose proof (breach_counted_once_per_cycle Z sample_seed sample_random sin24_table
                crowded_default_config [] 0 crowded_state0 crowded_state0 crowded_state1
                crowded_init H2 crowded_cycle0) as [Hcount Hmonitor].
  split; [exact crowded_init|]. split; [exact crowded_cycle0|]. split; [reflexivity|].
  split; [|exact Hcount].
  intro Hb. apply (proj1 (proj1 (Hmonitor zero_cap_loads zero_cap_hosts 0.90))) in Hb.
  destruct Hb as [k [load [c [Hin [Hget [Hpos Hgt]]]]]].
  destruct Hin as [E|[E|[]]]; inversion E; subst k load;
    vm_compute in Hget; inversion Hget; subst c;
    [revert Hpos | revert Hgt]; unfold Qlt; simpl; lia.
Defined.



(** * Further properties of the source functions *)

(** ** [_bounded] *)

Lemma bounded_in_range : forall x lo hi : Q,
  (lo <= hi)%Q -> between lo hi (_bounded x lo hi).
Proof.
  intros x lo hi Hle. unfold between, _bounded, py_max, py_min.
  destruct (Qlt_bool x hi) eqn:E1;
    [apply Qlt_bool_iff in E1 | apply Qlt_bool_false_iff in E1].
  - destruct (Qlt_bool lo x) eqn:E2;
      [apply Qlt_bool_iff in E2 | apply Qlt_bool_false_iff in E2]; split; lra.
  - destruct (Qlt_bool lo hi) eqn:E2;
      [apply Qlt_bool_iff in E2 | apply Qlt_bool_false_iff in E2]; split; lra.
Qed.

(** X1.  [_bounded(x, lo, hi)] with [lo <= hi] lies in [[lo, hi]], is [x]
    when [x] already does, [lo] when [x] is below and [hi] when [x] is
    above. *)
Theorem bounded_clamps :
  forall x lo hi : Q,
    (lo <= hi)%Q ->
    between lo hi (_bounded x lo hi) /\
    (between lo hi x -> (_bounded x lo hi == x)%Q) /\
    ((x < lo)%Q -> _bounded x lo hi = lo) /\
    ((hi < x)%Q -> (_bounded x lo hi == hi)%Q).
Proof.
  intros x lo hi Hle. unfold between, _bounded, py_max, py_min.
  destruct (Qlt_bool x hi) eqn:E1;
    [apply Qlt_bool_iff in E1 | apply Qlt_bool_false_iff in E1].
  - destruct (Qlt_bool lo x) eqn:E2;
      [apply Qlt_bool_iff in E2 | apply Qlt_bool_false_iff in E2].
    + split; [split; lra|]. split; [intros _; reflexivity|].
      split; intro H; exfalso; lra.
    + split; [split; lra|]. split; [intros [Ha Hb]; lra|].
      split; [intros _; reflexivity | intro H; exfalso; lra].
  - destruct (Qlt_bool lo hi) eqn:E2;
      [apply Qlt_bool_iff in E2 | apply Qlt_bool_false_iff in E2].
    + split; [split; lra|]. split; [intros [Ha Hb]; lra|].
      split; [intro H; exfalso; lra | intros _; reflexivity].
    + split; [split; lra|]. split; [intros [Ha Hb]; lra|].
      split; [intros _; reflexivity | intros _; lra].
Qed.

(** With the bounds the wrong way round the lower one wins. *)
Lemma bounded_crossed : forall x lo hi : Q, (hi < lo)%Q -> _bounded x lo hi = lo.
Proof.
  intros x lo hi H. unfold _bounded, py_max, py_min.
  destruct (Qlt_bool x hi) eqn:E1.
  - apply Qlt_bool_iff in E1.
    assert (E : Qlt_bool lo x = false) by (apply Qlt_bool_false_iff; lra).
    rewrite E. reflexivity.
  - assert (E : Qlt_bool lo hi = false) by (apply Qlt_bool_false_iff; lra).
    rewrite E. reflexivity.
Qed.

(** ** [predict_ema] *)

Lemma index_last_two : forall (xs : list Q) (x2 x1 : Q),
  index_m1 (xs ++ [x2; x1]) = Ok x1 /\ index_m2 (xs ++ [x2; x1]) = Ok x2.
Proof.
  intros xs x2 x1. unfold index_m1, index_m2. rewrite rev_app_distr. simpl.
  split; reflexivity.
Qed.

(** X2.  On histories that end in [c2, c1] and [m2, m1], however long and
    whatever they hold before, [predict_ema] sets
    [pred_cpu = a*c1 + (1-a)*c2] and [pred_mem = a*m1 + (1-a)*m2] and changes
    nothing else of the VM: the id, the host and both histories stay, and
    the earlier samples and the predictions cached before play no part. *)
Theorem predict_ema_last_two :
  forall (vm : VM) (a : Q) (cs ms : list Q) (c2 c1 m2 m1 : Q),
    cpu_use_hist vm = cs ++ [c2; c1] ->
    mem_use_hist vm = ms ++ [m2; m1] ->
    predict_ema vm a
      = Ok (mkVM (v_id vm) (host_id vm) (cs ++ [c2; c1]) (ms ++ [m2; m1])
                 (a * c1 + (1 - a) * c2)%Q (a * m1 + (1 - a) * m2)%Q).
Proof.
  intros vm a cs ms c2 c1 m2 m1 Hc Hm.
  unfold predict_ema, set_pred. rewrite Hc, Hm.
  destruct (index_last_two cs c2 c1) as [-> ->].
  destruct (index_last_two ms m2 m1) as [-> ->]. reflexivity.
Qed.

Lemma index_m2_short : forall xs : list Q,
  (length xs < 2)%nat -> index_m2 xs = Raise IndexError.
Proof.
  intros xs H. unfold index_m2. rewrite <- length_rev in H.
  destruct (rev xs) as [|x [|y rest]]; simpl in H; try reflexivity. lia.
Qed.

(** X3.  [predict_ema] returns a VM exactly when both histories hold at
    least two samples; when either is shorter it raises [IndexError], and it
    raises nothing else. *)
Theorem predict_ema_needs_two_samples :
  forall (vm : VM) (a : Q),
    match predict_ema vm a with
    | Ok _ =>
        (2 <= length (cpu_use_hist vm))%nat /\ (2 <= length (mem_use_hist vm))%nat
    | Raise e =>
        e = IndexError /\
        ((length (cpu_use_hist vm) < 2)%nat \/ (length (mem_use_hist vm) < 2)%nat)
    end.
Proof.
  intros vm a.
  destruct (le_lt_dec 2 (length (cpu_use_hist vm))) as [Hc|Hc].
  - destruct (le_lt_dec 2 (length (mem_use_hist vm))) as [Hm|Hm].
    + destruct (predict_ema_total vm a (conj Hc Hm)) as [vm' E]. rewrite E. auto.
    + unfold predict_ema.
      destruct (index_m1_total (cpu_use_hist vm)) as [c1 E1]; [lia|].
      destruct (index_m2_total (cpu_use_hist vm) Hc) as [c2 E2].
      rewrite E1, E2. simpl.
      destruct (index_m1 (mem_use_hist vm)) as [m1|e] eqn:E3; simpl.
      * rewrite (index_m2_short _ Hm). simpl. auto.
      * unfold index_m1 in E3.
        destruct (rev (mem_use_hist vm)); inversion E3. auto.
  - unfold predict_ema.
    destruct (index_m1 (cpu_use_hist vm)) as [c1|e] eqn:E1; simpl.
    + rewrite (index_m2_short _ Hc). simpl. auto.
    + unfold index_m1 in E1.
      destruct (rev (cpu_use_hist vm)); inversion E1. auto.
Qed.

(** ** [first_fit] *)

Lemma fits_iff : forall (vm : VM) (cpu mem : dict Q) (tu : Q) (h : Host) (c m : Q),
  dict_get (h_id h) cpu = Some c ->
  dict_get (h_id h) mem = Some m ->
  fits vm cpu mem tu h <->
  Qle_bool (c + pred_cpu vm) (cpu_cap h * tu) = true /\
  Qle_bool (m + pred_mem vm) (mem_cap h * tu) = true.
Proof.
  intros vm cpu mem tu h c m Hc Hm. unfold fits. rewrite !Qle_bool_iff. split.
  - intros [c' [m' [Hc' [Hm' [H1 H2]]]]].
    rewrite Hc in Hc'. rewrite Hm in Hm'. inversion Hc'; inversion Hm'; subst. auto.
  - intros [H1 H2]. exists c, m. auto.
Qed.

(** X4.  [first_fit] returns the first host of the list, in list order, whose
    tallies leave room for the VM under the target in both CPU and memory:
    the hosts before the returned one do not fit, and [None] means no host of
    the list fits. *)
Theorem first_fit_returns_first :
  forall (vm : VM) (on : list Host) (cpu mem : dict Q) (tu : Q) (r : option Host),
    first_fit vm on cpu mem tu = Ok r ->
    match r with
    | Some d =>
        exists pre post,
          on = pre ++ d :: post /\ fits vm cpu mem tu d /\
          forall h, In h pre -> ~ fits vm cpu mem tu h
    | None => forall h, In h on -> ~ fits vm cpu mem tu h
    end.
Proof.
  intros vm on cpu mem tu. induction on as [|h rest IH]; intros r H; simpl in H.
  - inversion H; subst. intros h [].
  - bind_inv H. rename a into c. apply dict_lookup_Ok in Hbind.
    assert (Hskip : first_fit vm rest cpu mem tu = Ok r -> ~ fits vm cpu mem tu h ->
              match r with
              | Some d =>
                  exists pre post,
                    h :: rest = pre ++ d :: post /\ fits vm cpu mem tu d /\
                    forall h0, In h0 pre -> ~ fits vm cpu mem tu h0
              | None => forall h0, In h0 (h :: rest) -> ~ fits vm cpu mem tu h0
              end).
    { intros Hrest Hno. specialize (IH r Hrest). destruct r as [d|].
      - destruct IH as [pre [post [-> [Hd Hpre]]]].
        exists (h :: pre), post. split; [reflexivity|]. split; [exact Hd|].
        intros h0 [<-|Hin]; [exact Hno | apply Hpre; exact Hin].
      - intros h0 [<-|Hin]; [exact Hno | apply IH; exact Hin]. }
    destruct (Qle_bool (c + pred_cpu vm) (cpu_cap h * tu)) eqn:Ec.
    + bind_inv H. rename a into m. apply dict_lookup_Ok in Hbind0.
      destruct (Qle_bool (m + pred_mem vm) (mem_cap h * tu)) eqn:Em.
      * inversion H; subst. exists [], rest. split; [reflexivity|].
        split; [|intros h0 []].
        apply (fits_iff vm cpu mem tu h c m Hbind Hbind0). auto.
      * apply Hskip; [exact H|]. intro Hf.
        apply (fits_iff vm cpu mem tu h c m Hbind Hbind0) in Hf.
        destruct Hf as [_ Hf]. congruence.
    + apply Hskip; [exact H|]. intros [c' [m' [Hc' [_ [Hle _]]]]].
      rewrite Hbind in Hc'. inversion Hc'; subst c'.
      apply Qle_bool_iff in Hle. congruence.
Qed.

(** ** [loads_predicted] *)

(** X5.  [loads_predicted] never raises.  Its two dicts have the same keys,
    without repetition: the ids of the hosts whose status is ON.  Each key
    holds the sum, from [0.0] and in VM order, of the predictions of the VMs
    whose [host_id] is that key; a VM on any other id is counted nowhere. *)
Theorem loads_predicted_tallies :
  forall (hosts : list Host) (vms : list VM),
    exists cpu mem : dict Q,
      loads_predicted hosts vms = Ok (cpu, mem) /\
      dict_keys cpu = dict_keys mem /\
      NoDup (dict_keys cpu) /\
      (forall k, In k (dict_keys cpu) <->
                 exists h, In h hosts /\ status h = ON /\ h_id h = k) /\
      (forall k, In k (dict_keys cpu) ->
         dict_get k cpu = Some (tally pred_cpu k vms 0.0) /\
         dict_get k mem = Some (tally pred_mem k vms 0.0)).
Proof.
  intros hosts vms. unfold loads_predicted.
  set (d0 := dict_from (map (fun h => (h_id h, 0.0%Q)) (filter is_on hosts))).
  destruct (loads_fold vms d0 d0 (fun k => eq_refl))
    as [cpu [mem [Hf [Hkc [Hkm [Hc Hm]]]]]].
  exists cpu, mem. split; [exact Hf|].
  split; [rewrite Hkc, Hkm; reflexivity|].
  split; [rewrite Hkc; apply dict_from_NoDup|].
  assert (Hd0 : forall k, dict_get k d0 =
            if existsb (fun h => (h_id h =? k)%Z) (filter is_on hosts)
            then Some 0.0%Q else None).
  { intro k. unfold d0. rewrite dict_get_dict_from.
    apply (assoc_last_const Host Q h_id 0.0%Q k). }
  assert (Hkeys : forall k, In k (dict_keys cpu) <->
            existsb (fun h => (h_id h =? k)%Z) (filter is_on hosts) = true).
  { intro k. rewrite Hkc. rewrite <- dict_mem_true. unfold dict_mem. rewrite Hd0.
    destruct (existsb _ (filter is_on hosts)); split; intro H;
      try reflexivity; discriminate H. }
  split.
  - intro k. rewrite Hkeys, existsb_id_In. split.
    + intros [h [Hin Hid]]. change (filter is_on hosts) with (active_hosts hosts) in Hin.
      apply In_active_hosts in Hin. destruct Hin as [Hin Hon]. exists h. auto.
    + intros [h [Hin [Hon Hid]]]. exists h. split; [|exact Hid].
      change (filter is_on hosts) with (active_hosts hosts).
      apply In_active_hosts. auto.
  - intros k Hk. apply Hkeys in Hk. rewrite Hc, Hm, Hd0, Hk. split; reflexivity.
Qed.

(** ** The planning loop *)

Lemma plan_loop_other_keys : forall (on : list Host) (tu : Q) (cands : list VM)
  (ps ps' : PlanState),
  foldM (plan_step on tu) cands ps = Ok ps' ->
  dict_keys (cpu_loads ps') = dict_keys (cpu_loads ps) /\
  dict_keys (mem_loads ps') = dict_keys (mem_loads ps) /\
  (exists added, plan ps' = plan ps ++ added /\
     forall k, ~ In k (map move_dst added) ->
       dict_get k (cpu_loads ps') = dict_get k (cpu_loads ps) /\
       dict_get k (mem_loads ps') = dict_get k (mem_loads ps)).
Proof.
  intros on tu cands. induction cands as [|vm cands IH]; intros ps ps' H; simpl in H.
  - inversion H; subst. split; [reflexivity|]. split; [reflexivity|].
    exists []. rewrite app_nil_r. split; [reflexivity|]. intros k _. split; reflexivity.
  - bind_inv H. rename a into ps1.
    destruct (IH ps1 ps' H) as [Hkc [Hkm [added [Hplan Hsame]]]].
    destruct (plan_step_cases _ _ _ _ _ Hbind)
      as [->|[d [c [m [_ [_ [Hc [Hm [_ [_ ->]]]]]]]]]].
    + split; [exact Hkc|]. split; [exact Hkm|]. exists added. split; assumption.
    + simpl in *. split.
      { rewrite Hkc, dict_keys_set. unfold dict_mem. rewrite Hc. reflexivity. }
      split.
      { rewrite Hkm, dict_keys_set. unfold dict_mem. rewrite Hm. reflexivity. }
      exists ((v_id vm, host_id vm, h_id d) :: added). split.
      * rewrite Hplan, <- app_assoc. reflexivity.
      * intros k Hk. simpl in Hk.
        assert (Hne : h_id d <> k) by (intro E; apply Hk; left; exact E).
        assert (Hnot : ~ In k (map move_dst added)) by (intro E; apply Hk; right; exact E).
        destruct (Hsame k Hnot) as [H1 H2]. rewrite H1, H2.
        rewrite !dict_get_set_other by exact Hne. split; reflexivity.
Qed.

(** X6.  The planner only ever adds to the tallies of the hosts it moves VMs
    to.  The tallies of every other host, the hosts the moved VMs leave
    included, end the pass as [loads_predicted] set them, so a VM planned
    away still counts at its source; and the pass adds or drops no key. *)
Theorem planner_keeps_other_tallies :
  forall (cfg : Config) (on : list Host) (vms : list VM) (cpu0 mem0 : dict Q)
         (ps : PlanState),
    loads_predicted on vms = Ok (cpu0, mem0) ->
    plan_moves cfg on vms = Ok ps ->
    dict_keys (cpu_loads ps) = dict_keys cpu0 /\
    dict_keys (mem_loads ps) = dict_keys mem0 /\
    (forall k, ~ In k (map move_dst (plan ps)) ->
       dict_get k (cpu_loads ps) = dict_get k cpu0 /\
       dict_get k (mem_loads ps) = dict_get k mem0) /\
    (forall mv, In mv (plan ps) ->
       ~ In (move_src mv) (map move_dst (plan ps)) ->
       dict_get (move_src mv) (cpu_loads ps) = dict_get (move_src mv) cpu0).
Proof.
  intros cfg on vms cpu0 mem0 ps Hl H. unfold plan_moves, plan_init in H.
  rewrite Hl in H. simpl in H.
  destruct (plan_loop_other_keys _ _ _ _ _ H) as [Hkc [Hkm [added [Hplan Hsame]]]].
  simpl in *. subst added.
  split; [exact Hkc|]. split; [exact Hkm|]. split; [exact Hsame|].
  intros mv _ Hnot. apply (Hsame _ Hnot).
Qed.

(** ** Candidate selection and order *)

Lemma insert_desc_perm : forall (A : Type) (key : A -> Q) (x : A) (xs : list A),
  Permutation (insert_desc key x xs) (x :: xs).
Proof.
  intros A key x xs. induction xs as [|y xs IH]; simpl.
  - apply Permutation_refl.
  - destruct (Qlt_bool (key x) (key y)).
    + apply Permutation_trans with (y :: x :: xs).
      * apply perm_skip. exact IH.
      * apply perm_swap.
    + apply Permutation_refl.
Qed.

Lemma sorted_desc_perm : forall (A : Type) (key : A -> Q) (xs : list A),
  Permutation (sorted_desc key xs) xs.
Proof.
  intros A key xs. induction xs as [|x xs IH]; simpl.
  - apply perm_nil.
  - apply Permutation_trans with (x :: sorted_desc key xs).
    + apply insert_desc_perm.
    + apply perm_skip. exact IH.
Qed.

Lemma insert_desc_sorted : forall (A : Type) (key : A -> Q) (x : A) (xs : list A),
  StronglySorted (fun a b => (key b <= key a)%Q) xs ->
  StronglySorted (fun a b => (key b <= key a)%Q) (insert_desc key x xs).
Proof.
  intros A key x xs H. induction H as [|y xs Hs IH Hall]; simpl.
  - constructor; constructor.
  - destruct (Qlt_bool (key x) (key y)) eqn:E.
    + apply Qlt_bool_iff in E. constructor; [exact IH|].
      apply Forall_forall. intros z Hz. apply In_insert_desc in Hz.
      destruct Hz as [->|Hz]; [lra|]. rewrite Forall_forall in Hall. apply Hall. exact Hz.
    + apply Qlt_bool_false_iff in E. constructor.
      * constructor; assumption.
      * constructor; [exact E|]. rewrite Forall_forall in *. intros z Hz.
        specialize (Hall z Hz). lra.
Qed.

Lemma sorted_desc_sorted : forall (A : Type) (key : A -> Q) (xs : list A),
  StronglySorted (fun a b => (key b <= key a)%Q) (sorted_desc key xs).
Proof.
  intros A key xs. induction xs as [|x xs IH]; simpl.
  - constructor.
  - apply insert_desc_sorted. exact IH.
Qed.

(** Stability: among the elements of one key value, the order is that of
    the input. *)
Lemma insert_desc_stable : forall (A : Type) (key : A -> Q) (v : Q) (x : A) (xs : list A),
  filter (fun y => Qeq_bool (key y) v) (insert_desc key x xs)
  = filter (fun y => Qeq_bool (key y) v) (x :: xs).
Proof.
  intros A key v x xs. induction xs as [|y xs IH]; [reflexivity|].
  simpl insert_desc. destruct (Qlt_bool (key x) (key y)) eqn:E; [|reflexivity].
  apply Qlt_bool_iff in E.
  change (filter (fun y0 => Qeq_bool (key y0) v) (y :: insert_desc key x xs))
    with (if Qeq_bool (key y) v
          then y :: filter (fun y0 => Qeq_bool (key y0) v) (insert_desc key x xs)
          else filter (fun y0 => Qeq_bool (key y0) v) (insert_desc key x xs)).
  rewrite IH. simpl.
  destruct (Qeq_bool (key x) v) eqn:Ex; destruct (Qeq_bool (key y) v) eqn:Ey;
    try reflexivity.
  apply Qeq_bool_iff in Ex. apply Qeq_bool_iff in Ey. exfalso. lra.
Qed.

Lemma sorted_desc_stable : forall (A : Type) (key : A -> Q) (v : Q) (xs : list A),
  filter (fun y => Qeq_bool (key y) v) (sorted_desc key xs)
  = filter (fun y => Qeq_bool (key y) v) xs.
Proof.
  intros A key v xs. induction xs as [|x xs IH]; [reflexivity|].
  simpl sorted_desc. rewrite insert_desc_stable. simpl. rewrite IH. reflexivity.
Qed.

(** X7.  The planner visits exactly the VMs whose [pred_cpu] is at most
    [low_usage_threshold], each as often as it occurs in the VM list, in
    order of non-increasing [pred_cpu]; VMs with equal [pred_cpu] are visited
    in VM-list order. *)
Theorem candidates_sorted_stable :
  forall (cfg : Config) (vms : list VM),
    (forall vm, In vm (candidates cfg vms) <->
                In vm vms /\ (pred_cpu vm <= low_usage_threshold cfg)%Q) /\
    Permutation (candidates cfg vms)
      (filter (fun vm => Qle_bool (pred_cpu vm) (low_usage_threshold cfg)) vms) /\
    StronglySorted (fun a b => (pred_cpu b <= pred_cpu a)%Q) (candidates cfg vms) /\
    (forall v : Q,
       filter (fun vm => Qeq_bool (pred_cpu vm) v) (candidates cfg vms)
       = filter (fun vm => Qeq_bool (pred_cpu vm) v)
           (filter (fun vm => Qle_bool (pred_cpu vm) (low_usage_threshold cfg)) vms)).
Proof.
  intros cfg vms. unfold candidates. split; [|split; [|split]].
  - intro vm. rewrite In_sorted_desc, filter_In, Qle_bool_iff. reflexivity.
  - apply sorted_desc_perm.
  - apply sorted_desc_sorted.
  - intro v. apply sorted_desc_stable.
Qed.

(** ** Applying the plan *)

Lemma py_index_cases : forall (len : nat) (i : Z),
  (index_ok len i /\ exists n, py_index len i = Ok n) \/
  (~ index_ok len i /\ py_index len i = Raise IndexError).
Proof.
  intros len i. unfold py_index, index_ok.
  destruct ((0 <=? i) && (i <? Z.of_nat len))%Z eqn:E1.
  - apply andb_true_iff in E1. destruct E1 as [Ha Hb].
    apply Z.leb_le in Ha. apply Z.ltb_lt in Hb.
    left. split; [lia | eexists; reflexivity].
  - destruct ((i <? 0) && (- Z.of_nat len <=? i))%Z eqn:E2.
    + apply andb_true_iff in E2. destruct E2 as [Ha Hb].
      apply Z.ltb_lt in Ha. apply Z.leb_le in Hb.
      left. split; [lia | eexists; reflexivity].
    + right. split; [|reflexivity]. intro H.
      apply andb_false_iff in E1. apply andb_false_iff in E2.
      destruct E1 as [E1|E1]; destruct E2 as [E2|E2];
        try apply Z.leb_gt in E1; try apply Z.ltb_ge in E1;
        try apply Z.ltb_ge in E2; try apply Z.leb_gt in E2; lia.
Qed.

(** X8.  [execute] keeps the length of the VM list and succeeds exactly when
    every move's VM id is a valid index of it (negative ids count from the
    end, as Python indexes); otherwise it raises [IndexError]. *)
Theorem execute_index_errors :
  forall (moves : list Move) (vms : list VM),
    match execute moves vms with
    | Ok vms' =>
        length vms' = length vms /\
        forall mv, In mv moves -> index_ok (length vms) (move_id mv)
    | Raise e =>
        e = IndexError /\
        exists mv, In mv moves /\ ~ index_ok (length vms) (move_id mv)
    end.
Proof.
  intros moves. unfold execute. induction moves as [|[[vm_id src] dst] moves IH];
    intro vms; simpl.
  - split; [reflexivity | intros mv []].
  - destruct (py_index_cases (length vms) vm_id) as [[Hok [n En]] | [Hbad Eraise]].
    + rewrite En. simpl.
      specialize (IH (list_update n (set_host_id dst) vms)).
      rewrite list_update_length in IH.
      destruct (foldM apply_move moves (list_update n (set_host_id dst) vms)) as [vms'|e].
      * destruct IH as [Hlen Hall]. split; [exact Hlen|].
        intros mv [<-|Hin]; [exact Hok | apply Hall; exact Hin].
      * destruct IH as [He [mv [Hin Hbad]]]. split; [exact He|].
        exists mv. split; [right; exact Hin | exact Hbad].
    + rewrite Eraise. simpl. split; [reflexivity|].
      exists (vm_id, src, dst). split; [left; reflexivity | exact Hbad].
Qed.

Lemma NoDup_map_filter : forall (A B : Type) (f : A -> B) (p : A -> bool) (xs : list A),
  NoDup (map f xs) -> NoDup (map f (filter p xs)).
Proof.
  intros A B f p xs. induction xs as [|x xs IH]; simpl; intro H.
  - constructor.
  - inversion H as [|? ? Hnotin Hnd]; subst. destruct (p x); simpl.
    + constructor; [|apply IH; exact Hnd].
      intro Hin. apply Hnotin. apply in_map_iff in Hin.
      destruct Hin as [y [Hy Hin]]. apply filter_In in Hin.
      rewrite <- Hy. apply in_map. apply Hin.
    + apply IH. exact Hnd.
Qed.

Lemma candidates_ids_NoDup : forall (cfg : Config) (vms : list VM),
  NoDup (map v_id vms) -> NoDup (map v_id (candidates cfg vms)).
Proof.
  intros cfg vms H. unfold candidates.
  apply (Permutation_NoDup
           (l := map v_id (filter (fun vm => Qle_bool (pred_cpu vm) (low_usage_threshold cfg)) vms))).
  - apply Permutation_map. apply Permutation_sym. apply sorted_desc_perm.
  - apply NoDup_map_filter. exact H.
Qed.

(** The planning loop names each candidate at most once. *)
Lemma plan_loop_ids_NoDup : forall (on : list Host) (tu : Q) (cands : list VM)
  (ps ps' : PlanState),
  NoDup (map v_id cands) ->
  NoDup (map move_id (plan ps)) ->
  (forall mv, In mv (plan ps) -> ~ In (move_id mv) (map v_id cands)) ->
  foldM (plan_step on tu) cands ps = Ok ps' ->
  NoDup (map move_id (plan ps')).
Proof.
  intros on tu cands. induction cands as [|vm cands IH];
    intros ps ps' Hnd Hplan Hdisj H; simpl in H.
  - inversion H; subst. exact Hplan.
  - bind_inv H. rename a into ps1. simpl in Hnd.
    inversion Hnd as [|? ? Hnotin Hnd']; subst.
    apply (IH ps1 ps' Hnd'); [| |exact H].
    + destruct (plan_step_cases _ _ _ _ _ Hbind)
        as [->|[d [c [m [_ [_ [_ [_ [_ [_ ->]]]]]]]]]]; [exact Hplan|].
      simpl. rewrite map_app. simpl.
      apply (Permutation_NoDup (l := move_id (v_id vm, host_id vm, h_id d)
                                       :: map move_id (plan ps))).
      * apply Permutation_cons_append.
      * constructor; [|exact Hplan]. unfold move_id at 1. simpl.
        intro Hin. apply in_map_iff in Hin. destruct Hin as [mv [Hid Hmv]].
        apply (Hdisj mv Hmv). left. symmetry. exact Hid.
    + intros mv Hmv Hin.
      destruct (plan_step_cases _ _ _ _ _ Hbind)
        as [->|[d [c [m [_ [_ [_ [_ [_ [_ ->]]]]]]]]]].
      * apply (Hdisj mv Hmv). right. exact Hin.
      * simpl in Hmv. apply in_app_or in Hmv. destruct Hmv as [Hmv|[<-|[]]].
        -- apply (Hdisj mv Hmv). right. exact Hin.
        -- apply Hnotin. exact Hin.
Qed.

Lemma plan_moves_ids_NoDup : forall (cfg : Config) (on : list Host) (vms : list VM)
  (ps : PlanState),
  NoDup (map v_id vms) ->
  plan_moves cfg on vms = Ok ps ->
  NoDup (map move_id (plan ps)).
Proof.
  intros cfg on vms ps Hnd H. unfold plan_moves in H. bind_inv H.
  unfold plan_init in Hbind. bind_inv Hbind. destruct a0 as [cpu mem].
  inversion Hbind; subst a.
  apply (plan_loop_ids_NoDup _ _ _ _ _ (candidates_ids_NoDup cfg vms Hnd)) in H.
  - exact H.
  - constructor.
  - intros mv [].
Qed.

Lemma range_nth_error : forall (n : Z) (j : nat) (k : Z),
  nth_error (range n) j = Some k -> k = Z.of_nat j.
Proof.
  intros n j k H. unfold range in H. rewrite nth_error_map in H.
  destruct (nth_error (seq 0 (Z.to_nat n)) j) as [i|] eqn:E; [|discriminate H].
  inversion H; subst. apply nth_error_In in E as Hin. apply in_seq in Hin.
  assert (Hj : (j < length (seq 0 (Z.to_nat n)))%nat)
    by (apply nth_error_Some; congruence).
  rewrite length_seq in Hj.
  rewrite (nth_error_nth' _ 0%nat) in E by (rewrite length_seq; exact Hj).
  rewrite seq_nth in E by exact Hj. inversion E. reflexivity.
Qed.

Lemma positional_id : forall (n : Z) (vms : list VM) (j : nat) (vm : VM),
  map v_id vms = range n -> nth_error vms j = Some vm -> v_id vm = Z.of_nat j.
Proof.
  intros n vms j vm Hids Hj. apply (range_nth_error n j).
  rewrite <- Hids, nth_error_map, Hj. reflexivity.
Qed.

Lemma map_list_update : forall (A B : Type) (g h : A -> B) (f : A -> A) (xs : list A)
  (i : nat),
  (forall j x, nth_error xs j = Some x ->
     g (if Nat.eqb j i then f x else x) = h x) ->
  map g (list_update i f xs) = map h xs.
Proof.
  intros A B g h f xs. induction xs as [|x xs IH]; intros i H.
  - destruct i; reflexivity.
  - destruct i as [|i]; simpl.
    + f_equal; [apply (H 0%nat x eq_refl)|].
      apply map_ext_in. intros y Hy. apply In_nth_error in Hy. destruct Hy as [j Hj].
      apply (H (S j) y Hj).
    + f_equal; [apply (H 0%nat x eq_refl)|]. apply IH.
      intros j y Hj. apply (H (S j) y Hj).
Qed.

Lemma planned_for_None : forall (moves : list Move) (vm : VM),
  ~ In (v_id vm) (map move_id moves) -> planned_for moves vm = None.
Proof.
  intros moves vm H. unfold planned_for.
  destruct (find (fun mv => (move_id mv =? v_id vm)%Z) moves) as [mv|] eqn:E; [|reflexivity].
  apply find_some in E. destruct E as [Hin Hid]. apply Z.eqb_eq in Hid.
  exfalso. apply H. rewrite <- Hid. apply in_map. exact Hin.
Qed.

(** With VM ids equal to list positions and no VM named twice, applying the
    moves gives each named VM its destination and touches no other. *)
Lemma execute_after_moves : forall (n : Z) (moves : list Move) (vms : list VM),
  map v_id vms = range n ->
  NoDup (map move_id moves) ->
  (forall mv, In mv moves -> In (move_id mv) (map v_id vms)) ->
  execute moves vms = Ok (map (after_moves moves) vms).
Proof.
  intros n moves. unfold execute.
  induction moves as [|[[vm_id src] dst] moves IH]; intros vms Hids Hnd Hin; simpl.
  - f_equal. symmetry. apply map_id.
  - inversion Hnd as [|? ? Hnotin Hnd']; subst. unfold move_id in Hnotin. simpl in Hnotin.
    pose proof (Hin _ (or_introl eq_refl)) as Hid. unfold move_id in Hid. simpl in Hid.
    rewrite Hids in Hid. apply In_range in Hid.
    assert (Hlen : length vms = Z.to_nat n).
    { rewrite <- (length_map v_id), Hids. apply range_length. }
    unfold py_index.
    assert (E : ((0 <=? vm_id) && (vm_id <? Z.of_nat (length vms)))%Z = true).
    { apply andb_true_iff. split; [apply Z.leb_le | apply Z.ltb_lt]; lia. }
    rewrite E. simpl.
    assert (Hids1 : map v_id (list_update (Z.to_nat vm_id) (set_host_id dst) vms) = range n).
    { rewrite <- Hids. apply map_list_update. intros j x _.
      destruct (Nat.eqb j (Z.to_nat vm_id)); reflexivity. }
    rewrite IH; [|exact Hids1|exact Hnd'|].
    + f_equal. apply map_list_update. intros j x Hj.
      pose proof (positional_id n vms j x Hids Hj) as Hx.
      unfold after_moves at 2. unfold planned_for. simpl. unfold move_id at 1. simpl.
      destruct (Nat.eqb j (Z.to_nat vm_id)) eqn:Ej.
      * apply Nat.eqb_eq in Ej.
        assert (Ex : (vm_id =? v_id x)%Z = true) by (apply Z.eqb_eq; lia).
        rewrite Ex. unfold after_moves.
        rewrite planned_for_None; [reflexivity|]. simpl.
        replace (v_id x) with vm_id by lia. exact Hnotin.
      * apply Nat.eqb_neq in Ej.
        assert (Ex : (vm_id =? v_id x)%Z = false) by (apply Z.eqb_neq; lia).
        rewrite Ex. reflexivity.
    + intros mv Hmv. rewrite Hids1, <- Hids. apply Hin. right. exact Hmv.
Qed.

(** ** Runs *)

Section RunProperties.

Variable Rng : Type.
Variable rng_seed : Z -> Rng.
Variable rng_random : Rng -> Q * Rng.
Variable sin24 : Z -> Q.

Lemma run_state_wf : forall (cfg : Config) (earlier : list Z) (st0 st : SimState Rng),
  init_state rng_seed rng_random cfg = Ok st0 ->
  run_cycles rng_random sin24 earlier st0 = Ok st ->
  state_wf cfg st.
Proof.
  intros cfg earlier st0 st Hinit Hrun.
  destruct (init_state_wf _ rng_seed rng_random _ _ Hinit) as [_ [Hwf0 _]].
  destruct (run_cycles_state_wf _ rng_random sin24 _ _ _ _ Hwf0 Hrun) as [Hwf _].
  exact Hwf.
Qed.

Lemma observed_ids : forall (n : Z) (vms0 vms : list VM),
  Forall2 observed vms0 vms -> map v_id vms0 = range n -> map v_id vms = range n.
Proof.
  intros n vms0 vms H Hids. rewrite <- Hids.
  apply (Forall2_map_eq _ _ _ observed v_id v_id); [|exact H].
  intros x y [E _]. exact E.
Qed.

(** X9.  In every cycle of a run the plan names each VM at most once, so it
    holds no more moves than there are VMs; applying it cannot raise, gives
    every named VM the destination of its move and leaves every other VM as
    it was; and the source recorded in a VM's move is the host the VM was on. *)
Theorem each_vm_moved_at_most_once :
  forall (cfg : Config) (earlier : list Z) (t : Z) (st0 st : SimState Rng)
         (vms : list VM) (g : Rng) (ps : PlanState),
    init_state rng_seed rng_random cfg = Ok st0 ->
    run_cycles rng_random sin24 earlier st0 = Ok st ->
    cycle_plan rng_random sin24 t st = Ok (vms, g, ps) ->
    NoDup (map move_id (plan ps)) /\
    (length (plan ps) <= length vms)%nat /\
    execute (plan ps) vms = Ok (map (after_moves (plan ps)) vms) /\
    (forall vm mv, In vm vms -> planned_for (plan ps) vm = Some mv ->
       In mv (plan ps) /\ move_id mv = v_id vm /\ move_src mv = host_id vm /\
       host_id (after_moves (plan ps) vm) = move_dst mv).
Proof.
  intros cfg earlier t st0 st vms g ps Hinit Hrun Hplan.
  destruct (run_state_wf _ _ _ _ Hinit Hrun) as [_ [[Hids _] _]].
  apply cycle_plan_Ok in Hplan. destruct Hplan as [Hobs Hmoves].
  pose proof (observed_ids _ _ _ (observe_predict_observed Rng rng_random sin24 _ _ _ _ Hobs) Hids) as Hv.
  assert (Hnd_v : NoDup (map v_id vms)) by (rewrite Hv; apply range_NoDup).
  pose proof (plan_moves_ids_NoDup _ _ _ _ Hnd_v Hmoves) as Hnd.
  assert (Hincl : forall mv, In mv (plan ps) -> In (move_id mv) (map v_id vms)).
  { intros mv Hmv.
    destruct (plan_moves_ok _ _ _ _ Hmoves mv Hmv) as [_ [[vm [Hvm [Hid _]]] _]].
    unfold move_id. rewrite <- Hid. apply in_map. exact Hvm. }
  split; [exact Hnd|]. split.
  - rewrite <- (length_map move_id), <- (length_map v_id vms).
    apply NoDup_incl_length; [exact Hnd|].
    intros k Hk. apply in_map_iff in Hk. destruct Hk as [mv [<- Hmv]]. apply Hincl. exact Hmv.
  - split; [apply (execute_after_moves (n_vms cfg)); assumption|].
    intros vm mv Hvm Hfor. unfold after_moves. rewrite Hfor. simpl.
    unfold planned_for in Hfor. apply find_some in Hfor. destruct Hfor as [Hmv Hid].
    apply Z.eqb_eq in Hid.
    split; [exact Hmv|]. split; [exact Hid|]. split; [|reflexivity].
    destruct (plan_moves_ok _ _ _ _ Hmoves mv Hmv) as [_ [[vm' [Hvm' [Hid' Hsrc]]] _]].
    assert (vm' = vm).
    { apply (NoDup_map_eq _ _ v_id vms); try assumption.
      unfold move_id in Hid. congruence. }
    subst vm'. symmetry. exact Hsrc.
Qed.

Lemma update_usage_appends : forall (t : Z) (vms out : list VM) (g g' : Rng),
  update_usage rng_random sin24 t vms g = Ok (out, g') ->
  Forall2 (fun a b => exists c m : Q,
             b = append_usage a c m /\ between 0 100 c /\ between 0 100 m)
          vms out.
Proof.
  assert (Hclamp : forall x : Q, between 0 100 (_bounded x 0.0 100.0)).
  { intro x. destruct (bounded_in_range x 0.0 100.0) as [Ha Hb].
    - unfold Qle. simpl. lia.
    - unfold between. split; lra. }
  intros t vms. induction vms as [|vm vms IH]; intros out g g' H; simpl in H.
  - inversion H. constructor.
  - destruct (synth_drift rng_random sin24 t g) as [d g1].
    bind_inv H. bind_inv H. bind_inv H. destruct a1 as [rest g2]. inversion H; subst.
    constructor; [|eapply IH; eassumption].
    eexists. eexists. split; [reflexivity|]. split; apply Hclamp.
Qed.

(** X10.  A cycle appends exactly one observation to the CPU history and one
    to the memory history of every VM, each clamped to [[0, 100]]; it keeps
    the earlier observations and their order, the VM ids and the order of
    the VM list. *)
Theorem cycle_appends_one_sample :
  forall (t : Z) (st st' : SimState Rng),
    cycle rng_random sin24 t st = Ok st' ->
    Forall2 one_more_sample (st_vms st) (st_vms st').
Proof.
  intros t st st' H. apply cycle_Ok in H.
  destruct H as [vms [g [ps [vms' [breach [Hplan [Hexec [_ ->]]]]]]]]. simpl.
  apply cycle_plan_Ok in Hplan. destruct Hplan as [Hobs _].
  unfold observe_predict in Hobs. bind_inv Hobs. destruct a as [vms1 g1].
  bind_inv Hobs. inversion Hobs; subst.
  apply update_usage_appends in Hbind. apply mapM_Forall2 in Hbind0.
  apply execute_moved in Hexec.
  assert (H12 : Forall2 one_more_sample (st_vms st) vms).
  { eapply Forall2_trans; [|exact Hbind|exact Hbind0].
    intros x y z [c [m [-> [Hc Hm]]]] Hyz. simpl in Hyz.
    destruct (predict_ema_Ok _ _ _ Hyz) as [c1 [c2 [m1 [m2 [_ [_ [_ [_ ->]]]]]]]].
    split; [reflexivity|]. exists c, m. simpl. auto. }
  eapply Forall2_trans; [|exact H12|exact Hexec].
  intros x y z [Hid [c [m [Hc [Hm Hb]]]]] [hid [-> _]].
  split; [exact Hid|]. exists c, m. simpl. auto.
Qed.

Lemma iter_shift : forall (A : Type) (f : A -> A) (n : nat) (x : A),
  Nat.iter n f (f x) = f (Nat.iter n f x).
Proof.
  intros A f n x. induction n as [|n IH]; simpl; [reflexivity | rewrite IH; reflexivity].
Qed.

Lemma iter_plus : forall (A : Type) (f : A -> A) (n m : nat) (x : A),
  Nat.iter (n + m) f x = Nat.iter n f (Nat.iter m f x).
Proof.
  intros A f n m x. induction n as [|n IH]; simpl; [reflexivity | rewrite IH; reflexivity].
Qed.

Lemma uniform_draws_once : forall (a b : Q) (g : Rng),
  snd (uniform rng_random a b g) = snd (rng_random g).
Proof.
  intros a b g. unfold uniform. destruct (rng_random g). reflexivity.
Qed.

Lemma synth_drift_draws_once : forall (t : Z) (g : Rng),
  snd (synth_drift rng_random sin24 t g) = snd (rng_random g).
Proof.
  intros t g. unfold synth_drift.
  pose proof (uniform_draws_once (-8.0) 8.0 g) as H.
  destruct (uniform rng_random (-8.0) 8.0 g). exact H.
Qed.

Lemma init_vms_draws : forall (ids : list Z) (nh : Z) (g g' : Rng) (vms : list VM),
  init_vms rng_random ids nh g = Ok (vms, g') ->
  g' = Nat.iter (length ids) (fun r => snd (rng_random r)) g.
Proof.
  intros ids nh. induction ids as [|i ids IH]; intros g g' vms H; simpl in H.
  - inversion H. reflexivity.
  - bind_inv H. pose proof (uniform_draws_once 10.0 60.0 g) as Hu.
    destruct (uniform rng_random 10.0 60.0 g) as [c g1]. simpl in Hu. subst g1.
    bind_inv H. destruct a0 as [rest g2]. inversion H; subst.
    rewrite (IH _ _ _ Hbind0). simpl. exact (iter_shift Rng (fun r => snd (rng_random r)) _ _).
Qed.

Lemma update_usage_draws : forall (t : Z) (vms out : list VM) (g g' : Rng),
  update_usage rng_random sin24 t vms g = Ok (out, g') ->
  g' = Nat.iter (length vms) (fun r => snd (rng_random r)) g.
Proof.
  intros t vms. induction vms as [|vm vms IH]; intros out g g' H; simpl in H.
  - inversion H. reflexivity.
  - pose proof (synth_drift_draws_once t g) as Hd.
    destruct (synth_drift rng_random sin24 t g) as [d g1]. simpl in Hd. subst g1.
    bind_inv H. bind_inv H. bind_inv H. destruct a1 as [rest g2]. inversion H; subst.
    rewrite (IH _ _ _ Hbind1). simpl. exact (iter_shift Rng (fun r => snd (rng_random r)) _ _).
Qed.

Lemma cycle_draws : forall (t : Z) (st st' : SimState Rng),
  cycle rng_random sin24 t st = Ok st' ->
  st_rng st' = Nat.iter (length (st_vms st)) (fun r => snd (rng_random r)) (st_rng st).
Proof.
  intros t st st' H. apply cycle_Ok in H.
  destruct H as [vms [g [ps [vms' [breach [Hplan [_ [_ ->]]]]]]]]. simpl.
  apply cycle_plan_Ok in Hplan. destruct Hplan as [Hobs _].
  unfold observe_predict in Hobs. bind_inv Hobs. destruct a as [vms1 g1].
  bind_inv Hobs. inversion Hobs; subst.
  apply (update_usage_draws _ _ _ _ _ Hbind).
Qed.

Lemma state_wf_length : forall (cfg : Config) (st : SimState Rng),
  state_wf cfg st -> length (st_vms st) = Z.to_nat (n_vms cfg).
Proof.
  intros cfg st [_ [[Hids _] _]].
  rewrite <- (length_map v_id), Hids. apply range_length.
Qed.

Lemma run_cycles_draws : forall (cfg : Config) (ts : list Z) (st st' : SimState Rng),
  state_wf cfg st ->
  run_cycles rng_random sin24 ts st = Ok st' ->
  st_rng st' = Nat.iter (length ts * Z.to_nat (n_vms cfg))
                        (fun r => snd (rng_random r)) (st_rng st).
Proof.
  intros cfg ts. induction ts as [|t ts IH]; intros st st' Hwf H.
  - inversion H; subst. reflexivity.
  - unfold run_cycles in H. simpl in H. bind_inv H. rename a into st1.
    pose proof (cycle_state_wf Rng rng_random sin24 _ _ _ _ Hwf Hbind) as Hwf1.
    rewrite (IH st1 st' Hwf1 H), (cycle_draws _ _ _ Hbind), (state_wf_length _ _ Hwf).
    simpl length. rewrite <- iter_plus. f_equal. lia.
Qed.

(** X11.  A run reseeds the generator and then takes exactly one draw per VM
    at creation and one per VM in every cycle, nothing else: the generator is
    left [n_vms * (1 + cycles)] draws after [random.seed(cfg.seed)] (counts
    below zero taken as zero). *)
Theorem simulate_draw_count :
  forall (cfg : Config) (g0 : Rng) (s : Summary) (cfg' : Config) (g' : Rng),
    simulate rng_seed rng_random sin24 cfg g0 = Ok (s, cfg', g') ->
    g' = Nat.iter (Z.to_nat (n_vms cfg) * S (Z.to_nat (cycles cfg)))
                  (fun r => snd (rng_random r)) (rng_seed (seed cfg)).
Proof.
  intros cfg g0 s cfg' g' H. unfold simulate in H.
  bind_inv H. rename a into st0. bind_inv H. rename a into st. bind_inv H.
  inversion H; subst.
  destruct (init_state_wf Rng rng_seed rng_random _ _ Hbind) as [_ [Hwf0 _]].
  rewrite (run_cycles_draws cfg _ _ _ Hwf0 Hbind0), range_length.
  unfold init_state in Hbind. bind_inv Hbind.
  match goal with
  | Hv : init_vms _ _ _ _ = Ok ?x |- _ =>
      destruct x as [vms g]; inversion Hbind; subst; simpl;
      rewrite (init_vms_draws _ _ _ _ _ Hv)
  end.
  rewrite range_length, <- iter_plus. f_equal. lia.
Qed.

Lemma run_cycles_invariant : forall (P : SimState Rng -> Prop),
  (forall t st st', P st -> cycle rng_random sin24 t st = Ok st' -> P st') ->
  forall ts st st', P st -> run_cycles rng_random sin24 ts st = Ok st' -> P st'.
Proof.
  intros P Hstep ts st st' HP H. unfold run_cycles in H.
  apply (foldM_invariant _ _ (fun s t => cycle rng_random sin24 t s) P) with (xs := ts)
    (acc := st); try assumption.
  intros acc t acc' Hacc Hc. eapply Hstep; eassumption.
Qed.

Lemma fresh_idle_power : forall h : Host,
  fresh_up_to_status h -> power_idle_watts h = 120.0%Q.
Proof. intros h H. rewrite H. reflexivity. Qed.

Lemma off_hosts_idle_sum : forall hosts : list Host,
  Forall fresh_up_to_status hosts ->
  (py_sum (map power_idle_watts (off_hosts hosts))
   == 120 * inject_Z (Z.of_nat (length (off_hosts hosts))))%Q.
Proof.
  intros hosts H. induction H as [|h hosts Hh H IH]; simpl.
  - reflexivity.
  - destruct (is_off h); [|exact IH].
    simpl map. rewrite py_sum_cons, IH, (fresh_idle_power h Hh).
    simpl length. rewrite Nat2Z.inj_succ, <- Z.add_1_r, inject_Z_plus.
    change (inject_Z 1) with 1%Q. lra.
Qed.

Lemma cycle_kwh_step : forall (t : Z) (st st' : SimState Rng),
  cycle rng_random sin24 t st = Ok st' ->
  total_kwh st' =
    (total_kwh st
     + py_sum (map power_idle_watts (off_hosts (st_hosts st')))
       * dt_hours (st_cfg st) / 1000.0)%Q /\
  dt_hours (st_cfg st') = dt_hours (st_cfg st).
Proof.
  intros t st st' H. apply cycle_Ok in H.
  destruct H as [vms [g [ps [vms' [[|] [_ [_ [_ ->]]]]]]]]; simpl; split; reflexivity.
Qed.

Lemma cycle_kwh_wf : forall (cfg : Config) (t : Z) (st st' : SimState Rng),
  state_wf cfg st ->
  cycle rng_random sin24 t st = Ok st' ->
  (total_kwh st'
   == total_kwh st
      + 120 * inject_Z (Z.of_nat (length (off_hosts (st_hosts st'))))
        * dt_hours cfg / 1000)%Q.
Proof.
  intros cfg t st st' Hwf Hc.
  pose proof (cycle_state_wf Rng rng_random sin24 _ _ _ _ Hwf Hc) as [[_ Hfresh] _].
  destruct Hwf as [_ [_ Hcfg]].
  destruct (cycle_kwh_step t st st' Hc) as [-> Hdt].
  rewrite (off_hosts_idle_sum _ Hfresh). rewrite Hcfg. simpl dt_hours.
  unfold Qdiv. apply Qplus_comp; [reflexivity|].
  apply Qmult_comp; [reflexivity | vm_compute; reflexivity].
Qed.

(** X12.  In every cycle of a run the energy credited is 0.12 kWh per OFF
    host and hour: the running total grows by
    [120 * (number of OFF hosts after shutdown) * dt_hours / 1000], the idle
    power being the constructor's 120 W for every host. *)
Theorem cycle_energy_per_off_host :
  forall (cfg : Config) (earlier : list Z) (t : Z) (st0 st st' : SimState Rng),
    init_state rng_seed rng_random cfg = Ok st0 ->
    run_cycles rng_random sin24 earlier st0 = Ok st ->
    cycle rng_random sin24 t st = Ok st' ->
    (total_kwh st'
     == total_kwh st
        + 120 * inject_Z (Z.of_nat (length (off_hosts (st_hosts st'))))
          * dt_hours cfg / 1000)%Q.
Proof.
  intros cfg earlier t st0 st st' Hinit Hrun Hc.
  exact (cycle_kwh_wf cfg t st st' (run_state_wf _ _ _ _ Hinit Hrun) Hc).
Qed.

(** X13.  The three run counters never go down and are never negative: in
    every cycle of a run the migration count grows by the length of the
    plan, the breach count by zero or one, and, when [dt_hours] is not
    negative, the energy total does not decrease either. *)
Theorem counters_never_decrease :
  forall (cfg : Config) (earlier : list Z) (t : Z) (st0 st st' : SimState Rng),
    init_state rng_seed rng_random cfg = Ok st0 ->
    run_cycles rng_random sin24 earlier st0 = Ok st ->
    cycle rng_random sin24 t st = Ok st' ->
    (0 <= total_migrations st <= total_migrations st')%Z /\
    (0 <= total_breaches st <= total_breaches st')%Z /\
    (total_breaches st' <= total_breaches st + 1)%Z /\
    ((0 <= dt_hours cfg)%Q ->
     (0 <= total_kwh st)%Q /\ (total_kwh st <= total_kwh st')%Q).
Proof.
  intros cfg earlier t st0 st st' Hinit Hrun Hc.
  assert (Hstep : forall t1 s1 s2,
            state_wf cfg s1 -> cycle rng_random sin24 t1 s1 = Ok s2 ->
            (total_migrations s1 <= total_migrations s2)%Z /\
            (total_breaches s1 <= total_breaches s2 <= total_breaches s1 + 1)%Z /\
            ((0 <= dt_hours cfg)%Q -> (total_kwh s1 <= total_kwh s2)%Q)).
  { intros t1 s1 s2 Hwf1 H12.
    pose proof (cycle_kwh_wf cfg t1 s1 s2 Hwf1 H12) as Hk.
    pose proof (cycle_Ok Rng rng_random sin24 _ _ _ H12)
      as [vms [g [ps [vms' [breach [_ [_ [_ E]]]]]]]].
    split; [rewrite E; simpl; lia|]. split; [rewrite E; destruct breach; simpl; lia|].
    intro Hdt. rewrite Hk.
    set (n := inject_Z (Z.of_nat (length (off_hosts (st_hosts s2))))).
    assert (Hn : (0 <= n)%Q).
    { unfold n. change 0%Q with (inject_Z 0). rewrite <- Zle_Qle. lia. }
    assert (Hprod : (0 <= 120 * n * dt_hours cfg)%Q).
    { apply Qmult_le_0_compat; [lra | exact Hdt]. }
    assert (Hdiv : (0 <= 120 * n * dt_hours cfg / 1000)%Q).
    { apply Qle_shift_div_l; [reflexivity | lra]. }
    lra. }
  assert (Hinv : state_wf cfg st /\ (0 <= total_migrations st)%Z /\
                 (0 <= total_breaches st)%Z /\
                 ((0 <= dt_hours cfg)%Q -> (0 <= total_kwh st)%Q)).
  { apply (run_cycles_invariant
             (fun s => state_wf cfg s /\ (0 <= total_migrations s)%Z /\
                       (0 <= total_breaches s)%Z /\
                       ((0 <= dt_hours cfg)%Q -> (0 <= total_kwh s)%Q)))
      with (ts := earlier) (st := st0); [| |exact Hrun].
    - intros t1 s1 s2 [Hwf1 [Hm [Hb Hk]]] H12.
      destruct (Hstep t1 s1 s2 Hwf1 H12) as [Hm' [Hb' Hk']].
      split; [exact (cycle_state_wf Rng rng_random sin24 _ _ _ _ Hwf1 H12)|].
      split; [lia|]. split; [lia|]. intro Hdt. specialize (Hk Hdt). specialize (Hk' Hdt). lra.
    - destruct (init_state_wf Rng rng_seed rng_random _ _ Hinit) as [_ [Hwf0 _]].
      split; [exact Hwf0|].
      unfold init_state in Hinit. bind_inv Hinit.
      match goal with x : (list VM * Rng)%type |- _ => destruct x end.
      inversion Hinit; subst. simpl. split; [lia|]. split; [lia|].
      intros _. unfold Qle. simpl. lia. }
  destruct Hinv as [Hwf [Hm [Hb Hk]]].
  destruct (Hstep t st st' Hwf Hc) as [Hm' [Hb' Hk']].
  split; [lia|]. split; [lia|]. split; [lia|].
  intro Hdt. split; [apply Hk; exact Hdt | apply Hk'; exact Hdt].
Qed.

Lemma shutdown_counts : forall (vms : list VM) (hosts : list Host),
  (length (active_hosts (map (shutdown_result vms) hosts))
   <= length (active_hosts hosts))%nat /\
  (length (off_hosts hosts)
   <= length (off_hosts (map (shutdown_result vms) hosts)))%nat.
Proof.
  intros vms hosts. induction hosts as [|h hosts [IH1 IH2]]; simpl.
  - split; lia.
  - destruct (shutdown_result_status vms h) as [_ [Hoff _]].
    unfold is_on, is_off in *.
    destruct (status h); destruct (status (shutdown_result vms h)) eqn:E; simpl;
      try (split; lia).
    discriminate (Hoff eq_refl).
Qed.

Lemma on_off_partition : forall hosts : list Host,
  (length (active_hosts hosts) + length (off_hosts hosts))%nat = length hosts.
Proof.
  intro hosts. induction hosts as [|h hosts IH]; simpl; [reflexivity|].
  unfold is_on, is_off. destruct (status h); simpl; lia.
Qed.

(** X14.  A cycle keeps the host list at its length, never raises the number
    of ON hosts and never lowers the number of OFF hosts; every host is
    counted by exactly one of [active_hosts] and [off_hosts]. *)
Theorem on_hosts_never_increase :
  forall (t : Z) (st st' : SimState Rng),
    cycle rng_random sin24 t st = Ok st' ->
    length (st_hosts st') = length (st_hosts st) /\
    (length (active_hosts (st_hosts st')) <= length (active_hosts (st_hosts st)))%nat /\
    (length (off_hosts (st_hosts st)) <= length (off_hosts (st_hosts st')))%nat /\
    (length (active_hosts (st_hosts st')) + length (off_hosts (st_hosts st')))%nat
      = length (st_hosts st').
Proof.
  intros t st st' H. rewrite (cycle_hosts Rng rng_random sin24 _ _ _ H).
  destruct (shutdown_counts (st_vms st') (st_hosts st)) as [Ha Hb].
  split; [apply length_map|]. split; [exact Ha|]. split; [exact Hb|].
  apply on_off_partition.
Qed.

(** X15.  [simulate] returns a record for every configuration with a host
    or without VMs, and raises [ZeroDivisionError], and nothing else, exactly
    when [n_hosts] is 0 and [n_vms] is positive. *)
Theorem simulate_raises_only_without_hosts :
  forall (cfg : Config) (g0 : Rng),
    match simulate rng_seed rng_random sin24 cfg g0 with
    | Ok _ => (n_hosts cfg <> 0 \/ n_vms cfg <= 0)%Z
    | Raise e => e = ZeroDivisionError /\ n_hosts cfg = 0%Z /\ (0 < n_vms cfg)%Z
    end.
Proof.
  intros cfg g0.
  destruct (Z.eq_dec (n_hosts cfg) 0) as [Hz|Hnz].
  - destruct (Z_lt_le_dec 0 (n_vms cfg)) as [Hpos|Hle].
    + rewrite (simulate_no_hosts Rng rng_seed rng_random sin24 cfg g0 Hz Hpos). auto.
    + destruct (simulate_total Rng rng_seed rng_random sin24 cfg g0 (or_intror Hle))
        as [s [cfg' [g' E]]].
      rewrite E. right. exact Hle.
  - destruct (simulate_total Rng rng_seed rng_random sin24 cfg g0 (or_introl Hnz))
      as [s [cfg' [g' E]]].
    rewrite E. left. exact Hnz.
Qed.

Lemma init_state_counters : forall (cfg : Config) (st0 : SimState Rng),
  init_state rng_seed rng_random cfg = Ok st0 ->
  st_cfg st0 = cfg /\ total_kwh st0 = 0.0%Q /\
  total_migrations st0 = 0%Z /\ total_breaches st0 = 0%Z /\
  st_hosts st0 = map new_host (range (n_hosts cfg)).
Proof.
  intros cfg st0 H. unfold init_state in H. bind_inv H.
  match goal with x : (list VM * Rng)%type |- _ => destruct x end.
  inversion H; subst. simpl. repeat split; reflexivity.
Qed.

Lemma run_breach_count : forall (ts : list Z) (st st' : SimState Rng),
  run_cycles rng_random sin24 ts st = Ok st' ->
  (total_breaches st <= total_breaches st'
   <= total_breaches st + Z.of_nat (length ts))%Z.
Proof.
  intros ts. induction ts as [|t ts IH]; intros st st' H.
  - inversion H; subst. simpl. lia.
  - unfold run_cycles in H. simpl in H. bind_inv H. rename a into st1.
    specialize (IH st1 st' H).
    destruct (cycle_cfg Rng rng_random sin24 _ _ _ Hbind) as [[Hb _] | [Hb _]];
      rewrite Hb in IH; simpl length; lia.
Qed.

(** X16.  A run counts at most one breach per cycle, so the record's
    [hi_watermark_breaches] lies between 0 and the number of cycles; and once
    a run has counted a breach, the [target_util] it leaves in the
    configuration is at least 0.70, whatever value was configured. *)
Theorem breaches_bounded_and_target_floored :
  forall (cfg : Config) (g0 : Rng) (s : Summary) (cfg' : Config) (g' : Rng),
    simulate rng_seed rng_random sin24 cfg g0 = Ok (s, cfg', g') ->
    (0 <= hi_watermark_breaches s <= Z.max 0 (cycles cfg))%Z /\
    ((0 < hi_watermark_breaches s)%Z -> (0.70 <= target_util cfg')%Q).
Proof.
  intros cfg g0 s cfg' g' H. unfold simulate in H.
  bind_inv H. rename a into st0. bind_inv H. rename a into st. bind_inv H.
  inversion H; subst.
  destruct (init_state_counters _ _ Hbind) as [_ [_ [_ [Hb0 _]]]].
  destruct (summarize_Ok Rng _ _ Hbind1) as [_ [_ [_ [Hbr _]]]]. rewrite Hbr.
  pose proof (run_breach_count _ _ _ Hbind0) as Hcount.
  rewrite range_length, Hb0 in Hcount. split; [lia|].
  apply (run_cycles_invariant
           (fun s1 => (0 < total_breaches s1)%Z -> (0.70 <= target_util (st_cfg s1))%Q))
    with (ts := range (cycles cfg)) (st := st0); [| |exact Hbind0].
  - intros t s1 s2 Hinv Hc.
    destruct (cycle_cfg Rng rng_random sin24 _ _ _ Hc) as [[Hb Hcfg] | [Hb Hcfg]].
    + rewrite Hb, Hcfg. exact Hinv.
    + intros _. rewrite Hcfg. simpl. apply relax_target_bounds.
  - rewrite Hb0. intro Hpos. lia.
Qed.

Lemma py_round_zero : forall (x : Q) (n : nat), (x == 0)%Q -> (py_round x n == 0)%Q.
Proof.
  intros x n H. unfold py_round.
  rewrite (round_half_even_integer _ 0); [reflexivity|].
  rewrite H. reflexivity.
Qed.

Lemma off_hosts_nil_on : forall (hosts : list Host) (h : Host),
  off_hosts hosts = [] -> In h hosts -> status h = ON.
Proof.
  intros hosts h Hoff Hin. destruct (status h) eqn:E; [reflexivity|]. exfalso.
  assert (Hh : In h (off_hosts hosts)).
  { unfold off_hosts. apply filter_In. split; [exact Hin|]. unfold is_off. rewrite E. reflexivity. }
  rewrite Hoff in Hh. destruct Hh.
Qed.

(** One cycle of a run with a single host and at least one VM: nothing is
    planned, the host stays ON and no energy is credited. *)
Lemma single_host_cycle : forall (cfg : Config) (t : Z) (st st' : SimState Rng),
  n_hosts cfg = 1%Z -> (1 <= n_vms cfg)%Z ->
  state_wf cfg st ->
  Forall (placed_on (st_hosts st)) (st_vms st) ->
  off_hosts (st_hosts st) = [] ->
  cycle rng_random sin24 t st = Ok st' ->
  total_migrations st' = total_migrations st /\
  (total_kwh st' == total_kwh st)%Q /\
  off_hosts (st_hosts st') = [].
Proof.
  intros cfg t st st' Hnh Hnv Hwf Hplaced Hoff Hc.
  pose proof Hwf as [[Hids Hfresh] [[Hvids _] _]].
  assert (Hid0 : forall h, In h (st_hosts st) -> h_id h = 0%Z).
  { intros h Hh. assert (Hin : In (h_id h) (range (n_hosts cfg))).
    { rewrite <- Hids. apply in_map. exact Hh. }
    apply In_range in Hin. lia. }
  pose proof (cycle_Ok Rng rng_random sin24 _ _ _ Hc)
    as [vms [g [ps [vms' [breach [Hplan [Hexec [_ E]]]]]]]].
  destruct (cycle_keeps_placed Rng rng_random sin24 cfg t st vms g ps vms'
              (conj Hids Hfresh) Hplaced Hplan) as [Hvms Hrest].
  pose proof (cycle_plan_Ok Rng rng_random sin24 _ _ _ _ _ Hplan) as [Hobs Hmoves].
  assert (Hempty : plan ps = []).
  { destruct (plan ps) as [|mv rest] eqn:Ep; [reflexivity|]. exfalso.
    assert (Hmv : In mv (plan ps)) by (rewrite Ep; left; reflexivity).
    destruct (plan_moves_ok _ _ _ _ Hmoves mv Hmv)
      as [Hne [[vm [Hvm [_ Hsrc]]] [d [Hd Hdst]]]].
    apply In_active_hosts in Hd. destruct Hd as [Hd _].
    rewrite Forall_forall in Hvms. destruct (Hvms vm Hvm) as [[h [Hh Hhid]] _].
    apply Hne. rewrite <- Hdst, <- Hsrc, <- Hhid, (Hid0 d Hd), (Hid0 h Hh). reflexivity. }
  destruct (Hrest Hexec) as [Hmid _].
  rewrite Hempty in Hexec. simpl in Hexec. inversion Hexec; subst vms'.
  assert (Hlen : length vms = Z.to_nat (n_vms cfg)).
  { rewrite (Forall2_length_eq _ _ _ _ _ (observe_predict_observed Rng rng_random sin24 _ _ _ _ Hobs)).
    rewrite <- (length_map v_id), Hvids. apply range_length. }
  assert (Hsame : map (shutdown_result vms) (st_hosts st) = st_hosts st).
  { rewrite <- (map_id (st_hosts st)) at 2. apply map_ext_in. intros h Hh.
    apply shutdown_result_occupied. unfold host_occupied. apply existsb_exists.
    destruct vms as [|vm rest]; [simpl in Hlen; lia|].
    exists vm. split; [left; reflexivity|]. apply Z.eqb_eq.
    inversion Hmid as [|? ? [[h' [Hh' Hhid']] _] _]; subst.
    rewrite <- Hhid', (Hid0 h Hh), (Hid0 h' Hh'). reflexivity. }
  rewrite E. simpl. rewrite Hsame, Hempty. simpl.
  split; [lia|]. split; [|exact Hoff].
  unfold cycle_energy. rewrite Hoff. simpl.
  unfold py_sum. simpl. unfold Qdiv. rewrite Qmult_0_l, Qmult_0_l. lra.
Qed.

(** X17.  With a single host and at least one VM a run never migrates, never
    powers the host off and credits no energy, for any number of cycles and
    any generator: the only host is every VM's own host, so every fit is a
    no-op. *)
Theorem single_host_run_is_idle :
  forall (cfg : Config) (g0 : Rng) (s : Summary) (cfg' : Config) (g' : Rng),
    n_hosts cfg = 1%Z ->
    (1 <= n_vms cfg)%Z ->
    simulate rng_seed rng_random sin24 cfg g0 = Ok (s, cfg', g') ->
    migrations_total s = 0%Z /\
    hosts_off_final s = 0%Z /\
    (energy_kwh_total s == 0)%Q.
Proof.
  intros cfg g0 s cfg' g' Hnh Hnv H. unfold simulate in H.
  bind_inv H. rename a into st0. bind_inv H. rename a into st. bind_inv H.
  inversion H; subst.
  destruct (init_state_wf Rng rng_seed rng_random _ _ Hbind) as [_ [Hwf0 Hpl0]].
  destruct (init_state_counters _ _ Hbind) as [_ [Hk0 [Hm0 [_ Hh0]]]].
  assert (Hinv : state_wf cfg st /\ Forall (placed_on (st_hosts st)) (st_vms st) /\
                 total_migrations st = 0%Z /\ (total_kwh st == 0)%Q /\
                 off_hosts (st_hosts st) = []).
  { apply (run_cycles_invariant
             (fun s1 => state_wf cfg s1 /\ Forall (placed_on (st_hosts s1)) (st_vms s1) /\
                        total_migrations s1 = 0%Z /\ (total_kwh s1 == 0)%Q /\
                        off_hosts (st_hosts s1) = []))
      with (ts := range (cycles cfg)) (st := st0); [| |exact Hbind0].
    - intros t s1 s2 [Hwf1 [Hpl1 [Hm1 [Hk1 Hoff1]]]] Hc.
      destruct (single_host_cycle cfg t s1 s2 Hnh Hnv Hwf1 Hpl1 Hoff1 Hc) as [Hm2 [Hk2 Hoff2]].
      split; [exact (cycle_state_wf Rng rng_random sin24 _ _ _ _ Hwf1 Hc)|].
      split; [exact (cycle_placed Rng rng_random sin24 cfg t s1 s2 Hwf1 Hpl1 Hc)|].
      split; [lia|]. split; [rewrite Hk2; exact Hk1 | exact Hoff2].
    - split; [exact Hwf0|]. split; [apply Hpl0; lia|]. split; [exact Hm0|].
      split; [rewrite Hk0; reflexivity|]. rewrite Hh0, Hnh. reflexivity. }
  destruct Hinv as [_ [_ [Hm [Hk Hoff]]]].
  destruct (summarize_Ok Rng _ _ Hbind1) as [He [Hmig [Hho _]]].
  rewrite He, Hmig, Hho, Hm, Hoff. split; [reflexivity|]. split; [reflexivity|].
  apply py_round_zero. exact Hk.
Qed.

Lemma off_hosts_new : forall ids : list Z, off_hosts (map new_host ids) = [].
Proof. intro ids. induction ids as [|i ids IH]; simpl; [reflexivity | exact IH]. Qed.

(** X18.  With [cycles <= 0] the loop body never runs: the record reports no
    migration, no breach, no host OFF and no energy, [final_target_util] is
    the configured [target_util] rounded to 3 places, and the configuration
    is left as it was. *)
Theorem no_cycles_run_changes_nothing :
  forall (cfg : Config) (g0 : Rng) (s : Summary) (cfg' : Config) (g' : Rng),
    (cycles cfg <= 0)%Z ->
    simulate rng_seed rng_random sin24 cfg g0 = Ok (s, cfg', g') ->
    cfg' = cfg /\
    migrations_total s = 0%Z /\
    hi_watermark_breaches s = 0%Z /\
    hosts_off_final s = 0%Z /\
    (energy_kwh_total s == 0)%Q /\
    final_target_util s = py_round (target_util cfg) 3.
Proof.
  intros cfg g0 s cfg' g' Hc H. unfold simulate in H.
  bind_inv H. rename a into st0. bind_inv H. rename a into st. bind_inv H.
  inversion H; subst.
  assert (Hr : range (cycles cfg) = []).
  { unfold range. replace (Z.to_nat (cycles cfg)) with O by lia. reflexivity. }
  rewrite Hr in Hbind0. inversion Hbind0; subst st.
  destruct (init_state_counters _ _ Hbind) as [Hcfg [Hk [Hm [Hb Hh]]]].
  destruct (summarize_Ok Rng _ _ Hbind1) as [He [Hmig [Hho [Hbr Htu]]]].
  rewrite He, Hmig, Hho, Hbr, Htu, Hcfg, Hk, Hm, Hb, Hh, off_hosts_new.
  repeat split; try reflexivity.
Qed.

Lemma shutdown_empties : forall hosts : list Host,
  active_hosts (map (shutdown_result []) hosts) = [].
Proof.
  intro hosts. induction hosts as [|h hosts IH]; simpl; [reflexivity|].
  assert (Hs : status (shutdown_result [] h) = OFF).
  { destruct (shutdown_result_status [] h) as [_ [Hoff Hon]].
    destruct (status h) eqn:E; [apply (Hon eq_refl); intros vm [] | apply Hoff; reflexivity]. }
  unfold is_on at 1. rewrite Hs. simpl. exact IH.
Qed.

(** One cycle of a run without VMs: every host goes OFF and nothing else
    happens. *)
Lemma no_vm_cycle : forall (t : Z) (st st' : SimState Rng),
  st_vms st = [] ->
  cycle rng_random sin24 t st = Ok st' ->
  st_vms st' = [] /\ active_hosts (st_hosts st') = [] /\
  length (st_hosts st') = length (st_hosts st) /\
  total_migrations st' = total_migrations st /\
  total_breaches st' = total_breaches st /\
  st_cfg st' = st_cfg st /\ st_rng st' = st_rng st.
Proof.
  intros t st st' Hv H.
  unfold cycle, cycle_plan, observe_predict in H. rewrite Hv in H. simpl in H.
  unfold plan_moves, plan_init, loads_predicted in H. simpl in H.
  rewrite shutdown_map in H. simpl in H.
  unfold breach_check in H. rewrite shutdown_empties in H. simpl in H.
  inversion H; subst. simpl.
  split; [reflexivity|]. split; [apply shutdown_empties|].
  split; [apply length_map|]. split; [lia|]. repeat split; reflexivity.
Qed.

(** X19.  A run without VMs and with at least one cycle powers every host
    off: the record counts all [n_hosts] hosts as OFF, no migration and no
    breach, both utilization figures are [0.0], the configuration is left as
    it was and the generator is left as seeded. *)
Theorem run_without_vms_powers_all_off :
  forall (cfg : Config) (g0 : Rng) (s : Summary) (cfg' : Config) (g' : Rng),
    (n_vms cfg <= 0)%Z ->
    (0 <= n_hosts cfg)%Z ->
    (1 <= cycles cfg)%Z ->
    simulate rng_seed rng_random sin24 cfg g0 = Ok (s, cfg', g') ->
    hosts_off_final s = n_hosts cfg /\
    migrations_total s = 0%Z /\
    hi_watermark_breaches s = 0%Z /\
    util_mean_final s = 0.0%Q /\
    util_p95_final s = 0.0%Q /\
    cfg' = cfg /\
    g' = rng_seed (seed cfg).
Proof.
  intros cfg g0 s cfg' g' Hnv Hnh Hcy H. unfold simulate in H.
  bind_inv H. rename a into st0. bind_inv H. rename a into st. bind_inv H.
  inversion H; subst.
  assert (Hst0 : st0 = mkState (map new_host (range (n_hosts cfg))) [] cfg 0.0 0 0
                               (rng_seed (seed cfg))).
  { assert (Hr : range (n_vms cfg) = []).
    { unfold range. replace (Z.to_nat (n_vms cfg)) with O by lia. reflexivity. }
    unfold init_state in Hbind. rewrite Hr in Hbind. simpl in Hbind.
    inversion Hbind. reflexivity. }
  assert (Hts : exists t ts, range (cycles cfg) = t :: ts).
  { unfold range. destruct (Z.to_nat (cycles cfg)) as [|k] eqn:E; [lia|].
    simpl. eexists. eexists. reflexivity. }
  destruct Hts as [t [ts Hts]]. rewrite Hts in Hbind0.
  unfold run_cycles in Hbind0. simpl in Hbind0. bind_inv Hbind0. rename a into st1.
  assert (H1 : st_vms st1 = [] /\ active_hosts (st_hosts st1) = [] /\
               length (st_hosts st1) = Z.to_nat (n_hosts cfg) /\
               total_migrations st1 = 0%Z /\ total_breaches st1 = 0%Z /\
               st_cfg st1 = cfg /\ st_rng st1 = rng_seed (seed cfg)).
  { destruct (no_vm_cycle t st0 st1) as [Ha [Hb [Hc [Hd [He [Hf Hg]]]]]];
      [rewrite Hst0; reflexivity | exact Hbind2 |].
    rewrite Hst0 in Hc, Hd, He, Hf, Hg. simpl in *.
    rewrite length_map, range_length in Hc. auto 10. }
  assert (Hinv : st_vms st = [] /\ active_hosts (st_hosts st) = [] /\
                 length (st_hosts st) = Z.to_nat (n_hosts cfg) /\
                 total_migrations st = 0%Z /\ total_breaches st = 0%Z /\
                 st_cfg st = cfg /\ st_rng st = rng_seed (seed cfg)).
  { apply (run_cycles_invariant
             (fun s1 => st_vms s1 = [] /\ active_hosts (st_hosts s1) = [] /\
                        length (st_hosts s1) = Z.to_nat (n_hosts cfg) /\
                        total_migrations s1 = 0%Z /\ total_breaches s1 = 0%Z /\
                        st_cfg s1 = cfg /\ st_rng s1 = rng_seed (seed cfg)))
      with (ts := ts) (st := st1); [|exact H1|exact Hbind0].
    intros t1 s1 s2 [Ha [_ [Hc [Hd [He [Hf Hg]]]]]] Hcyc.
    destruct (no_vm_cycle t1 s1 s2 Ha Hcyc) as [Ha' [Hb' [Hc' [Hd' [He' [Hf' Hg']]]]]].
    repeat split; congruence. }
  destruct Hinv as [Hv [Hact [Hlen [Hm [Hb [Hcfg Hg]]]]]].
  unfold summarize in Hbind1. rewrite Hv, Hact in Hbind1. simpl in Hbind1.
  inversion Hbind1; subst s. simpl.
  pose proof (on_off_partition (st_hosts st)) as Hpart. rewrite Hact in Hpart. simpl in Hpart.
  rewrite Hpart, Hlen.
  split; [lia|]. repeat split; assumption.
Qed.

Lemma Forall2_Forall : forall (A B : Type) (R : A -> B -> Prop) (P : A -> Prop)
  (P' : B -> Prop) (xs : list A) (ys : list B),
  (forall x y, R x y -> P x -> P' y) ->
  Forall2 R xs ys -> Forall P xs -> Forall P' ys.
Proof.
  intros A B R P P' xs ys HR H. induction H as [|x y xs ys Hxy H IH]; intro HP.
  - constructor.
  - inversion HP; subst. constructor; [eapply HR; eassumption | apply IH; assumption].
Qed.

Lemma init_vms_in_range : forall (ids : list Z) (nh : Z) (g g' : Rng) (vms : list VM),
  (forall r, between 0 1 (fst (rng_random r))) ->
  init_vms rng_random ids nh g = Ok (vms, g') ->
  Forall vm_in_range vms.
Proof.
  intros ids nh. induction ids as [|i ids IH]; intros g g' vms Hunit H; simpl in H.
  - inversion H. constructor.
  - bind_inv H. unfold uniform in H. pose proof (Hunit g) as [Hu0 Hu1].
    destruct (rng_random g) as [u g1]. simpl in Hu0, Hu1.
    bind_inv H. destruct a0 as [rest g2]. inversion H; subst.
    constructor; [|eapply IH; eassumption].
    assert (Hc : between 0 100 (10.0 + (60.0 - 10.0) * u)) by (split; lra).
    assert (Hm : between 0 100 (_bounded ((10.0 + (60.0 - 10.0) * u) * 0.8) 5.0 80.0)).
    { destruct (bounded_in_range ((10.0 + (60.0 - 10.0) * u) * 0.8) 5.0 80.0) as [Ha Hb].
      - unfold Qle. simpl. lia.
      - split; lra. }
    unfold vm_in_range, new_vm. simpl.
    split; [constructor; [exact Hc | constructor; [exact Hc | constructor]]|].
    constructor; [exact Hm | constructor; [exact Hm | constructor]].
Qed.

Lemma cycle_in_range : forall (t : Z) (st st' : SimState Rng),
  Forall vm_in_range (st_vms st) ->
  cycle rng_random sin24 t st = Ok st' ->
  Forall vm_in_range (st_vms st').
Proof.
  intros t st st' Hin H. apply cycle_Ok in H.
  destruct H as [vms [g [ps [vms' [breach [Hplan [Hexec [_ ->]]]]]]]]. simpl.
  apply cycle_plan_Ok in Hplan. destruct Hplan as [Hobs _].
  unfold observe_predict in Hobs. bind_inv Hobs. destruct a as [vms1 g1].
  bind_inv Hobs. inversion Hobs; subst.
  apply update_usage_appends in Hbind. apply mapM_Forall2 in Hbind0.
  apply execute_moved in Hexec.
  assert (H1 : Forall vm_in_range vms1).
  { eapply Forall2_Forall; [|exact Hbind|exact Hin].
    intros x y [c [m [-> [Hc Hm]]]] [Hx1 Hx2]. unfold vm_in_range. simpl.
    split; apply Forall_app; split; try assumption;
      (constructor; [assumption | constructor]). }
  assert (H2 : Forall vm_in_range vms).
  { apply (Forall2_Forall _ _ (fun x y => predict_ema x (alpha (st_cfg st)) = Ok y)
             vm_in_range vm_in_range vms1 vms); [|exact Hbind0|exact H1].
    intros x y Hxy Hx.
    destruct (predict_ema_Ok _ _ _ Hxy) as [c1 [c2 [m1 [m2 [_ [_ [_ [_ ->]]]]]]]].
    exact Hx. }
  apply (Forall2_Forall _ _ (moved (plan ps)) vm_in_range vm_in_range vms vms');
    [|exact Hexec|exact H2].
  intros x y [hid [-> _]] Hx. exact Hx.
Qed.

(** X20.  With a generator whose draws lie in [[0, 1]], every observation
    in the CPU and memory histories of every VM, the two initial samples
    included, lies in [[0, 100]] at the start of a run and after every
    cycle, for any [alpha] and any drift. *)
Theorem usage_stays_in_percent_range :
  forall (cfg : Config) (earlier : list Z) (st0 st : SimState Rng),
    (forall r, between 0 1 (fst (rng_random r))) ->
    init_state rng_seed rng_random cfg = Ok st0 ->
    run_cycles rng_random sin24 earlier st0 = Ok st ->
    Forall vm_in_range (st_vms st).
Proof.
  intros cfg earlier st0 st Hunit Hinit Hrun.
  destruct (init_state_wf Rng rng_seed rng_random _ _ Hinit) as [_ [Hwf0 _]].
  assert (Hinv : state_wf cfg st /\ Forall vm_in_range (st_vms st)).
  { apply (run_cycles_invariant
             (fun s1 => state_wf cfg s1 /\ Forall vm_in_range (st_vms s1)))
      with (ts := earlier) (st := st0); [| |exact Hrun].
    - intros t s1 s2 [Hwf1 Hr1] Hc.
      split; [exact (cycle_state_wf Rng rng_random sin24 _ _ _ _ Hwf1 Hc)|].
      exact (cycle_in_range t s1 s2 Hr1 Hc).
    - split; [exact Hwf0|].
      unfold init_state in Hinit. bind_inv Hinit.
      match goal with
      | Hv : init_vms _ _ _ _ = Ok ?x |- _ =>
          destruct x as [vms g]; inversion Hinit; subst; simpl;
          exact (init_vms_in_range _ _ _ _ _ Hunit Hv)
      end. }
  apply Hinv.
Qed.

Lemma plan_length_le : forall (cfg : Config) (t : Z) (st : SimState Rng)
  (vms : list VM) (g : Rng) (ps : PlanState),
  state_wf cfg st ->
  cycle_plan rng_random sin24 t st = Ok (vms, g, ps) ->
  (length (plan ps) <= Z.to_nat (n_vms cfg))%nat.
Proof.
  intros cfg t st vms g ps [_ [[Hids _] _]] Hplan.
  apply cycle_plan_Ok in Hplan. destruct Hplan as [Hobs Hmoves].
  pose proof (observed_ids _ _ _ (observe_predict_observed Rng rng_random sin24 _ _ _ _ Hobs) Hids)
    as Hv.
  assert (Hnd_v : NoDup (map v_id vms)) by (rewrite Hv; apply range_NoDup).
  pose proof (plan_moves_ids_NoDup _ _ _ _ Hnd_v Hmoves) as Hnd.
  rewrite <- (range_length (n_vms cfg)), <- Hv, length_map, <- (length_map move_id).
  rewrite <- (length_map v_id vms).
  apply NoDup_incl_length; [exact Hnd|].
  intros k Hk. apply in_map_iff in Hk. destruct Hk as [mv [<- Hmv]].
  destruct (plan_moves_ok _ _ _ _ Hmoves mv Hmv) as [_ [[vm [Hvm [Hid _]]] _]].
  unfold move_id. rewrite <- Hid. apply in_map. exact Hvm.
Qed.

Lemma run_migration_count : forall (cfg : Config) (ts : list Z) (st st' : SimState Rng),
  state_wf cfg st ->
  run_cycles rng_random sin24 ts st = Ok st' ->
  (total_migrations st <= total_migrations st'
   <= total_migrations st + Z.of_nat (length ts) * Z.of_nat (Z.to_nat (n_vms cfg)))%Z.
Proof.
  intros cfg ts. induction ts as [|t ts IH]; intros st st' Hwf H.
  - inversion H; subst. simpl. lia.
  - unfold run_cycles in H. simpl in H. bind_inv H. rename a into st1.
    pose proof (cycle_state_wf Rng rng_random sin24 _ _ _ _ Hwf Hbind) as Hwf1.
    specialize (IH st1 st' Hwf1 H).
    pose proof (cycle_Ok Rng rng_random sin24 _ _ _ Hbind)
      as [vms [g [ps [vms' [breach [Hplan [_ [_ E]]]]]]]].
    pose proof (plan_length_le cfg t st vms g ps Hwf Hplan) as Hlen.
    assert (Em : total_migrations st1
                 = (total_migrations st + Z.of_nat (length (plan ps)))%Z)
      by (rewrite E; reflexivity).
    rewrite Em in IH. simpl length. nia.
Qed.

(** X21.  A run migrates each VM at most once per cycle: the record's
    [migrations_total] lies between 0 and [n_vms * cycles] (counts below zero
    taken as zero). *)
Theorem migrations_bounded_by_vms_and_cycles :
  forall (cfg : Config) (g0 : Rng) (s : Summary) (cfg' : Config) (g' : Rng),
    simulate rng_seed rng_random sin24 cfg g0 = Ok (s, cfg', g') ->
    (0 <= migrations_total s <= Z.max 0 (n_vms cfg) * Z.max 0 (cycles cfg))%Z.
Proof.
  intros cfg g0 s cfg' g' H. unfold simulate in H.
  bind_inv H. rename a into st0. bind_inv H. rename a into st. bind_inv H.
  inversion H; subst.
  destruct (init_state_counters _ _ Hbind) as [_ [_ [Hm0 _]]].
  destruct (init_state_wf _ rng_seed rng_random _ _ Hbind) as [_ [Hwf0 _]].
  destruct (summarize_Ok Rng _ _ Hbind1) as [_ [Hm _]]. rewrite Hm.
  pose proof (run_migration_count cfg _ _ _ Hwf0 Hbind0) as Hcount.
  rewrite range_length, Hm0 in Hcount. lia.
Qed.

Lemma off_hosts_length_le : forall hosts : list Host,
  (length (off_hosts hosts) <= length hosts)%nat.
Proof.
  intro hosts. unfold off_hosts. induction hosts as [|h hosts IH]; simpl.
  - lia.
  - destruct (is_off h); simpl; lia.
Qed.

Lemma off_hosts_length_lt : forall (hosts : list Host) (h : Host),
  In h hosts -> status h = ON ->
  (length (off_hosts hosts) < length hosts)%nat.
Proof.
  intros hosts h Hin Hon. induction hosts as [|x hosts IH]; [destruct Hin|].
  pose proof (off_hosts_length_le hosts) as Hle.
  unfold off_hosts in *. simpl. destruct Hin as [->|Hin].
  - destruct (is_off h) eqn:E; [unfold is_off in E; rewrite Hon in E; discriminate E|lia].
  - specialize (IH Hin). destruct (is_off x); simpl; lia.
Qed.

(** X22.  A run never reports more hosts OFF than it has hosts, and a run
    with at least one host and one VM never powers every host off: each VM
    keeps its host ON, so [hosts_off_final] is at most [n_hosts - 1]. *)
Theorem run_with_vms_keeps_a_host_on :
  forall (cfg : Config) (g0 : Rng) (s : Summary) (cfg' : Config) (g' : Rng),
    simulate rng_seed rng_random sin24 cfg g0 = Ok (s, cfg', g') ->
    (0 <= hosts_off_final s <= Z.max 0 (n_hosts cfg))%Z /\
    ((1 <= n_hosts cfg)%Z -> (1 <= n_vms cfg)%Z ->
     (hosts_off_final s <= n_hosts cfg - 1)%Z).
Proof.
  intros cfg g0 s cfg' g' H. unfold simulate in H.
  bind_inv H. rename a into st0. bind_inv H. rename a into st. bind_inv H.
  inversion H; subst.
  destruct (init_state_wf _ rng_seed rng_random _ _ Hbind) as [_ [Hwf0 Hpl0]].
  destruct (run_cycles_state_wf _ rng_random sin24 _ _ _ _ Hwf0 Hbind0)
    as [[[Hhids _] [[Hvids _] _]] Hpl].
  destruct (summarize_Ok Rng _ _ Hbind1) as [_ [_ [Hoff _]]]. rewrite Hoff.
  assert (Hlen : length (st_hosts st) = Z.to_nat (n_hosts cfg))
    by (rewrite <- (length_map h_id), Hhids; apply range_length).
  pose proof (off_hosts_length_le (st_hosts st)) as Hle.
  split; [lia|]. intros Hnh Hnv.
  assert (Hplaced : Forall (placed_on (st_hosts st)) (st_vms st))
    by (apply Hpl; apply Hpl0; lia).
  assert (Hvlen : length (st_vms st) = Z.to_nat (n_vms cfg))
    by (rewrite <- (length_map v_id), Hvids; apply range_length).
  destruct (st_vms st) as [|vm vms] eqn:Evms; [simpl in Hvlen; lia|].
  inversion Hplaced as [|? ? [[h [Hh Hid]] Hon] _]; subst.
  pose proof (off_hosts_length_lt (st_hosts st) h Hh (Hon h Hh Hid)) as Hlt.
  lia.
Qed.

End RunProperties.

(** X23.  [any_high_watermark] is monotone in the watermark: loads that
    breach a watermark breach every lower one, so lowering [hi_watermark]
    never hides a breach. *)
Theorem watermark_breach_monotone :
  forall (loads : dict Q) (on : list Host) (hi hi' : Q),
    (hi <= hi')%Q ->
    any_high_watermark loads on hi' = true ->
    any_high_watermark loads on hi = true.
Proof.
  intros loads on hi hi' Hle H. unfold any_high_watermark in *.
  apply existsb_exists in H. destruct H as [item [Hin Hover]].
  apply existsb_exists. exists item. split; [exact Hin|].
  unfold over_watermark in *.
  apply andb_true_iff in Hover. destruct Hover as [Hpos Hgt].
  apply andb_true_iff. split; [exact Hpos|].
  apply Qlt_bool_iff in Hpos. apply Qlt_bool_iff in Hgt. apply Qlt_bool_iff.
  eapply Qle_lt_trans; [|exact Hgt].
  rewrite (Qmult_comm _ hi), (Qmult_comm _ hi').
  apply Qmult_le_compat_r; [exact Hle|]. apply Qlt_le_weak. exact Hpos.
Qed.

(** ** The further properties on the sample runs *)

Lemma two_host_run_nil :
  run_cycles sample_random sin24_table [] two_host_state0 = Ok two_host_state0.
Proof. reflexivity. Qed.

Lemma two_host_simulate :
  simulate sample_seed sample_random sin24_table two_host_config 0%Z
  = Ok (fst (fst two_host_result), snd (fst two_host_result), snd two_host_result).
Proof. vm_compute. reflexivity. Qed.

Lemma crowded_simulate :
  simulate sample_seed sample_random sin24_table crowded_default_config 0%Z
  = Ok (fst (fst crowded_result), snd (fst crowded_result), snd crowded_result).
Proof. vm_compute. reflexivity. Qed.

(** The sample generator draws from [[0, 1]]. *)
Lemma sample_random_unit : forall g : Z, between 0 1 (fst (sample_random g)).
Proof.
  intro g. unfold sample_random, between. cbv zeta. unfold fst.
  set (g' := ((1103515245 * g + 12345) mod 2147483648)%Z).
  assert (Hg : (0 <= g' < 2147483648)%Z) by (apply Z.mod_pos_bound; lia).
  pose proof (Qred_correct (g' # 2147483648)) as E.
  split.
  - rewrite E. unfold Qle. simpl. lia.
  - rewrite E. unfold Qle. simpl. lia.
Qed.

(** [_bounded(150, 0, 100)] is 100. *)
Lemma bounded_clamps_witness :
  (0 <= 100)%Q /\ between 0 100 (_bounded 150 0 100) /\ (_bounded 150 0 100 == 100)%Q.
Proof.
  assert (H : (0 <= 100)%Q) by (unfold Qle; simpl; lia).
  pose proof (bounded_clamps 150 0 100 H) as [Ha [_ [_ Hb]]].
  split; [exact H|]. split; [exact Ha|]. apply Hb. reflexivity.
Defined.

(** The prediction of the sample VM uses 20 and 40, and 16 and 32. *)
Lemma predict_ema_last_two_witness :
  cpu_use_hist sample_vm = [10] ++ [20; 40] /\
  mem_use_hist sample_vm = [8] ++ [16; 32] /\
  predict_ema sample_vm 0.6
    = Ok (mkVM 0 0 ([10] ++ [20; 40]) ([8] ++ [16; 32])
               (0.6 * 40 + (1 - 0.6) * 20)%Q (0.6 * 32 + (1 - 0.6) * 16)%Q).
Proof.
  split; [reflexivity|]. split; [reflexivity|].
  exact (predict_ema_last_two sample_vm 0.6 [10] [8] 20 40 16 32 eq_refl eq_refl).
Defined.

(** The candidate of the two-host run fits host 0, the first host. *)
Lemma first_fit_returns_first_witness :
  first_fit two_host_candidate (active_hosts (st_hosts two_host_state0))
            (cpu_loads two_host_plan0) (mem_loads two_host_plan0) 0.80
    = Ok (Some (new_host 0)) /\
  exists pre post,
    active_hosts (st_hosts two_host_state0) = pre ++ new_host 0 :: post /\
    fits two_host_candidate (cpu_loads two_host_plan0) (mem_loads two_host_plan0) 0.80
         (new_host 0) /\
    forall h, In h pre ->
      ~ fits two_host_candidate (cpu_loads two_host_plan0) (mem_loads two_host_plan0) 0.80 h.
Proof.
  assert (H : first_fit two_host_candidate (active_hosts (st_hosts two_host_state0))
                (cpu_loads two_host_plan0) (mem_loads two_host_plan0) 0.80
              = Ok (Some (new_host 0))) by (vm_compute; reflexivity).
  split; [exact H|].
  exact (first_fit_returns_first two_host_candidate (active_hosts (st_hosts two_host_state0))
           (cpu_loads two_host_plan0) (mem_loads two_host_plan0) 0.80
           (Some (new_host 0)) H).
Defined.

(** In the two-host run host 1, which the moved VM leaves, keeps its tally. *)
Lemma planner_keeps_other_tallies_witness :
  loads_predicted (active_hosts (st_hosts two_host_state0)) two_host_vms
    = Ok (cpu_loads two_host_plan0, mem_loads two_host_plan0) /\
  plan_moves two_host_config (active_hosts (st_hosts two_host_state0)) two_host_vms
    = Ok two_host_plan /\
  dict_get 1%Z (cpu_loads two_host_plan) = dict_get 1%Z (cpu_loads two_host_plan0).
Proof.
  assert (H1 : loads_predicted (active_hosts (st_hosts two_host_state0)) two_host_vms
               = Ok (cpu_loads two_host_plan0, mem_loads two_host_plan0))
    by (vm_compute; reflexivity).
  assert (H2 : plan_moves two_host_config (active_hosts (st_hosts two_host_state0))
                 two_host_vms = Ok two_host_plan) by (vm_compute; reflexivity).
  pose proof (planner_keeps_other_tallies two_host_config
                (active_hosts (st_hosts two_host_state0)) two_host_vms
                (cpu_loads two_host_plan0) (mem_loads two_host_plan0) two_host_plan H1 H2)
    as [_ [_ [Hsame _]]].
  split; [exact H1|]. split; [exact H2|].
  apply (Hsame 1%Z). intro Hin. vm_compute in Hin. destruct Hin as [Hin|[]]. discriminate Hin.
Defined.

(** The plan of the two-host run names VM 1 once; applying it cannot raise. *)
Lemma each_vm_moved_at_most_once_witness :
  init_state sample_seed sample_random two_host_config = Ok two_host_state0 /\
  cycle_plan sample_random sin24_table 0 two_host_state0
    = Ok (two_host_vms, two_host_rng, two_host_plan) /\
  NoDup (map move_id (plan two_host_plan)) /\
  execute (plan two_host_plan) two_host_vms
    = Ok (map (after_moves (plan two_host_plan)) two_host_vms).
Proof.
  pose proof (each_vm_moved_at_most_once Z sample_seed sample_random sin24_table
                two_host_config [] 0 two_host_state0 two_host_state0
                two_host_vms two_host_rng two_host_plan
                two_host_init two_host_run_nil two_host_cycle_plan) as [Ha [_ [Hb _]]].
  split; [exact two_host_init|]. split; [exact two_host_cycle_plan|].
  split; [exact Ha | exact Hb].
Defined.

(** The first cycle of the two-host run appends one sample per history. *)
Lemma cycle_appends_one_sample_witness :
  cycle sample_random sin24_table 0 two_host_state0 = Ok two_host_state1 /\
  Forall2 one_more_sample (st_vms two_host_state0) (st_vms two_host_state1).
Proof.
  split; [exact two_host_cycle0|].
  exact (cycle_appends_one_sample Z sample_random sin24_table 0
           two_host_state0 two_host_state1 two_host_cycle0).
Defined.

(** The two-host run of one cycle takes four draws. *)
Lemma simulate_draw_count_witness :
  simulate sample_seed sample_random sin24_table two_host_config 0%Z
    = Ok (fst (fst two_host_result), snd (fst two_host_result), snd two_host_result) /\
  snd two_host_result
    = Nat.iter (Z.to_nat (n_vms two_host_config) * S (Z.to_nat (cycles two_host_config)))
               (fun r => snd (sample_random r)) (sample_seed (seed two_host_config)).
Proof.
  split; [exact two_host_simulate|].
  exact (simulate_draw_count Z sample_seed sample_random sin24_table two_host_config 0%Z
           (fst (fst two_host_result)) (snd (fst two_host_result)) (snd two_host_result)
           two_host_simulate).
Defined.

(** The first cycle of the two-host run credits 0.12 kWh for host 1. *)
Lemma cycle_energy_per_off_host_witness :
  init_state sample_seed sample_random two_host_config = Ok two_host_state0 /\
  cycle sample_random sin24_table 0 two_host_state0 = Ok two_host_state1 /\
  (total_kwh two_host_state1
   == total_kwh two_host_state0
      + 120 * inject_Z (Z.of_nat (length (off_hosts (st_hosts two_host_state1))))
        * dt_hours two_host_config / 1000)%Q.
Proof.
  split; [exact two_host_init|]. split; [exact two_host_cycle0|].
  exact (cycle_energy_per_off_host Z sample_seed sample_random sin24_table two_host_config
           [] 0 two_host_state0 two_host_state0 two_host_state1
           two_host_init two_host_run_nil two_host_cycle0).
Defined.

(** The counters of the two-host run over its first cycle. *)
Lemma counters_never_decrease_witness :
  init_state sample_seed sample_random two_host_config = Ok two_host_state0 /\
  cycle sample_random sin24_table 0 two_host_state0 = Ok two_host_state1 /\
  (0 <= total_migrations two_host_state0 <= total_migrations two_host_state1)%Z /\
  (0 <= total_breaches two_host_state0 <= total_breaches two_host_state1)%Z /\
  (total_kwh two_host_state0 <= total_kwh two_host_state1)%Q.
Proof.
  pose proof (counters_never_decrease Z sample_seed sample_random sin24_table two_host_config
                [] 0 two_host_state0 two_host_state0 two_host_state1
                two_host_init two_host_run_nil two_host_cycle0) as [Ha [Hb [_ Hc]]].
  split; [exact two_host_init|]. split; [exact two_host_cycle0|].
  split; [exact Ha|]. split; [exact Hb|].
  apply Hc. unfold Qle. simpl. lia.
Defined.

(** The first cycle of the two-host run takes the ON hosts from two to one. *)
Lemma on_hosts_never_increase_witness :
  cycle sample_random sin24_table 0 two_host_state0 = Ok two_host_state1 /\
  (length (active_hosts (st_hosts two_host_state1))
   <= length (active_hosts (st_hosts two_host_state0)))%nat.
Proof.
  split; [exact two_host_cycle0|].
  exact (proj1 (proj2 (on_hosts_never_increase Z sample_random sin24_table 0
                         two_host_state0 two_host_state1 two_host_cycle0))).
Defined.

(** The crowded run counts one breach in its one cycle and leaves 0.78. *)
Lemma breaches_bounded_and_target_floored_witness :
  simulate sample_seed sample_random sin24_table crowded_default_config 0%Z
    = Ok (fst (fst crowded_result), snd (fst crowded_result), snd crowded_result) /\
  (0 <= hi_watermark_breaches (fst (fst crowded_result))
   <= Z.max 0 (cycles crowded_default_config))%Z /\
  (0.70 <= target_util (snd (fst crowded_result)))%Q.
Proof.
  pose proof (breaches_bounded_and_target_floored Z sample_seed sample_random sin24_table
                crowded_default_config 0%Z
                (fst (fst crowded_result)) (snd (fst crowded_result)) (snd crowded_result)
                crowded_simulate) as [Ha Hb].
  split; [exact crowded_simulate|]. split; [exact Ha|].
  apply Hb. reflexivity.
Defined.

(** The crowded run has one host: no migration, no host OFF, no energy. *)
Lemma single_host_run_is_idle_witness :
  n_hosts crowded_default_config = 1%Z /\
  (1 <= n_vms crowded_default_config)%Z /\
  simulate sample_seed sample_random sin24_table crowded_default_config 0%Z
    = Ok (fst (fst crowded_result), snd (fst crowded_result), snd crowded_result) /\
  migrations_total (fst (fst crowded_result)) = 0%Z /\
  hosts_off_final (fst (fst crowded_result)) = 0%Z /\
  (energy_kwh_total (fst (fst crowded_result)) == 0)%Q.
Proof.
  assert (H2 : (1 <= n_vms crowded_default_config)%Z) by (simpl; lia).
  split; [reflexivity|]. split; [exact H2|]. split; [exact crowded_simulate|].
  exact (single_host_run_is_idle Z sample_seed sample_random sin24_table
           crowded_default_config 0%Z
           (fst (fst crowded_result)) (snd (fst crowded_result)) (snd crowded_result)
           eq_refl H2 crowded_simulate).
Defined.

(** A run of no cycle leaves the configuration as it was. *)
Lemma no_cycles_run_changes_nothing_witness :
  (cycles no_cycle_config <= 0)%Z /\
  simulate sample_seed sample_random sin24_table no_cycle_config 0%Z
    = Ok (fst (fst no_cycle_result), snd (fst no_cycle_result), snd no_cycle_result) /\
  snd (fst no_cycle_result) = no_cycle_config /\
  migrations_total (fst (fst no_cycle_result)) = 0%Z.
Proof.
  assert (H1 : (cycles no_cycle_config <= 0)%Z) by (simpl; lia).
  assert (H2 : simulate sample_seed sample_random sin24_table no_cycle_config 0%Z
               = Ok (fst (fst no_cycle_result), snd (fst no_cycle_result),
                     snd no_cycle_result)) by (vm_compute; reflexivity).
  pose proof (no_cycles_run_changes_nothing Z sample_seed sample_random sin24_table
                no_cycle_config 0%Z
                (fst (fst no_cycle_result)) (snd (fst no_cycle_result)) (snd no_cycle_result)
                H1 H2) as [Ha [Hb _]].
  split; [exact H1|]. split; [exact H2|]. split; [exact Ha | exact Hb].
Defined.

(** A run of three hosts without VMs ends with the three hosts OFF. *)
Lemma run_without_vms_powers_all_off_witness :
  (n_vms no_vm_config <= 0)%Z /\ (0 <= n_hosts no_vm_config)%Z /\
  (1 <= cycles no_vm_config)%Z /\
  simulate sample_seed sample_random sin24_table no_vm_config 0%Z
    = Ok (fst (fst no_vm_result), snd (fst no_vm_result), snd no_vm_result) /\
  hosts_off_final (fst (fst no_vm_result)) = n_hosts no_vm_config.
Proof.
  assert (H1 : (n_vms no_vm_config <= 0)%Z) by (simpl; lia).
  assert (H2 : (0 <= n_hosts no_vm_config)%Z) by (simpl; lia).
  assert (H3 : (1 <= cycles no_vm_config)%Z) by (simpl; lia).
  assert (H4 : simulate sample_seed sample_random sin24_table no_vm_config 0%Z
               = Ok (fst (fst no_vm_result), snd (fst no_vm_result), snd no_vm_result))
    by (vm_compute; reflexivity).
  split; [exact H1|]. split; [exact H2|]. split; [exact H3|]. split; [exact H4|].
  exact (proj1 (run_without_vms_powers_all_off Z sample_seed sample_random sin24_table
                  no_vm_config 0%Z
                  (fst (fst no_vm_result)) (snd (fst no_vm_result)) (snd no_vm_result)
                  H1 H2 H3 H4)).
Defined.

(** The histories of the two-host run after its first cycle hold
    percentages. *)
Lemma usage_stays_in_percent_range_witness :
  (forall r, between 0 1 (fst (sample_random r))) /\
  init_state sample_seed sample_random two_host_config = Ok two_host_state0 /\
  run_cycles sample_random sin24_table [0%Z] two_host_state0 = Ok two_host_state1 /\
  Forall vm_in_range (st_vms two_host_state1).
Proof.
  assert (H4 : run_cycles sample_random sin24_table [0%Z] two_host_state0
               = Ok two_host_state1) by (vm_compute; reflexivity).
  split; [exact sample_random_unit|].
  split; [exact two_host_init|]. split; [exact H4|].
  exact (usage_stays_in_percent_range Z sample_seed sample_random sin24_table
           two_host_config [0%Z] two_host_state0 two_host_state1
           sample_random_unit two_host_init H4).
Defined.

(** The two-host run of one cycle migrates once, within its bound of two. *)
Lemma migrations_bounded_by_vms_and_cycles_witness :
  simulate sample_seed sample_random sin24_table two_host_config 0%Z
    = Ok (fst (fst two_host_result), snd (fst two_host_result), snd two_host_result) /\
  (0 <= migrations_total (fst (fst two_host_result))
   <= Z.max 0 (n_vms two_host_config) * Z.max 0 (cycles two_host_config))%Z.
Proof.
  split; [exact two_host_simulate|].
  exact (migrations_bounded_by_vms_and_cycles Z sample_seed sample_random sin24_table
           two_host_config 0%Z
           (fst (fst two_host_result)) (snd (fst two_host_result)) (snd two_host_result)
           two_host_simulate).
Defined.

(** The two-host run ends with one host OFF and one ON. *)
Lemma run_with_vms_keeps_a_host_on_witness :
  simulate sample_seed sample_random sin24_table two_host_config 0%Z
    = Ok (fst (fst two_host_result), snd (fst two_host_result), snd two_host_result) /\
  (hosts_off_final (fst (fst two_host_result)) <= n_hosts two_host_config - 1)%Z.
Proof.
  assert (H1 : (1 <= n_hosts two_host_config)%Z) by (simpl; lia).
  assert (H2 : (1 <= n_vms two_host_config)%Z) by (simpl; lia).
  split; [exact two_host_simulate|].
  exact (proj2 (run_with_vms_keeps_a_host_on Z sample_seed sample_random sin24_table
                  two_host_config 0%Z
                  (fst (fst two_host_result)) (snd (fst two_host_result))
                  (snd two_host_result) two_host_simulate) H1 H2).
Defined.

(** A load of 95 on a host of capacity 100 breaches 0.90, hence 0.80. *)
Lemma watermark_breach_monotone_witness :
  (0.80 <= 0.90)%Q /\
  any_high_watermark [(0%Z, 95%Q)] [new_host 0] 0.90 = true /\
  any_high_watermark [(0%Z, 95%Q)] [new_host 0] 0.80 = true.
Proof.
  assert (H1 : (0.80 <= 0.90)%Q) by (unfold Qle; simpl; lia).
  assert (H2 : any_high_watermark [(0%Z, 95%Q)] [new_host 0] 0.90 = true)
    by (vm_compute; reflexivity).
  split; [exact H1|]. split; [exact H2|].
  exact (watermark_breach_monotone [(0%Z, 95%Q)] [new_host 0] 0.80 0.90 H1 H2).
Defined.
